(** * Satisfactory bot suite: command whitelist, rate limiter, persistent
      state and watchdog, embedded from [src/bots/common.py] and
      [src/bots/watchdog_bot.py]; further down the helpers of common.py
      that run commands, the optimizer of [src/bots/optimize_bot.py] and
      the restart command and the upload of [src/bots/manager_bot.py].

    Conventions of the embedding.
    - Python [str] is [string]; command lines are [list string].
    - Instants ([datetime]) and durations ([timedelta]) are integers counting
      microseconds, the resolution of both Python types; every reading of
      [datetime.now()] is an explicit input.
    - Dictionaries are stdpp [gmap]s, deques are lists with the oldest element
      first.
    - A coroutine that can block for ever on a lock it already holds returns
      an [outcome], either [Ret v] or [Hang]. *)

From Stdlib Require Import ZArith QArith Ascii String List Bool Lia Sorted DecimalString.
From stdpp Require Import base decidable option list gmap strings.

Local Open Scope string_scope.
Local Open Scope Z_scope.

(** ** Python string primitives used by the validator *)

Module PyStr.

Definition dquote : ascii := ascii_of_nat 34.

(** [s.endswith(suffix)] *)
Definition endswith (s suffix : string) : bool :=
  let n := String.length s in
  let m := String.length suffix in
  if (m <=? n)%nat then String.eqb (substring (n - m) m s) suffix else false.

(** [s.split(sep)[0]] for a one-character separator: the text before the
    first occurrence of [sep], the whole string when there is none. *)
Fixpoint split_head (sep : ascii) (s : string) : string :=
  match s with
  | EmptyString => EmptyString
  | String c r => if Ascii.eqb c sep then EmptyString else String c (split_head sep r)
  end.

(** [s.replace(c, '')] for a one-character [c]. *)
Fixpoint remove_char (c : ascii) (s : string) : string :=
  match s with
  | EmptyString => EmptyString
  | String d r => if Ascii.eqb d c then remove_char c r else String d (remove_char c r)
  end.

(** [s.replace(c, by)] for a one-character [c]. *)
Fixpoint replace_char (c : ascii) (by_ : string) (s : string) : string :=
  match s with
  | EmptyString => EmptyString
  | String d r =>
      if Ascii.eqb d c then by_ ++ replace_char c by_ r
      else String d (replace_char c by_ r)
  end.

(** [c in s] for a one-character [c]. *)
Fixpoint contains_char (c : ascii) (s : string) : bool :=
  match s with
  | EmptyString => false
  | String d r => Ascii.eqb d c || contains_char c r
  end.

Definition alnum_char (c : ascii) : bool :=
  let n := nat_of_ascii c in
  ((48 <=? n) && (n <=? 57) || (65 <=? n) && (n <=? 90) || (97 <=? n) && (n <=? 122))%nat.

Fixpoint all_alnum (s : string) : bool :=
  match s with
  | EmptyString => true
  | String c r => alnum_char c && all_alnum r
  end.

(** [s.isalnum()]: at least one character and every character alphanumeric.
    Arguments are ASCII command-line words; on them the Unicode classes of
    [str.isalnum] are the ranges 0-9, A-Z, a-z. *)
Definition isalnum (s : string) : bool :=
  match s with
  | EmptyString => false
  | _ => all_alnum s
  end.

(** [shlex.quote(s)] on a string that contains a blank (the only case in
    which [safe_subprocess] calls it): single quotes around the text, each
    inner single quote spelled quote, double-quoted quote, quote. *)
Definition shlex_quote (s : string) : string :=
  let sq := String "'" EmptyString in
  let esc := String "'" (String dquote (String "'" (String dquote sq))) in
  sq ++ replace_char "'" esc s ++ sq.

End PyStr.

(** ** common.py: whitelist, validator, subprocess wrapper *)

Module Common.

Import PyStr.

Definition SATISFACTORY_SERVICE_default : string := "satisfactory.service".
Definition SERVER_DOWN_THRESHOLD_default : Z := 2.
Definition MEMORY_LEAK_THRESHOLD_default : Z := 12000.
Definition CONTINUOUS_HIGH_CPU_default : Z := 5.

Definition ALLOWED_COMMANDS : gmap string (list string) :=
  list_to_map
    [ ("systemctl", ["start"; "stop"; "restart"; "status"; "is-active"; "is-failed"]);
      ("sysctl", ["-n"; "-w"]);
      ("renice", ["-n"; "-p"]);
      ("ionice", ["-c1"; "-c2"; "-c3"; "-n0"; "-n1"; "-n2"; "-n3"; "-n4"; "-n5";
                  "-n6"; "-n7"; "-p"]);
      ("taskset", ["-cp"]);
      ("pkill", ["-f"]);
      ("pgrep", ["-f"]);
      ("fail2ban-client", ["status"; "set"; "unbanall"]);
      ("chown", []) ].

Definition ALLOWED_SYSCTL_PARAMS : list string :=
  [ "net.core.rmem_default"; "net.core.wmem_default"; "net.core.rmem_max";
    "net.core.wmem_max"; "net.core.netdev_max_backlog"; "net.core.somaxconn";
    "net.ipv4.tcp_rmem"; "net.ipv4.tcp_wmem"; "net.ipv4.tcp_congestion_control";
    "net.ipv4.tcp_notsent_lowat"; "net.ipv4.tcp_slow_start_after_idle";
    "vm.swappiness"; "vm.vfs_cache_pressure"; "vm.dirty_ratio";
    "vm.dirty_background_ratio"; "vm.nr_hugepages" ].

(** [x in xs] on a list or set of strings. *)
Definition str_in (x : string) (xs : list string) : bool :=
  existsb (String.eqb x) xs.

(** The closing loop of [validate_command]: every argument is listed for the
    command or is alphanumeric once '-', '_', '.', '/' are removed. *)
Definition standard_arg_ok (allowed_args : list string) (arg : string) : bool :=
  str_in arg allowed_args
  || isalnum (remove_char "/" (remove_char "." (remove_char "_" (remove_char "-" arg)))).

Definition standard_validation (allowed_args args : list string) : bool :=
  forallb (standard_arg_ok allowed_args) args.

Definition validate_command (command : string) (args : list string) : bool :=
  match ALLOWED_COMMANDS !! command with
  | None => false
  | Some allowed_args =>
      if String.eqb command "systemctl" then
        match args with
        | action :: service :: _ =>
            str_in action allowed_args && endswith service ".service"
        | _ => false
        end
      else if String.eqb command "sysctl" then
        match args with
        | a0 :: a1 :: _ =>
            if String.eqb a0 "-w" then
              str_in (split_head "=" a1) ALLOWED_SYSCTL_PARAMS
            else if String.eqb a0 "-n" then
              str_in a1 ALLOWED_SYSCTL_PARAMS
            else
              (* neither branch returns: control reaches the closing loop *)
              standard_validation allowed_args args
        | _ => false
        end
      else if String.eqb command "chown" then
        match args with
        | a0 :: _ :: _ => String.eqb a0 "satisfactory:satisfactory"
        | _ => false
        end
      else standard_validation allowed_args args
  end.

(** What [subprocess.run(..., check=False)] hands back; the fields the
    callers read. *)
Record CompletedProcess := {
  returncode : Z;
  stdout : string;
  stderr : string
}.

(** The list [safe_subprocess] passes to [subprocess.run]. *)
Definition safe_cmd (cmd : list string) : list string :=
  map (fun arg => if contains_char " " arg then shlex_quote arg else arg) cmd.

(** [safe_subprocess] up to the call of [subprocess.run]: [None] when the
    command line is empty or the validator refuses it, otherwise the list
    that would be run. *)
Definition safe_subprocess_gate (cmd : list string) : option (list string) :=
  match cmd with
  | [] => None
  | command :: args =>
      if validate_command command args then Some (safe_cmd cmd) else None
  end.

(** *** GlobalRateLimiter *)

Definition usec_per_second : Z := 1000000.

Record GlobalRateLimiter := {
  max_calls : Z;
  per : Z;                       (* timedelta, in microseconds *)
  store : gmap Z (list Z)        (* user id -> deque of call instants *)
}.

Definition GlobalRateLimiter_init (max_calls per_seconds : Z) : GlobalRateLimiter :=
  {| max_calls := max_calls;
     per := per_seconds * usec_per_second;
     store := ∅ |}.

(** [while user_calls and now - user_calls[0] > self.per: popleft()] *)
Fixpoint drop_expired (now per : Z) (user_calls : list Z) : list Z :=
  match user_calls with
  | [] => []
  | t :: rest => if now - t >? per then drop_expired now per rest else user_calls
  end.

(** [allow] at clock reading [now]; the second component is the limiter
    after the call (the deque is pruned in place even when the call is
    refused). *)
Definition allow (now : Z) (user_id : Z) (rl : GlobalRateLimiter)
  : bool * GlobalRateLimiter :=
  let user_calls := drop_expired now (per rl) (default [] (store rl !! user_id)) in
  if Z.of_nat (List.length user_calls) >=? max_calls rl then
    (false, {| max_calls := max_calls rl; per := per rl;
               store := <[user_id := user_calls]> (store rl) |})
  else
    (true, {| max_calls := max_calls rl; per := per rl;
              store := <[user_id := (user_calls ++ [now])%list]> (store rl) |}).

Definition global_rate_limiter : GlobalRateLimiter := GlobalRateLimiter_init 3 10.

(** A timed call: the clock reading and the caller. *)
Definition timed_call : Type := Z * Z.

(** The instants of the calls by [user_id] that [allow] approves, when the
    calls are made in order against [rl]. *)
Fixpoint approvals (rl : GlobalRateLimiter) (calls : list timed_call) (user_id : Z)
  : list Z :=
  match calls with
  | [] => []
  | (now, u) :: rest =>
      let r := allow now u rl in
      ((if fst r && (u =? user_id) then [now] else [])
         ++ approvals (snd r) rest user_id)%list
  end.

(** Instants that lie in the closed window [[w, w + per]]. *)
Definition in_window (w per t : Z) : bool := (w <=? t) && (t <=? w + per).

Definition approvals_in_window (w per : Z) (ts : list Z) : Z :=
  Z.of_nat (List.length (List.filter (in_window w per) ts)).

(** Calls listed in the order of their clock readings, none before [T]. *)
Fixpoint chronological (T : Z) (calls : list timed_call) : Prop :=
  match calls with
  | [] => True
  | (t, _) :: rest => T ≤ t ∧ chronological t rest
  end.

(** What [allow] maintains for one user up to a call at [T]: the approvals
    so far, [G], are the entries already dropped from the deque, each
    older than the window, followed by the deque itself; none is later
    than [T]; no window holds more than [max_calls] of them. *)
Definition limiter_inv (rl : GlobalRateLimiter) (T k : Z) (G : list Z) : Prop :=
  (∃ old, G = (old ++ default [] (store rl !! k))%list
          ∧ Forall (λ t, t + per rl < T) old)
  ∧ Forall (λ t, t ≤ T) G
  ∧ ∀ w, approvals_in_window w (per rl) G ≤ max_calls rl.

(** *** PersistentState *)

Section PersistentState.

(** The values kept in the store ([Any] in the source). *)
Context {V : Type}.

(** Contents of a file, as far as [pickle.load] tells them apart. A Fernet
    token is what [Fernet(key).encrypt] of a pickled mapping would be. *)
Inductive FileContent :=
| PickledDict (m : gmap string V)
| PickledOther
| Unreadable
| FernetToken (key : string) (m : gmap string V).

(** The three paths the store touches. *)
Record FileSystem := {
  state_file : option FileContent;     (* self.filepath *)
  backup_file : option FileContent;    (* self.filepath.with_suffix('.backup') *)
  key_file : option string             (* self.filepath.parent / '.state_key' *)
}.

(** How the body of [with open(...) as f: pickle.dump(...)] ends. *)
Inductive WriteResult :=
| WriteOk
| WriteFailsAtOpen        (* open raised: no file is created *)
| WriteFailsInDump.       (* the file was created, dump raised midway *)

(** Which operating-system calls of one [save] raise. *)
Record SaveFaults := {
  rename_raises : bool;
  write_result : WriteResult;
  chmod_raises : bool;
  unlink_raises : bool
}.

Definition no_faults : SaveFaults :=
  {| rename_raises := false; write_result := WriteOk;
     chmod_raises := false; unlink_raises := false |}.

Record PersistentState := {
  data : gmap string V;
  _encryption_key : option string
}.

(** What a coroutine gives back to the code that awaits it. *)
Inductive PyResult := ReturnsNone | Raises.

(** Records sent to the module logger. *)
Inductive LogRecord :=
| LogLoadWarning
| LogSaveError.

(** [_load]; [read_raises] stands for open or [pickle.load] raising for a
    reason other than the content. *)
Definition _load (read_raises : bool) (fs : FileSystem)
  : gmap string V * list LogRecord :=
  match state_file fs with
  | Some c =>
      if read_raises then (∅, [LogLoadWarning])
      else match c with
           | PickledDict m => (m, [])
           | PickledOther => (∅, [])
           | Unreadable | FernetToken _ _ => (∅, [LogLoadWarning])
           end
  | None => (∅, [])
  end.

(** [_get_or_create_key]; [fresh] is what [Fernet.generate_key()] would
    return. *)
Definition _get_or_create_key (CRYPTO_AVAILABLE : bool) (fresh : string)
    (read_raises write_raises : bool) (fs : FileSystem)
  : option string * FileSystem :=
  if negb CRYPTO_AVAILABLE then (None, fs)
  else
    match key_file fs with
    | Some k =>
        if read_raises then
          (Some fresh,
           if write_raises then fs
           else {| state_file := state_file fs; backup_file := backup_file fs;
                   key_file := Some fresh |})
        else (Some k, fs)
    | None =>
        (Some fresh,
         if write_raises then fs
         else {| state_file := state_file fs; backup_file := backup_file fs;
                 key_file := Some fresh |})
    end.

(** [PersistentState(filepath)] *)
Definition PersistentState_init (CRYPTO_AVAILABLE : bool) (fresh : string)
    (load_raises key_read_raises key_write_raises : bool) (fs : FileSystem)
  : PersistentState * FileSystem * list LogRecord :=
  let '(d, lg) := _load load_raises fs in
  let '(k, fs') :=
    _get_or_create_key CRYPTO_AVAILABLE fresh key_read_raises key_write_raises fs in
  ({| data := d; _encryption_key := k |}, fs', lg).

(** [save]: the body runs inside [try]; the first call that raises sends
    control to the handler, which logs and returns. *)
Definition save (io : SaveFaults) (ps : PersistentState) (fs : FileSystem)
  : PyResult * FileSystem * list LogRecord :=
  (* Backup der alten Datei *)
  let renamed :=
    match state_file fs with
    | Some c =>
        if rename_raises io then None
        else Some {| state_file := None; backup_file := Some c;
                     key_file := key_file fs |}
    | None => Some fs
    end in
  match renamed with
  | None => (ReturnsNone, fs, [LogSaveError])
  | Some fs1 =>
      match write_result io with
      | WriteFailsAtOpen => (ReturnsNone, fs1, [LogSaveError])
      | WriteFailsInDump =>
          (ReturnsNone,
           {| state_file := Some Unreadable; backup_file := backup_file fs1;
              key_file := key_file fs1 |},
           [LogSaveError])
      | WriteOk =>
          let fs2 := {| state_file := Some (PickledDict (data ps));
                        backup_file := backup_file fs1;
                        key_file := key_file fs1 |} in
          if chmod_raises io then (ReturnsNone, fs2, [LogSaveError])
          else
            match backup_file fs2 with
            | Some _ =>
                if unlink_raises io then (ReturnsNone, fs2, [LogSaveError])
                else (ReturnsNone,
                      {| state_file := state_file fs2; backup_file := None;
                         key_file := key_file fs2 |},
                      [])
            | None => (ReturnsNone, fs2, [])
            end
      end
  end.

(** [get(key, default)] *)
Definition get (ps : PersistentState) (key : string) (default_ : V) : V :=
  default default_ (data ps !! key).

(** [set(key, value)] *)
Definition set (io : SaveFaults) (key : string) (value : V)
    (ps : PersistentState) (fs : FileSystem)
  : PyResult * PersistentState * FileSystem * list LogRecord :=
  let ps' := {| data := <[key := value]> (data ps);
                _encryption_key := _encryption_key ps |} in
  let '(r, fs', lg) := save io ps' fs in
  (r, ps', fs', lg).

(** The write step of a [save] was reached and completed. *)
Definition write_succeeds (io : SaveFaults) (fs : FileSystem) : Prop :=
  (state_file fs = None ∨ rename_raises io = false) ∧ write_result io = WriteOk.

(** The rename step completed on an existing file and the write then
    failed. *)
Definition write_fails_after_rename (io : SaveFaults) (fs : FileSystem) : Prop :=
  is_Some (state_file fs) ∧ rename_raises io = false ∧ write_result io ≠ WriteOk.

End PersistentState.

Arguments FileContent : clear implicits.
Arguments FileSystem : clear implicits.
Arguments PersistentState : clear implicits.

End Common.

(** ** watchdog_bot.py: the watchdog object, its handlers and triggers *)

Module Watchdog.

Import Common.

Definition usec_per_minute : Z := 60 * usec_per_second.
Definition usec_per_hour : Z := 3600 * usec_per_second.

(** The constants the module imports from [common] (read from the process
    environment there). *)
Record Config := {
  SATISFACTORY_SERVICE : string;
  SERVER_DOWN_THRESHOLD : Z;
  MEMORY_LEAK_THRESHOLD : Z;
  CONTINUOUS_HIGH_CPU : Z
}.

Definition default_config : Config :=
  {| SATISFACTORY_SERVICE := SATISFACTORY_SERVICE_default;
     SERVER_DOWN_THRESHOLD := SERVER_DOWN_THRESHOLD_default;
     MEMORY_LEAK_THRESHOLD := MEMORY_LEAK_THRESHOLD_default;
     CONTINUOUS_HIGH_CPU := CONTINUOUS_HIGH_CPU_default |}.

(** The ['timestamp'] item of a history entry as [can_restart] meets it:
    the ISO text of an instant, a text [fromisoformat] refuses
    ([ValueError]), or no such key ([KeyError]). Entries are dictionaries
    and time stamps are texts, as [restart_server] writes them. *)
Inductive TimestampField :=
| TsIso (t : Z)
| TsNotIso
| TsAbsent.

(** The reason text handed to [restart_server], by call site. *)
Inductive Reason :=
| ReasonServerOffline
| ReasonMemoryLeak (memory_mb : Z)
| ReasonCpuOverload (cpu_percent : Q)
| ReasonForceRestart (user : Z).

Record RestartEntry := {
  timestamp : TimestampField;
  reason : Reason;
  restart_number : Z
}.

Record ServerWatchdog := {
  down_counter : Z;
  high_cpu_counter : Z;
  high_memory_counter : Z;
  restart_count : Z;
  last_restart : option Z;
  alert_cooldowns : gmap string Z;
  memory_warning_threshold : Q;            (* MEMORY_LEAK_THRESHOLD * 0.8, as a rational *)
  alert_cooldown_minutes : Z;
  server_was_running : bool;
  max_restarts_per_hour : Z;
  restart_history : list RestartEntry;     (* deque(maxlen=10), oldest first *)
  lock_held : bool                         (* self._lock is taken *)
}.

(** The dictionary [save_state] stores under ['watchdog_state']. *)
Record Snapshot := {
  snap_down_counter : Z;
  snap_high_cpu_counter : Z;
  snap_high_memory_counter : Z;
  snap_restart_count : Z;
  snap_last_restart : option Z;
  snap_restart_history : list RestartEntry
}.

Definition snapshot_of (w : ServerWatchdog) : Snapshot :=
  {| snap_down_counter := down_counter w;
     snap_high_cpu_counter := high_cpu_counter w;
     snap_high_memory_counter := high_memory_counter w;
     snap_restart_count := restart_count w;
     snap_last_restart := last_restart w;
     snap_restart_history := restart_history w |}.

Definition history_maxlen : nat := 10.

(** [deque(xs, maxlen=10)]: the last ten items. *)
Definition deque_of_list (xs : list RestartEntry) : list RestartEntry :=
  skipn (List.length xs - history_maxlen) xs.

(** [deque.append] on a bounded deque: the oldest item leaves when full. *)
Definition deque_append (d : list RestartEntry) (x : RestartEntry) : list RestartEntry :=
  deque_of_list (d ++ [x])%list.

(** [ServerWatchdog()]: the defaults of [__init__], then [load_state] over
    what the store holds under ['watchdog_state'] ([None]: the key is not
    there and every [state.get] yields its default). *)
Definition ServerWatchdog_init (cfg : Config) (persisted : option Snapshot)
  : ServerWatchdog :=
  {| down_counter := from_option snap_down_counter 0 persisted;
     high_cpu_counter := from_option snap_high_cpu_counter 0 persisted;
     high_memory_counter := from_option snap_high_memory_counter 0 persisted;
     restart_count := from_option snap_restart_count 0 persisted;
     last_restart := from_option snap_last_restart None persisted;
     alert_cooldowns := ∅;
     memory_warning_threshold :=
       Qmult (inject_Z (MEMORY_LEAK_THRESHOLD cfg)) (Qmake 8 10);
     alert_cooldown_minutes := 10;
     server_was_running := false;
     max_restarts_per_hour := 3;
     restart_history :=
       deque_of_list (from_option snap_restart_history [] persisted);
     lock_held := false |}.

(** Messages given to [log_admin], by call site. *)
Inductive Alert :=
| AlertServerDown (counter : Z)
| AlertRestartLimit
| AlertServerOnline
| AlertCriticalMemory (memory_mb : Z)
| AlertHighMemory (memory_mb : Z)
| AlertHighCpu (cpu_percent : Q) (counter : Z)
| AlertCpuRestartDelayed (players : Z)
| AlertCpuNormalized
| AlertRestartTriggered (r : Reason)
| AlertStopFailed
| AlertForceStopFailed
| AlertStartFailed
| AlertRestartOk (number : Z)
| AlertServerReady
| AlertReadinessUnconfirmed
| AlertForceRestart (user : Z).

(** What one run leaves behind, oldest first. *)
Inductive Event :=
| EvAlert (a : Alert) (ping_owner : bool)
| EvExec (cmd : list string)          (* handed to subprocess.run *)
| EvRejected (cmd : list string)      (* refused by validate_command *)
| EvSleep (seconds : Z)
| EvPersist (s : Snapshot)            (* persistent_state.set('watchdog_state', s) *)
| EvTweaks (pid : Z)                  (* apply_performance_tweaks(pid) *)
| EvRestartServer (r : Reason).       (* restart_server(r) was called *)

Record State := {
  wd : ServerWatchdog;
  limiter : GlobalRateLimiter;
  reads : nat;                         (* readings of datetime.now() so far *)
  execs : nat;                         (* commands run so far *)
  trace : list Event
}.

(** The surroundings of one run. *)
Record Env := {
  clock : nat -> Z;                    (* the n-th reading of datetime.now() *)
  run : nat -> list string -> option CompletedProcess;
                                       (* the n-th subprocess.run; None: time-out or error *)
  server_ready : bool;                 (* wait_for_server_ready() *)
  pid_after_restart : option Z         (* get_satisfactory_performance()['pid'] *)
}.

Inductive outcome (A : Type) :=
| Ret (a : A) (s : State)
| Hang (s : State).                    (* blocked on self._lock *)
Arguments Ret {A} a s.
Arguments Hang {A} s.

Definition M (A : Type) : Type := State -> outcome A.

Definition ret {A} (a : A) : M A := fun s => Ret a s.

Definition bind {A B} (m : M A) (f : A -> M B) : M B :=
  fun s => match m s with
           | Ret a s' => f a s'
           | Hang s' => Hang s'
           end.

Declare Scope wd_scope.
Delimit Scope wd_scope with wd.
Bind Scope wd_scope with M.
Notation "'let*' x := m 'in' k" := (bind m (fun x => k))
  (at level 10, x name, m at level 100, k at level 200) : wd_scope.
Notation "m ;; k" := (bind m (fun _ => k))
  (at level 100, k at level 200, right associativity) : wd_scope.
Local Open Scope wd_scope.

Definition final_state {A} (o : outcome A) : State :=
  match o with Ret _ s => s | Hang s => s end.

Definition set_wd (w : ServerWatchdog) (s : State) : State :=
  {| wd := w; limiter := limiter s; reads := reads s; execs := execs s;
     trace := trace s |}.

Definition get_wd : M ServerWatchdog := fun s => Ret (wd s) s.

Definition modify_wd (f : ServerWatchdog -> ServerWatchdog) : M unit :=
  fun s => Ret tt (set_wd (f (wd s)) s).

Definition emit (e : Event) : M unit :=
  fun s => Ret tt {| wd := wd s; limiter := limiter s; reads := reads s;
                     execs := execs s; trace := (trace s ++ [e])%list |}.

Definition when (b : bool) (m : M unit) : M unit := if b then m else ret tt.

(** Field updates of the watchdog object. *)
Definition with_down_counter (v : Z) (w : ServerWatchdog) : ServerWatchdog :=
  {| down_counter := v; high_cpu_counter := high_cpu_counter w;
     high_memory_counter := high_memory_counter w; restart_count := restart_count w;
     last_restart := last_restart w; alert_cooldowns := alert_cooldowns w;
     memory_warning_threshold := memory_warning_threshold w;
     alert_cooldown_minutes := alert_cooldown_minutes w;
     server_was_running := server_was_running w;
     max_restarts_per_hour := max_restarts_per_hour w;
     restart_history := restart_history w; lock_held := lock_held w |}.

Definition with_high_cpu_counter (v : Z) (w : ServerWatchdog) : ServerWatchdog :=
  {| down_counter := down_counter w; high_cpu_counter := v;
     high_memory_counter := high_memory_counter w; restart_count := restart_count w;
     last_restart := last_restart w; alert_cooldowns := alert_cooldowns w;
     memory_warning_threshold := memory_warning_threshold w;
     alert_cooldown_minutes := alert_cooldown_minutes w;
     server_was_running := server_was_running w;
     max_restarts_per_hour := max_restarts_per_hour w;
     restart_history := restart_history w; lock_held := lock_held w |}.

Definition with_high_memory_counter (v : Z) (w : ServerWatchdog) : ServerWatchdog :=
  {| down_counter := down_counter w; high_cpu_counter := high_cpu_counter w;
     high_memory_counter := v; restart_count := restart_count w;
     last_restart := last_restart w; alert_cooldowns := alert_cooldowns w;
     memory_warning_threshold := memory_warning_threshold w;
     alert_cooldown_minutes := alert_cooldown_minutes w;
     server_was_running := server_was_running w;
     max_restarts_per_hour := max_restarts_per_hour w;
     restart_history := restart_history w; lock_held := lock_held w |}.

Definition with_alert_cooldowns (v : gmap string Z) (w : ServerWatchdog) : ServerWatchdog :=
  {| down_counter := down_counter w; high_cpu_counter := high_cpu_counter w;
     high_memory_counter := high_memory_counter w; restart_count := restart_count w;
     last_restart := last_restart w; alert_cooldowns := v;
     memory_warning_threshold := memory_warning_threshold w;
     alert_cooldown_minutes := alert_cooldown_minutes w;
     server_was_running := server_was_running w;
     max_restarts_per_hour := max_restarts_per_hour w;
     restart_history := restart_history w; lock_held := lock_held w |}.

Definition with_lock_held (v : bool) (w : ServerWatchdog) : ServerWatchdog :=
  {| down_counter := down_counter w; high_cpu_counter := high_cpu_counter w;
     high_memory_counter := high_memory_counter w; restart_count := restart_count w;
     last_restart := last_restart w; alert_cooldowns := alert_cooldowns w;
     memory_warning_threshold := memory_warning_threshold w;
     alert_cooldown_minutes := alert_cooldown_minutes w;
     server_was_running := server_was_running w;
     max_restarts_per_hour := max_restarts_per_hour w;
     restart_history := restart_history w; lock_held := v |}.

(** The three assignments of a completed stop and start:
    [restart_count += 1], [last_restart = now], [restart_history.append]. *)
Definition record_restart (now : Z) (r : Reason) (w : ServerWatchdog) : ServerWatchdog :=
  let n := restart_count w + 1 in
  {| down_counter := down_counter w; high_cpu_counter := high_cpu_counter w;
     high_memory_counter := high_memory_counter w; restart_count := n;
     last_restart := Some now; alert_cooldowns := alert_cooldowns w;
     memory_warning_threshold := memory_warning_threshold w;
     alert_cooldown_minutes := alert_cooldown_minutes w;
     server_was_running := server_was_running w;
     max_restarts_per_hour := max_restarts_per_hour w;
     restart_history :=
       deque_append (restart_history w)
         {| timestamp := TsIso now; reason := r; restart_number := n |};
     lock_held := lock_held w |}.

Section Handlers.

Variable cfg : Config.
Variable env : Env.

(** [datetime.now()] *)
Definition now : M Z :=
  fun s => Ret (clock env (reads s))
               {| wd := wd s; limiter := limiter s; reads := S (reads s);
                  execs := execs s; trace := trace s |}.

(** [async with self._lock:] around [body]. The lock is not re-entrant:
    entering while it is taken waits for a release that, inside the
    holder, never comes. *)
Definition acquire : M unit :=
  fun s => if lock_held (wd s) then Hang s
           else Ret tt (set_wd (with_lock_held true (wd s)) s).

Definition release : M unit := modify_wd (with_lock_held false).

Definition with_lock {A} (body : M A) : M A :=
  acquire ;; let* r := body in release ;; ret r.

(** [log_admin(bot, message, ping_owner)]; it keeps its own exceptions. *)
Definition log_admin (a : Alert) (ping_owner : bool) : M unit :=
  emit (EvAlert a ping_owner).

(** [asyncio.sleep(seconds)] *)
Definition sleep (seconds : Z) : M unit := emit (EvSleep seconds).

(** [safe_subprocess(cmd)]: [None] for a refused command line, otherwise
    what the run gives (it turns a time-out or an exception into [None]
    as well). *)
Definition safe_subprocess (cmd : list string) : M (option CompletedProcess) :=
  match safe_subprocess_gate cmd with
  | None => emit (EvRejected cmd) ;; ret None
  | Some c =>
      fun s => Ret (run env (execs s) c)
                   {| wd := wd s; limiter := limiter s; reads := reads s;
                      execs := S (execs s);
                      trace := (trace s ++ [EvExec c])%list |}
  end.

Definition safe_systemctl (action service : string) : M (option CompletedProcess) :=
  safe_subprocess ["systemctl"; action; service].

(** [not result or result.returncode != 0] *)
Definition failed (result : option CompletedProcess) : bool :=
  match result with
  | None => true
  | Some r => negb (returncode r =? 0)
  end.

(** [save_state]: the write to the store runs under the watchdog lock;
    the store call keeps its own exceptions. *)
Definition save_state : M unit :=
  with_lock (let* w := get_wd in emit (EvPersist (snapshot_of w))).

(** The test [restart_time > hour_ago] of [can_restart]; entries whose
    time stamp is missing or unreadable are skipped. *)
Definition is_recent (t_now : Z) (e : RestartEntry) : bool :=
  match timestamp e with
  | TsIso restart_time => restart_time >? t_now - usec_per_hour
  | TsNotIso | TsAbsent => false
  end.

Definition recent_restarts (t_now : Z) (history : list RestartEntry) : list RestartEntry :=
  List.filter (is_recent t_now) history.

(** The answer of [can_restart] for the clock reading [t_now]. *)
Definition can_restart_at (t_now : Z) (w : ServerWatchdog) : bool :=
  Z.of_nat (List.length (recent_restarts t_now (restart_history w)))
    <? max_restarts_per_hour w.

Definition can_restart : M bool :=
  let* t := now in
  let* w := get_wd in
  ret (can_restart_at t w).

Definition should_send_alert (alert_type : string) : M bool :=
  let* w := get_wd in
  match alert_cooldowns w !! alert_type with
  | None => ret true
  | Some last_alert =>
      let cooldown_end := last_alert + alert_cooldown_minutes w * usec_per_minute in
      let* t := now in
      ret (t >? cooldown_end)
  end.

Definition set_alert_cooldown (alert_type : string) : M unit :=
  let* t := now in
  modify_wd (fun w => with_alert_cooldowns (<[alert_type := t]> (alert_cooldowns w)) w).

(** [restart_server] from the settle pause on: what follows a stop
    that went through, by either way. The lock is held. *)
Definition start_and_record (r : Reason) : M bool :=
  sleep 15 ;;
  let* start_result := safe_systemctl "start" (SATISFACTORY_SERVICE cfg) in
  if failed start_result then
    log_admin AlertStartFailed true ;; release ;; ret false
  else
    let* t := now in
    modify_wd (record_restart t r) ;;
    save_state ;;
    let* w := get_wd in
    log_admin (AlertRestartOk (restart_count w)) false ;;
    (if server_ready env then
       match pid_after_restart env with
       | Some pid => when (negb (pid =? 0)) (emit (EvTweaks pid))
       | None => ret tt
       end ;;
       log_admin AlertServerReady false
     else log_admin AlertReadinessUnconfirmed true) ;;
    release ;; ret true.

(** [restart_server(reason)]. Every helper it awaits keeps its own
    exceptions, so its [except] arm is not entered. *)
Definition restart_server (r : Reason) : M bool :=
  emit (EvRestartServer r) ;;
  acquire ;;
  log_admin (AlertRestartTriggered r) false ;;
  let* stop_result := safe_systemctl "stop" (SATISFACTORY_SERVICE cfg) in
  if failed stop_result then
    log_admin AlertStopFailed false ;;
    let* kill_result := safe_subprocess ["sudo"; "pkill"; "-f"; "FactoryServer"] in
    if failed kill_result then
      log_admin AlertForceStopFailed true ;; release ;; ret false
    else start_and_record r
  else start_and_record r.

(** What the stop command of [restart_server] leaves in the trace: it
    is run, or refused when the service name does not pass the
    validator. *)
Definition stop_event : Event :=
  match safe_subprocess_gate ["systemctl"; "stop"; SATISFACTORY_SERVICE cfg] with
  | Some c => EvExec c
  | None => EvRejected ["systemctl"; "stop"; SATISFACTORY_SERVICE cfg]
  end.

(** The graceful stop fails when it is the [n]-th command run. *)
Definition stop_fails_at (n : nat) : Prop :=
  ∀ c, safe_subprocess_gate ["systemctl"; "stop"; SATISFACTORY_SERVICE cfg] = Some c →
       failed (run env n c) = true.

(** [handle_server_down] *)
Definition handle_server_down : M (list string) :=
  modify_wd (fun w => with_down_counter (down_counter w + 1) w) ;;
  save_state ;;
  let* send := should_send_alert "server_down" in
  when send
    (let* w := get_wd in
     log_admin (AlertServerDown (down_counter w))
               (down_counter w >=? SERVER_DOWN_THRESHOLD cfg) ;;
     set_alert_cooldown "server_down") ;;
  let* w := get_wd in
  if down_counter w >=? SERVER_DOWN_THRESHOLD cfg then
    let* ok := can_restart in
    if ok then
      let* restart_success := restart_server ReasonServerOffline in
      if restart_success then
        modify_wd (with_down_counter 0) ;;
        save_state ;;
        ret ["restart_successful"]
      else ret ["restart_failed"]
    else
      log_admin AlertRestartLimit true ;;
      ret ["restart_rate_limited"]
  else ret [].

(** [handle_high_memory(memory_mb)] *)
Definition handle_high_memory (memory_mb : Z) : M (list string) :=
  let* w := get_wd in
  if memory_mb >=? MEMORY_LEAK_THRESHOLD cfg then
    log_admin (AlertCriticalMemory memory_mb) true ;;
    let* ok := can_restart in
    if ok then
      let* restart_success := restart_server (ReasonMemoryLeak memory_mb) in
      if restart_success then
        modify_wd (with_high_cpu_counter 0) ;;
        modify_wd (with_high_memory_counter 0) ;;
        save_state ;;
        ret ["restart_memory_leak"]
      else ret ["restart_failed_memory"]
    else ret ["restart_rate_limited_memory"]
  else if Qle_bool (memory_warning_threshold w) (inject_Z memory_mb) then
    modify_wd (fun w => with_high_memory_counter (high_memory_counter w + 1) w) ;;
    let* send := should_send_alert "high_memory" in
    if send then
      log_admin (AlertHighMemory memory_mb) false ;;
      set_alert_cooldown "high_memory" ;;
      ret ["memory_warning"]
    else ret []
  else if high_memory_counter w >? 0 then
    modify_wd (with_high_memory_counter 0) ;;
    save_state ;;
    ret ["memory_normalized"]
  else ret [].

(** [handle_high_cpu(cpu_percent, estimated_players)] *)
Definition handle_high_cpu (cpu_percent : Q) (estimated_players : Z) : M (list string) :=
  if Qle_bool (Qmake 95 1) cpu_percent then
    modify_wd (fun w => with_high_cpu_counter (high_cpu_counter w + 1) w) ;;
    save_state ;;
    let* send := should_send_alert "high_cpu" in
    when send
      (let* w := get_wd in
       log_admin (AlertHighCpu cpu_percent (high_cpu_counter w)) false ;;
       set_alert_cooldown "high_cpu") ;;
    let* w := get_wd in
    if high_cpu_counter w >=? CONTINUOUS_HIGH_CPU cfg then
      if estimated_players >? 0 then
        log_admin (AlertCpuRestartDelayed estimated_players) true ;;
        modify_wd (with_high_cpu_counter (Z.max (CONTINUOUS_HIGH_CPU cfg - 2) 0)) ;;
        save_state ;;
        ret ["cpu_restart_delayed_players"]
      else
        let* ok := can_restart in
        if ok then
          let* restart_success := restart_server (ReasonCpuOverload cpu_percent) in
          if restart_success then
            modify_wd (with_high_cpu_counter 0) ;;
            save_state ;;
            ret ["restart_cpu_overload"]
          else ret ["restart_failed_cpu"]
        else ret ["restart_rate_limited_cpu"]
    else ret []
  else
    let* w := get_wd in
    if high_cpu_counter w >? 0 then
      modify_wd (with_high_cpu_counter 0) ;;
      save_state ;;
      let* send := should_send_alert "cpu_normalized" in
      when send
        (log_admin AlertCpuNormalized false ;;
         set_alert_cooldown "cpu_normalized") ;;
      ret ["cpu_normalized"]
    else ret [].

(** The performance sample inside the status dictionary. *)
Record Performance := {
  pid : option Z;
  cpu_percent : Q;
  memory_mb : Z;
  estimated_players : Z
}.

(** [bool(perf.get('pid'))] *)
Definition pid_truthy (p : Performance) : bool :=
  match pid p with
  | Some n => negb (n =? 0)
  | None => false
  end.

(** What [check_server_status] returns to [patrol]. *)
Record Status := {
  status_error : bool;               (* 'error' in status *)
  service_active : bool;
  performance : Performance
}.

Definition process_running (st : Status) : bool := pid_truthy (performance st).

(** One firing of [patrol], from the status it has sampled. *)
Definition patrol (status : Status) : M (list string) :=
  if status_error status then ret []
  else if negb (service_active status) || negb (process_running status) then
    handle_server_down
  else
    let* w := get_wd in
    when (down_counter w >? 0)
      (modify_wd (with_down_counter 0) ;;
       save_state ;;
       log_admin AlertServerOnline false) ;;
    let perf := performance status in
    if pid_truthy perf then
      let* memory_actions := handle_high_memory (memory_mb perf) in
      let* cpu_actions := handle_high_cpu (cpu_percent perf) (estimated_players perf) in
      ret (memory_actions ++ cpu_actions)%list
    else ret [].

(** How a slash command ends for the user. *)
Inductive Reply :=
| ReplyRateLimited          (* check_global_rate raised CheckFailure *)
| ReplyNoPermission
| ReplyRestartDone
| ReplyRestartFailed.

(** The check installed by [check_global_rate]. *)
Definition check_global_rate (user : Z) : M bool :=
  let* t := now in
  fun s =>
    let r := allow t user (limiter s) in
    Ret (fst r) {| wd := wd s; limiter := snd r; reads := reads s;
                   execs := execs s; trace := trace s |}.

(** [force_restart_cmd]; [permitted] is [has_permission(interaction.user)]. *)
Definition force_restart_cmd (user : Z) (permitted : bool) : M Reply :=
  let* allowed := check_global_rate user in
  if negb allowed then ret ReplyRateLimited
  else if negb permitted then ret ReplyNoPermission
  else
    log_admin (AlertForceRestart user) false ;;
    let* restart_success := restart_server (ReasonForceRestart user) in
    if restart_success then ret ReplyRestartDone else ret ReplyRestartFailed.

End Handlers.

(** Number of calls of [restart_server] recorded in a trace. *)
Definition is_restart_call (e : Event) : bool :=
  match e with EvRestartServer _ => true | _ => false end.

Definition restart_calls (tr : list Event) : nat :=
  List.length (List.filter is_restart_call tr).

(** The commands handed to [subprocess.run], in order. *)
Definition executed (tr : list Event) : list (list string) :=
  omap (fun e => match e with EvExec c => Some c | _ => None end) tr.

Definition initial_state (w : ServerWatchdog) : State :=
  {| wd := w; limiter := global_rate_limiter; reads := 0; execs := 0; trace := [] |}.

(** [n] firings of [patrol] in a row that all find the server down. *)
Fixpoint down_cycles (cfg : Config) (env : Env) (n : nat) : M unit :=
  match n with
  | O => ret tt
  | S k => handle_server_down cfg env ;; down_cycles cfg env k
  end.

Definition returned {A} (o : outcome A) : Prop :=
  match o with Ret _ _ => True | Hang _ => False end.

(** The restart budget as [can_restart] counts it at reading [t_now]. *)
Definition within_budget (t_now : Z) (w : ServerWatchdog) : Prop :=
  Z.of_nat (List.length (recent_restarts t_now (restart_history w)))
  < max_restarts_per_hour w.

(** If the run [o] from [s0] called [restart_server], then at one of the
    clock readings it took, strictly fewer than [max_restarts_per_hour]
    entries of the history of [s0] lay within the trailing hour. *)
Definition restarts_only_within_budget (env : Env) (s0 : State) {A} (o : outcome A)
  : Prop :=
  (restart_calls (trace s0) < restart_calls (trace (final_state o)))%nat →
  ∃ n, (reads s0 ≤ n < reads (final_state o))%nat
       ∧ Z.of_nat (List.length (recent_restarts (clock env n) (restart_history (wd s0))))
         < max_restarts_per_hour (wd s0).

(** A run from [s0] asked the budget before each call of [restart_server]:
    the clock only moves on, the history and the limit are as before
    whenever the run returns, and if the run called [restart_server] then
    one of its clock readings found the budget of [s0] open. *)
Definition budget_respected (env : Env) (s0 : State) {A} (o : outcome A) : Prop :=
  let s' := final_state o in
  (reads s0 ≤ reads s')%nat
  ∧ (restart_calls (trace s0) ≤ restart_calls (trace s'))%nat
  ∧ (returned o →
     restart_history (wd s') = restart_history (wd s0)
     ∧ max_restarts_per_hour (wd s') = max_restarts_per_hour (wd s0))
  ∧ ((restart_calls (trace s0) < restart_calls (trace s'))%nat →
     ∃ n, (reads s0 ≤ n < reads s')%nat ∧ within_budget (clock env n) (wd s0)).

End Watchdog.

(** ** Concrete stores, surroundings and states used as instances *)

Module Fixtures.

Import Common Watchdog.

Definition empty_fs : FileSystem Z :=
  {| state_file := None; backup_file := None; key_file := None |}.

(** A store file left by an earlier process. *)
Definition old_fs : FileSystem Z :=
  {| state_file := Some (PickledDict {[ "old" := 5 ]});
     backup_file := None; key_file := None |}.

Definition old_ps : PersistentState Z :=
  {| data := {[ "old" := 5 ]}; _encryption_key := None |}.

(** The dump raises after the file has been opened. *)
Definition dump_fails : SaveFaults :=
  {| rename_raises := false; write_result := WriteFailsInDump;
     chmod_raises := false; unlink_raises := false |}.

Definition exit_code (n : Z) : CompletedProcess :=
  {| returncode := n; stdout := EmptyString; stderr := EmptyString |}.

(** Every command that is run exits with 0. *)
Definition env_all_ok : Env :=
  {| clock := fun n => Z.of_nat n;
     run := fun _ _ => Some (exit_code 0);
     server_ready := true;
     pid_after_restart := Some 4242 |}.

(** [systemctl stop] exits with 1; every other command, pkill included,
    exits with 0 when it is run. *)
Definition env_stop_fails : Env :=
  {| clock := fun n => Z.of_nat n;
     run := fun _ cmd =>
              match cmd with
              | [_; action; _] =>
                  if String.eqb action "stop" then Some (exit_code 1)
                  else Some (exit_code 0)
              | _ => Some (exit_code 0)
              end;
     server_ready := true;
     pid_after_restart := Some 4242 |}.

(** No command that is run exits with 0. *)
Definition env_nothing_works : Env :=
  {| clock := fun n => Z.of_nat n;
     run := fun _ _ => Some (exit_code 1);
     server_ready := false;
     pid_after_restart := None |}.

Definition restart_at (t : Z) (n : Z) : RestartEntry :=
  {| timestamp := TsIso t; reason := ReasonServerOffline; restart_number := n |}.

(** A stored watchdog state with three restarts at instant 0. *)
Definition three_restarts : Snapshot :=
  {| snap_down_counter := 0; snap_high_cpu_counter := 0;
     snap_high_memory_counter := 0; snap_restart_count := 3;
     snap_last_restart := Some 0;
     snap_restart_history := [restart_at 0 1; restart_at 0 2; restart_at 0 3] |}.

Definition fresh_watchdog : State :=
  initial_state (ServerWatchdog_init default_config None).

Definition exhausted_watchdog : State :=
  initial_state (ServerWatchdog_init default_config (Some three_restarts)).

(** A stored state that has seen the server down once. *)
Definition down_once : State :=
  initial_state
    (ServerWatchdog_init default_config
       (Some {| snap_down_counter := 1; snap_high_cpu_counter := 0;
                snap_high_memory_counter := 0; snap_restart_count := 0;
                snap_last_restart := None; snap_restart_history := [] |})).

(** A stored state whose CPU counter stands one below the trip point. *)
Definition cpu_almost_tripped : State :=
  initial_state
    (ServerWatchdog_init default_config
       (Some {| snap_down_counter := 0; snap_high_cpu_counter := 4;
                snap_high_memory_counter := 0; snap_restart_count := 0;
                snap_last_restart := None; snap_restart_history := [] |})).

(** CONTINUOUS_HIGH_CPU set to 1 in the environment. *)
Definition config_trip_at_one : Config :=
  {| SATISFACTORY_SERVICE := SATISFACTORY_SERVICE_default;
     SERVER_DOWN_THRESHOLD := SERVER_DOWN_THRESHOLD_default;
     MEMORY_LEAK_THRESHOLD := MEMORY_LEAK_THRESHOLD_default;
     CONTINUOUS_HIGH_CPU := 1 |}.

End Fixtures.

(** ** Shapes of the arguments the validator accepts *)

Module ValidatorShapes.

Import PyStr Common.

(** The names that are keys of ALLOWED_COMMANDS. *)
Definition whitelisted_names : list string :=
  ["systemctl"; "sysctl"; "renice"; "ionice"; "taskset"; "pkill"; "pgrep";
   "fail2ban-client"; "chown"].

(** The four characters the closing loop of [validate_command] removes
    before it asks [isalnum]. *)
Definition removed_char (c : ascii) : bool :=
  Ascii.eqb c "-" || Ascii.eqb c "_" || Ascii.eqb c "." || Ascii.eqb c "/".

Definition word_char (c : ascii) : bool := alnum_char c || removed_char c.

(** The code points below 128. On a text made of them [str.isalnum] asks
    for the ranges 0-9, A-Z, a-z and nothing else. *)
Definition ascii_char (c : ascii) : bool := (nat_of_ascii c <? 128)%nat.

Fixpoint str_forall (p : ascii -> bool) (s : string) : bool :=
  match s with
  | EmptyString => true
  | String c r => p c && str_forall p r
  end.

Fixpoint str_exists (p : ascii -> bool) (s : string) : bool :=
  match s with
  | EmptyString => false
  | String c r => p c || str_exists p r
  end.

(** The argument as the closing loop of [validate_command] looks at it:
    hyphens, underscores, dots and slashes taken out. *)
Definition strip4 (s : string) : string :=
  remove_char "/" (remove_char "." (remove_char "_" (remove_char "-" s))).

End ValidatorShapes.

(** ** Runs of the rate limiter *)

Module LimiterRuns.

Import Common.

(** The limiter after the calls have been made, in order. *)
Fixpoint limiter_after (rl : GlobalRateLimiter) (calls : list timed_call)
  : GlobalRateLimiter :=
  match calls with
  | [] => rl
  | (now, u) :: rest => limiter_after (snd (allow now u rl)) rest
  end.

(** The deque kept for a user (empty when the user has none yet). *)
Definition deque_of (rl : GlobalRateLimiter) (user_id : Z) : list Z :=
  default [] (store rl !! user_id).

(** The calls made by one user. *)
Definition calls_of (user_id : Z) (calls : list timed_call) : list timed_call :=
  List.filter (fun c => snd c =? user_id) calls.

End LimiterRuns.

(** ** Observations on watchdog runs *)

Module WatchdogRuns.

Import Common Watchdog.

(** Number of writes of the watchdog state to the store in a trace. *)
Definition persist_count (tr : list Event) : nat :=
  List.length (List.filter (fun e => match e with EvPersist _ => true | _ => false end) tr).

(** A run from [s0] made while the lock is taken by another call: the lock
    is still taken at its end, no command was run and the restart record is
    as before. *)
Definition stays_idle (s0 : State) {A} (o : outcome A) : Prop :=
  let s' := final_state o in
  lock_held (wd s') = true
  ∧ executed (trace s') = executed (trace s0)
  ∧ restart_count (wd s') = restart_count (wd s0)
  ∧ restart_history (wd s') = restart_history (wd s0).

End WatchdogRuns.

(** ** More of common.py: text helpers *)

Module PyText.

Import PyStr.

(** [str(n)] for an [int]. *)
Definition str_of_int (z : Z) : string := NilZero.string_of_int (Z.to_int z).

(** [sep.join(parts)] *)
Definition join (sep : string) (parts : list string) : string := String.concat sep parts.

(** [c.isspace()] on the code points below 256: tab to carriage return, the
    four separators 28 to 31, the blank, NEL and the no-break space. *)
Definition py_space (c : ascii) : bool :=
  let n := nat_of_ascii c in
  ((9 <=? n) && (n <=? 13) || (28 <=? n) && (n <=? 32) || (n =? 133) || (n =? 160))%nat.

Fixpoint lstrip (s : string) : string :=
  match s with
  | EmptyString => EmptyString
  | String c r => if py_space c then lstrip r else s
  end.

Fixpoint rstrip (s : string) : string :=
  match s with
  | EmptyString => EmptyString
  | String c r =>
      match rstrip r with
      | EmptyString => if py_space c then EmptyString else String c EmptyString
      | r' => String c r'
      end
  end.

(** [s.strip()] *)
Definition strip (s : string) : string := rstrip (lstrip s).

(** [os.path.basename(path)] on POSIX: what follows the last slash. *)
Fixpoint basename (path : string) : string :=
  match path with
  | EmptyString => EmptyString
  | String _ r => if contains_char "/" path then basename r else path
  end.

(** [re.sub('[set]', '', s)]: the characters outside the set, in order. *)
Fixpoint remove_chars (drop : ascii -> bool) (s : string) : string :=
  match s with
  | EmptyString => EmptyString
  | String c r => if drop c then remove_chars drop r else String c (remove_chars drop r)
  end.

(** The set of the first pattern of [safe_filename]. *)
Definition dangerous_char (c : ascii) : bool :=
  let n := nat_of_ascii c in
  ((n =? 60) || (n =? 62) || (n =? 58) || (n =? 34) || (n =? 124) || (n =? 63)
   || (n =? 42) || (n =? 92))%nat.

(** The class of the second pattern: letters, digits, dot, underscore,
    hyphen. *)
Definition name_char (c : ascii) : bool :=
  alnum_char c || Ascii.eqb c "." || Ascii.eqb c "_" || Ascii.eqb c "-".

Definition newline : ascii := ascii_of_nat 10.

(** [re.match('^[class]+$', s)]: one or more characters of the class up to
    the end, where the end is also found just before a final newline. *)
Fixpoint matches_name (s : string) : bool :=
  match s with
  | EmptyString => false
  | String c r =>
      name_char c
      && match r with
         | EmptyString => true
         | String d EmptyString => Ascii.eqb d newline || matches_name r
         | _ => matches_name r
         end
  end.

(** [safe_filename(filename)] *)
Definition safe_filename (filename : string) : option string :=
  match filename with
  | EmptyString => None
  | _ =>
      let base := basename filename in
      let safe := remove_chars dangerous_char base in
      if negb (matches_name safe) then None
      else if (100 <? String.length safe)%nat then None
      else Some safe
  end.

End PyText.

(** ** Commands run outside the watchdog: common.py helpers, manager bot,
       optimize bot *)

Module Bots.

Import PyStr Common PyText.

(** What the users of these functions can observe. *)
Inductive Note :=
| NoteRestartInitiated (user : Z)          (* log_admin *)
| NoteStartFailed                          (* log_admin, ping *)
| NoteRestartSucceeded (user : Z)          (* log_admin *)
| NoteReadinessUnconfirmed                 (* log_admin, ping *)
| NotePublicRestarting                     (* log_public *)
| NotePublicRestartDone.                   (* log_public *)

Inductive Answer :=
| AnswerRateLimited                        (* CheckFailure of check_global_rate *)
| AnswerNoPermission
| AnswerStopFailed
| AnswerStartFailed
| AnswerRestarting.

Inductive Event :=
| Ran (cmd : list string)                  (* handed to subprocess.run *)
| Refused (cmd : list string)              (* stopped by validate_command *)
| Slept (seconds : Z)
| Noted (n : Note) (ping_owner : bool)
| Answered (a : Answer)
| Stored (key : string).                   (* persistent_state.set(key, ...) *)

Record World := {
  limiter : GlobalRateLimiter;
  reads : nat;                             (* readings of datetime.now() so far *)
  execs : nat;                             (* commands run so far *)
  trace : list Event
}.

(** The surroundings: the clock, what each run gives, what the process scan
    of [get_satisfactory_performance] finds at each call, the answer of
    [wait_for_server_ready], [psutil.cpu_count()] (0 for [None]). *)
Record Env := {
  clock : nat -> Z;
  run : nat -> list string -> option CompletedProcess;
  scan_pid : nat -> option Z;
  server_ready : bool;
  cpu_count : nat;
  SATISFACTORY_SERVICE : string
}.

Definition P (A : Type) : Type := World -> A * World.

Definition ret {A} (a : A) : P A := fun w => (a, w).

Definition bind {A B} (m : P A) (f : A -> P B) : P B :=
  fun w => let '(a, w') := m w in f a w'.

Declare Scope bots_scope.
Delimit Scope bots_scope with bots.
Bind Scope bots_scope with P.
Notation "'let*' x := m 'in' k" := (bind m (fun x => k))
  (at level 10, x name, m at level 100, k at level 200) : bots_scope.
Notation "m ;; k" := (bind m (fun _ => k))
  (at level 100, k at level 200, right associativity) : bots_scope.
Local Open Scope bots_scope.

Definition emit (e : Event) : P unit :=
  fun w => (tt, {| limiter := limiter w; reads := reads w; execs := execs w;
                   trace := (trace w ++ [e])%list |}).

(** The commands handed to [subprocess.run], in order. *)
Definition ran (tr : list Event) : list (list string) :=
  omap (fun e => match e with Ran c => Some c | _ => None end) tr.

Section Procedures.

Variable env : Env.

(** [safe_subprocess(cmd)] *)
Definition safe_subprocess (cmd : list string) : P (option CompletedProcess) :=
  match safe_subprocess_gate cmd with
  | None => emit (Refused cmd) ;; ret None
  | Some c =>
      fun w => (run env (execs w) c,
                {| limiter := limiter w; reads := reads w; execs := S (execs w);
                   trace := (trace w ++ [Ran c])%list |})
  end.

Definition safe_systemctl (action service : string) : P (option CompletedProcess) :=
  safe_subprocess ["systemctl"; action; service].

(** [result and result.returncode == 0] as a truth value. *)
Definition succeeded (result : option CompletedProcess) : bool :=
  match result with
  | Some r => returncode r =? 0
  | None => false
  end.

(** A process id as a condition: [None] and 0 are false. *)
Definition found (pid : option Z) : option Z :=
  match pid with
  | Some n => if n =? 0 then None else Some n
  | None => None
  end.

(** [get_satisfactory_performance()]: the service status it asks for, and
    the process id its scan finds (the other fields of the sample are not
    read by the callers below). *)
Definition get_satisfactory_performance : P (string * option Z) :=
  let* result := safe_systemctl "is-active" (SATISFACTORY_SERVICE env) in
  let status := match result with
                | Some r => strip (stdout r)
                | None => "unknown"
                end in
  fun w => ((status, scan_pid env (execs w)), w).

(** [','.join(str(i) for i in range(n))] *)
Definition cpu_list (n : nat) : string :=
  join "," (map (fun i => str_of_int (Z.of_nat i)) (seq 0 n)).

(** [apply_performance_tweaks(pid)] *)
Definition apply_performance_tweaks (pid : option Z) : P bool :=
  let* pid :=
    match found pid with
    | Some p => ret (Some p)
    | None => let* perf := get_satisfactory_performance in ret (found (snd perf))
    end in
  match pid with
  | None => ret false
  | Some p =>
      let* result1 := safe_subprocess ["renice"; "-n"; "-5"; "-p"; str_of_int p] in
      let* result2 := safe_subprocess ["ionice"; "-c2"; "-n0"; "-p"; str_of_int p] in
      let n := match cpu_count env with O => 4%nat | c => c end in
      let* result3 := safe_subprocess ["taskset"; "-cp"; cpu_list n; str_of_int p] in
      ret (succeeded result1)
  end.

(** *** optimize_bot.py: SystemOptimizer *)

Definition safe_sysctl_params : list (string * string) :=
  [ ("net.core.rmem_default", "262144");
    ("net.core.wmem_default", "262144");
    ("net.core.rmem_max", "16777216");
    ("net.core.wmem_max", "16777216");
    ("net.core.netdev_max_backlog", "2500");
    ("net.core.somaxconn", "1024");
    ("net.ipv4.tcp_rmem", "4096 87380 16777216");
    ("net.ipv4.tcp_wmem", "4096 65536 16777216");
    ("net.ipv4.tcp_congestion_control", "bbr");
    ("vm.swappiness", "10");
    ("vm.vfs_cache_pressure", "50") ].

Record NetworkResult := {
  net_success : bool;
  applied : list string;
  failed : list string
}.

(** [f'{param}={value}'] *)
Definition sysctl_assignment (pv : string * string) : string :=
  fst pv ++ "=" ++ snd pv.

(** The loop of [apply_network_optimizations] over the remaining
    parameters. *)
Fixpoint apply_params (params : list (string * string)) (applied failed : list string)
  : P (list string * list string) :=
  match params with
  | [] => ret (applied, failed)
  | pv :: rest =>
      let assignment := sysctl_assignment pv in
      let* cmd_result := safe_subprocess ["sudo"; "sysctl"; "-w"; assignment] in
      if succeeded cmd_result then
        apply_params rest (applied ++ [assignment])%list failed
      else
        apply_params rest applied (failed ++ [assignment])%list
  end.

Definition apply_network_optimizations : P NetworkResult :=
  let* lists := apply_params safe_sysctl_params [] [] in
  ret {| net_success := (List.length (snd lists) <? List.length (fst lists))%nat;
         applied := fst lists;
         failed := snd lists |}.

Record ProcessResult := {
  proc_success : bool;
  proc_pid : option Z;
  nice_applied : bool;
  ionice_applied : bool
}.

(** [optimize_process_priority(pid)] *)
Definition optimize_process_priority (pid : option Z) : P ProcessResult :=
  let* pid :=
    match found pid with
    | Some p => ret (Some p)
    | None => let* perf := get_satisfactory_performance in ret (snd perf)
    end in
  match found pid with
  | None =>
      ret {| proc_success := false; proc_pid := pid;
             nice_applied := false; ionice_applied := false |}
  | Some p =>
      let* nice_result :=
        safe_subprocess ["sudo"; "renice"; "-n"; "-10"; "-p"; str_of_int p] in
      let* ionice_result :=
        safe_subprocess ["sudo"; "ionice"; "-c2"; "-n0"; "-p"; str_of_int p] in
      ret {| proc_success := succeeded nice_result || succeeded ionice_result;
             proc_pid := pid;
             nice_applied := succeeded nice_result;
             ionice_applied := succeeded ionice_result |}
  end.

Record Optimization := {
  network_optimization : NetworkResult;
  process_success : bool;                  (* process_optimization['success'] *)
  overall_success : bool
}.

Definition max_history : nat := 50.

(** [perform_full_optimization(reason)] on the history list of the
    optimizer; the second component is the list afterwards. The time stamps
    and the reason text of the result dictionaries are left out. *)
Definition perform_full_optimization (history : list Optimization)
  : P (Optimization * list Optimization) :=
  let* net := apply_network_optimizations in
  let* perf := get_satisfactory_performance in
  let* proc_ok :=
    match found (snd perf) with
    | Some p => let* r := optimize_process_priority (Some p) in ret (proc_success r)
    | None => ret false
    end in
  let optimization :=
    {| network_optimization := net; process_success := proc_ok;
       overall_success := net_success net || proc_ok |} in
  let history := (history ++ [optimization])%list in
  let history :=
    if (max_history <? List.length history)%nat then tail history else history in
  emit (Stored "optimization_history") ;;
  ret (optimization, history).

(** *** manager_bot.py *)

(** [BackupManager.upload_backup(backup_file)]; [rclone_remote] is empty
    when the remote is not configured. The value is the truth value of what
    the function returns. *)
Definition upload_backup (rclone_remote rclone_path backup_file : string) : P bool :=
  match rclone_remote with
  | EmptyString => ret false
  | _ =>
      let* result :=
        safe_subprocess ["rclone"; "copy"; backup_file;
                         rclone_remote ++ ":" ++ rclone_path; "--progress"] in
      ret (succeeded result)
  end.

(** The check installed by [check_global_rate]. *)
Definition check_global_rate (user : Z) : P bool :=
  fun w =>
    let r := allow (clock env (reads w)) user (limiter w) in
    (fst r, {| limiter := snd r; reads := S (reads w); execs := execs w;
               trace := trace w |}).

(** [restart_cmd]; [permitted] is [has_permission(interaction.user)]. *)
Definition restart_cmd (user : Z) (permitted : bool) : P unit :=
  let* allowed := check_global_rate user in
  if negb allowed then emit (Answered AnswerRateLimited)
  else if negb permitted then emit (Answered AnswerNoPermission)
  else
    emit (Noted (NoteRestartInitiated user) false) ;;
    emit (Noted NotePublicRestarting false) ;;
    let* stop_result :=
      safe_subprocess ["sudo"; "systemctl"; "stop"; SATISFACTORY_SERVICE env] in
    if negb (succeeded stop_result) then emit (Answered AnswerStopFailed)
    else
      emit (Slept 10) ;;
      let* start_result :=
        safe_subprocess ["sudo"; "systemctl"; "start"; SATISFACTORY_SERVICE env] in
      if negb (succeeded start_result) then
        emit (Answered AnswerStartFailed) ;;
        emit (Noted NoteStartFailed true)
      else
        emit (Answered AnswerRestarting) ;;
        if server_ready env then
          let* _ := apply_performance_tweaks None in
          emit (Noted NotePublicRestartDone false) ;;
          emit (Noted (NoteRestartSucceeded user) false)
        else emit (Noted NoteReadinessUnconfirmed true).

End Procedures.

(** A status query of systemd: [systemctl is-active <unit>]. *)
Definition status_query (cmd : list string) : bool :=
  match cmd with
  | command :: action :: _ => String.eqb command "systemctl" && String.eqb action "is-active"
  | _ => false
  end.

(** Every command a procedure hands to [subprocess.run] satisfies [ok]. *)
Definition runs_only (ok : list string -> bool) {A} (m : P A) : Prop :=
  forall w, exists extra,
    ran (trace (snd (m w))) = (ran (trace w) ++ extra)%list /\ forallb ok extra = true.

End Bots.

(** ** watchdog_bot.py: the sampling that opens a patrol *)

Module WatchdogPatrol.

Import PyStr Common Watchdog PyText.
Local Open Scope wd_scope.

Definition with_server_was_running (v : bool) (w : ServerWatchdog) : ServerWatchdog :=
  {| down_counter := down_counter w; high_cpu_counter := high_cpu_counter w;
     high_memory_counter := high_memory_counter w; restart_count := restart_count w;
     last_restart := last_restart w; alert_cooldowns := alert_cooldowns w;
     memory_warning_threshold := memory_warning_threshold w;
     alert_cooldown_minutes := alert_cooldown_minutes w;
     server_was_running := v;
     max_restarts_per_hour := max_restarts_per_hour w;
     restart_history := restart_history w;
     lock_held := lock_held w |}.

(** What the process scan of [get_satisfactory_performance] gives: the
    sample it has filled in when it ends, and how often it read the clock
    on the way (once for an uptime, for each matching process whose start
    time is known). *)
Record Scan := {
  sample : Performance;
  uptime_readings : nat
}.

Section Sampling.

Variable cfg : Config.
Variable env : Env.

(** [n] readings of [datetime.now()] whose values go nowhere else. *)
Fixpoint read_clock (n : nat) : M unit :=
  match n with
  | O => ret tt
  | S k => let* _ := now env in read_clock k
  end.

(** [get_satisfactory_performance()] as the watchdog uses it: the status
    query, then the scan. The text of the answer goes to the ['status']
    item of the sample, which the watchdog does not read. *)
Definition get_satisfactory_performance (scan : Scan) : M Performance :=
  let* result := safe_systemctl env "is-active" (SATISFACTORY_SERVICE cfg) in
  read_clock (uptime_readings scan) ;;
  ret (sample scan).

(** [check_server_status()]. None of its steps raises, so no ['error'] item
    is set; the ['issues'] item and [performance_history], which [patrol]
    and the handlers do not read, are left out, the clock reading of the
    history entry is kept. *)
Definition check_server_status (scan : Scan) : M Status :=
  let* _ := now env in
  let* result := safe_systemctl env "is-active" (SATISFACTORY_SERVICE cfg) in
  let active :=
    match result with
    | Some r => String.eqb (strip (stdout r)) "active"
    | None => false
    end in
  let* perf := get_satisfactory_performance scan in
  let running := pid_truthy perf in
  when running (let* _ := now env in ret tt) ;;
  modify_wd (with_server_was_running running) ;;
  ret {| status_error := false; service_active := active; performance := perf |}.

(** One firing of [patrol] as a whole: it samples the status, then acts on
    it. *)
Definition patrol_task (scan : Scan) : M (list string) :=
  let* status := check_server_status scan in
  patrol cfg env status.

End Sampling.

End WatchdogPatrol.

(** ** More fixtures *)

Module MoreFixtures.

Import Common Watchdog Fixtures.

(** A stored state that has seen the server down twice and holds three
    restarts at instant 0. *)
Definition exhausted_and_down : State :=
  initial_state
    (ServerWatchdog_init default_config
       (Some {| snap_down_counter := 2; snap_high_cpu_counter := 0;
                snap_high_memory_counter := 0; snap_restart_count := 3;
                snap_last_restart := Some 0;
                snap_restart_history := [restart_at 0 1; restart_at 0 2; restart_at 0 3] |})).

(** The watchdog as a restart whose stop and start both succeeded leaves
    it. *)
Definition stuck_watchdog : State :=
  final_state (restart_server default_config env_all_ok ReasonServerOffline fresh_watchdog).

(** One CPU, every command that is run exits with 0, the process scan finds
    process 4242. *)
Definition bots_env : Bots.Env :=
  {| Bots.clock := fun n => Z.of_nat n;
     Bots.run := fun _ _ => Some (exit_code 0);
     Bots.scan_pid := fun _ => Some 4242;
     Bots.server_ready := true;
     Bots.cpu_count := 1;
     Bots.SATISFACTORY_SERVICE := SATISFACTORY_SERVICE_default |}.

(** A scan that finds the server process, idle, and read the clock once. *)
Definition scan_found : WatchdogPatrol.Scan :=
  {| WatchdogPatrol.sample :=
       {| pid := Some 4242; cpu_percent := Qmake 0 1; memory_mb := 100;
          estimated_players := 0 |};
     WatchdogPatrol.uptime_readings := 1 |}.

Definition bots_world : Bots.World :=
  {| Bots.limiter := global_rate_limiter; Bots.reads := 0; Bots.execs := 0;
     Bots.trace := [] |}.

End MoreFixtures.


(** * Properties *)

Import Common.

(** ** The command validator *)

Lemma allowed_commands_sysctl : ALLOWED_COMMANDS !! "sysctl" = Some ["-n"; "-w"].
Proof. vm_compute. reflexivity. Qed.

Lemma allowed_commands_sudo : ALLOWED_COMMANDS !! "sudo" = None.
Proof. vm_compute. reflexivity. Qed.

Lemma validate_command_sudo args : validate_command "sudo" args = false.
Proof. unfold validate_command. rewrite allowed_commands_sudo. reflexivity. Qed.

(** The two sysctl examples of the specification. *)
Lemma validate_command_sysctl_examples :
  validate_command "sysctl" ["-w"; "vm.swappiness=10"] = true
  ∧ validate_command "sysctl" ["-w"; "kernel.panic=1"] = false.
Proof. split; vm_compute; reflexivity. Qed.

(** With [-w] in front, the verdict is the membership of the key of the
    second argument, whatever follows it. *)
Lemma validate_command_sysctl_write a1 more :
  validate_command "sysctl" ("-w" :: a1 :: more)
  = str_in (PyStr.split_head "=" a1) ALLOWED_SYSCTL_PARAMS.
Proof. unfold validate_command. rewrite allowed_commands_sysctl. reflexivity. Qed.

(** C4. [validate_command] approves sysctl argument lists that name a
    parameter outside ALLOWED_SYSCTL_PARAMS: a write of kernel.panic placed
    after an allowed assignment is approved because only the second
    argument is inspected, and a list whose first argument is neither -w
    nor -n falls through to the generic argument check, which approves
    kernel.panic as a plain word. *)
Theorem validate_command_sysctl_approves_unlisted_parameter :
  str_in "kernel.panic" ALLOWED_SYSCTL_PARAMS = false
  ∧ validate_command "sysctl" ["-w"; "vm.swappiness=10"; "kernel.panic=1"] = true
  ∧ validate_command "sysctl" ["kernel.panic"; "kernel.sysrq"] = true.
Proof. repeat split; vm_compute; reflexivity. Qed.

(** ** The rate limiter *)

Section RateLimiterFacts.

Lemma drop_expired_split now per l :
  ∃ old, l = (old ++ drop_expired now per l)%list ∧ Forall (λ t, t + per < now) old.
Proof.
  induction l as [|t rest IH]; simpl.
  - exists []. split; [reflexivity | constructor].
  - destruct (now - t >? per) eqn:E.
    + destruct IH as (old & Heq & Hold).
      exists (t :: old). split.
      * simpl. congruence.
      * constructor; [lia | assumption].
    + exists []. split; [reflexivity | constructor].
Qed.

Lemma drop_expired_keeps_boundary now per t rest :
  now - t = per → drop_expired now per (t :: rest) = t :: rest.
Proof.
  intros H. simpl. destruct (now - t >? per) eqn:E; [lia | reflexivity].
Qed.

Lemma allow_per now u rl : per (snd (allow now u rl)) = per rl.
Proof. unfold allow. destruct (_ >=? _); reflexivity. Qed.

Lemma allow_max_calls now u rl : max_calls (snd (allow now u rl)) = max_calls rl.
Proof. unfold allow. destruct (_ >=? _); reflexivity. Qed.

Lemma allow_store_other now u k rl :
  u ≠ k → store (snd (allow now u rl)) !! k = store rl !! k.
Proof.
  intros Hne. unfold allow. destruct (_ >=? _); simpl; by rewrite lookup_insert_ne.
Qed.

Lemma approvals_in_window_app w p xs ys :
  approvals_in_window w p (xs ++ ys)
  = approvals_in_window w p xs + approvals_in_window w p ys.
Proof.
  unfold approvals_in_window. rewrite List.filter_app, List.length_app. lia.
Qed.

Lemma approvals_in_window_le_length w p xs :
  approvals_in_window w p xs ≤ Z.of_nat (List.length xs).
Proof.
  unfold approvals_in_window.
  pose proof (List.filter_length_le (in_window w p) xs). lia.
Qed.

Lemma approvals_in_window_none w p xs :
  Forall (λ t, t < w) xs → approvals_in_window w p xs = 0.
Proof.
  unfold approvals_in_window. induction 1 as [|t xs Ht _ IH]; simpl; [reflexivity|].
  unfold in_window at 1. destruct (w <=? t) eqn:E; [lia|]. simpl. exact IH.
Qed.

Lemma limiter_inv_step rl T k G now u :
  T ≤ now → limiter_inv rl T k G →
  limiter_inv (snd (allow now u rl)) now k
    (G ++ (if fst (allow now u rl) && (u =? k) then [now] else [])).
Proof.
  intros HT ((old & HG & Hold) & Hle & Hwin).
  assert (Hmono : Forall (λ t, t + per rl < now) old).
  { eapply Forall_impl; [exact Hold | simpl; intros; lia]. }
  assert (Hle' : Forall (λ t, t ≤ now) G).
  { eapply Forall_impl; [exact Hle | simpl; intros; lia]. }
  destruct (Z.eq_dec u k) as [->|Hne].
  - rewrite Z.eqb_refl, andb_true_r.
    destruct (drop_expired_split now (per rl) (default [] (store rl !! k)))
      as (gone & Hsplit & Hgone).
    unfold allow.
    set (kept := drop_expired now (per rl) (default [] (store rl !! k))) in *.
    unfold limiter_inv.
    destruct (Z.of_nat (List.length kept) >=? max_calls rl) eqn:Efull; simpl.
    + rewrite app_nil_r. repeat split.
      * exists (old ++ gone)%list. rewrite lookup_insert_eq. simpl. split.
        -- rewrite HG, Hsplit at 1. by rewrite app_assoc.
        -- apply Forall_app. split; assumption.
      * assumption.
      * assumption.
    + repeat split.
      * exists (old ++ gone)%list. rewrite lookup_insert_eq. simpl. split.
        -- rewrite HG, Hsplit at 1. by rewrite !app_assoc.
        -- apply Forall_app. split; assumption.
      * apply Forall_app. split; [assumption|]. constructor; [lia | constructor].
      * intros w. rewrite approvals_in_window_app.
        destruct (in_window w (per rl) now) eqn:Ein.
        -- assert (Hnew : approvals_in_window w (per rl) [now] = 1).
           { unfold approvals_in_window. simpl. by rewrite Ein. }
           rewrite Hnew, HG, Hsplit. rewrite app_assoc.
           rewrite approvals_in_window_app.
           rewrite (approvals_in_window_none w (per rl) (old ++ gone)).
           ++ pose proof (approvals_in_window_le_length w (per rl) kept). lia.
           ++ unfold in_window in Ein. apply andb_true_iff in Ein as [_ Ehi].
              apply Z.leb_le in Ehi.
              eapply Forall_impl;
                [apply Forall_app; split; [exact Hmono | exact Hgone]|].
              simpl. intros; lia.
        -- assert (Hnew : approvals_in_window w (per rl) [now] = 0).
           { unfold approvals_in_window. simpl. by rewrite Ein. }
           rewrite Hnew. specialize (Hwin w). lia.
  - assert (E : (u =? k) = false) by (apply Z.eqb_neq; assumption).
    rewrite E, andb_false_r, app_nil_r.
    unfold limiter_inv.
    rewrite allow_per, allow_max_calls, allow_store_other by assumption.
    repeat split; [exists old; split; assumption | assumption | assumption].
Qed.

Lemma approvals_window_from rl calls : ∀ T k G,
  limiter_inv rl T k G → chronological T calls →
  ∀ w, approvals_in_window w (per rl) (G ++ approvals rl calls k) ≤ max_calls rl.
Proof.
  revert rl. induction calls as [|[now u] rest IH]; intros rl T k G Hinv Hchr w.
  - simpl. rewrite app_nil_r. destruct Hinv as (_ & _ & Hwin). apply Hwin.
  - simpl in Hchr. destruct Hchr as [HT Hrest].
    simpl. rewrite app_assoc.
    pose proof (limiter_inv_step rl T k G now u HT Hinv) as Hstep.
    specialize (IH _ _ _ _ Hstep Hrest w).
    by rewrite allow_per, allow_max_calls in IH.
Qed.

Lemma sorted_chronological calls :
  Sorted Z.le (map fst calls) →
  match calls with [] => True | (t, _) :: _ => chronological t calls end.
Proof.
  induction calls as [|[t u] rest IH]; [done|].
  simpl. intros Hs. apply Sorted_inv in Hs as [Hs Hhd].
  split; [lia|]. specialize (IH Hs).
  destruct rest as [|[t' u'] rest']; [done|].
  simpl in *. apply HdRel_inv in Hhd. split; [lia|]. apply IH.
Qed.

End RateLimiterFacts.

(** C3, as the code has it. For a limit that is not negative and calls made
    at non-decreasing clock readings, the approvals [allow] grants to one
    user within any closed window of length [per] number at most
    [max_calls]; and the window is inclusive on its old side: an entry whose
    age equals [per] exactly stays in the deque (only entries strictly older
    are dropped), so it still counts against the new call. *)
Theorem allow_window_bound (max_calls_ per_seconds : Z) (calls : list timed_call)
    (user_id w : Z) :
  0 ≤ max_calls_ →
  Sorted Z.le (map fst calls) →
  approvals_in_window w (per_seconds * usec_per_second)
    (approvals (GlobalRateLimiter_init max_calls_ per_seconds) calls user_id) ≤ max_calls_
  ∧ ∀ now t rest, now - t = per_seconds * usec_per_second →
      drop_expired now (per_seconds * usec_per_second) (t :: rest) = t :: rest.
Proof.
  intros Hmax Hsorted. split; [|intros; by apply drop_expired_keeps_boundary].
  set (rl := GlobalRateLimiter_init max_calls_ per_seconds).
  destruct calls as [|[t0 u0] rest] eqn:Ecalls.
  - simpl. unfold approvals_in_window. simpl. lia.
  - rewrite <- Ecalls in *.
    pose proof (sorted_chronological calls Hsorted) as Hchr. rewrite Ecalls in Hchr.
    rewrite <- Ecalls in Hchr.
    assert (Hinv : limiter_inv rl t0 user_id []).
    { repeat split.
      - exists []. split; [|constructor]. subst rl. simpl. by rewrite lookup_empty.
      - constructor.
      - intros w'. unfold approvals_in_window. subst rl. simpl. lia. }
    exact (approvals_window_from rl calls t0 user_id [] Hinv Hchr w).
Qed.

(** Four calls by one user, the last one ten seconds after the first three:
    the window bound of the default limiter at that instance. *)
Lemma allow_window_bound_witness :
  approvals_in_window 0 (10 * usec_per_second)
    (approvals (GlobalRateLimiter_init 3 10)
       [(0, 7); (1000000, 7); (2000000, 7); (10000000, 7)] 7) ≤ 3.
Proof.
  refine (proj1 (allow_window_bound 3 10
                   [(0, 7); (1000000, 7); (2000000, 7); (10000000, 7)] 7 0 _ _)).
  - lia.
  - simpl. repeat constructor; lia.
Defined.

(** C3 as stated fails at the boundary: with the default limiter (3 calls
    per 10 s), three calls at instant 0 are approved and a fourth call made
    exactly 10 s later, when each of them is exactly one window old, is
    refused. *)
Lemma allow_boundary_call_still_counts :
  let rl0 := global_rate_limiter in
  let rl1 := snd (allow 0 7 rl0) in
  let rl2 := snd (allow 0 7 rl1) in
  let rl3 := snd (allow 0 7 rl2) in
  fst (allow 0 7 rl0) = true ∧ fst (allow 0 7 rl1) = true ∧ fst (allow 0 7 rl2) = true
  ∧ 10000000 - 0 = per rl3
  ∧ fst (allow 10000000 7 rl3) = false.
Proof. vm_compute. repeat split; reflexivity. Qed.

(** ** The persistent store *)

Section PersistentStateFacts.

Context {V : Type}.
Implicit Types (ps : PersistentState V) (fs : FileSystem V) (io : SaveFaults).

(** [save] never looks at the key. *)
Lemma save_ignores_key io ps fs k :
  save io {| data := data ps; _encryption_key := k |} fs = save io ps fs.
Proof. reflexivity. Qed.

Lemma save_returns_none io ps fs : fst (fst (save io ps fs)) = ReturnsNone.
Proof.
  unfold save.
  destruct (state_file fs), (rename_raises io), (write_result io), (chmod_raises io),
    (backup_file fs), (unlink_raises io); reflexivity.
Qed.

(** After a completed write the primary file is the plain pickle of the
    mapping. *)
Lemma save_written io ps fs :
  write_succeeds io fs →
  state_file (snd (fst (save io ps fs))) = Some (PickledDict (data ps)).
Proof.
  intros [Hren Hw]. unfold save. rewrite Hw.
  destruct (state_file fs) eqn:Es.
  - destruct Hren as [Hren|Hren]; [discriminate|]. rewrite Hren. simpl.
    destruct (chmod_raises io); [reflexivity|].
    destruct (unlink_raises io); reflexivity.
  - simpl. destruct (chmod_raises io); [reflexivity|].
    destruct (backup_file fs); [destruct (unlink_raises io)|]; reflexivity.
Qed.

Lemma load_pickled_dict fs m :
  state_file fs = Some (PickledDict m) → _load false fs = (m, []).
Proof. intros H. unfold _load. rewrite H. reflexivity. Qed.

Lemma init_data crypto fresh lr kr kw fs :
  data (fst (fst (PersistentState_init crypto fresh lr kr kw fs)))
  = fst (_load lr fs).
Proof.
  unfold PersistentState_init. destruct (_load lr fs) as [d lg].
  destruct (_get_or_create_key crypto fresh kr kw fs) as [k fs']. reflexivity.
Qed.

Lemma set_data io key value ps fs :
  data (snd (fst (fst (set io key value ps fs)))) = <[key := value]> (data ps).
Proof.
  unfold set. destruct (save io _ fs) as [[r fs'] lg]. reflexivity.
Qed.

Lemma set_file_system io key value ps fs :
  snd (fst (set io key value ps fs))
  = snd (fst (save io {| data := <[key := value]> (data ps);
                         _encryption_key := _encryption_key ps |} fs)).
Proof.
  unfold set. destruct (save io _ fs) as [[r fs'] lg]. reflexivity.
Qed.

Lemma set_result io key value ps fs :
  fst (fst (fst (set io key value ps fs)))
  = fst (fst (save io {| data := <[key := value]> (data ps);
                         _encryption_key := _encryption_key ps |} fs)).
Proof.
  unfold set. destruct (save io _ fs) as [[r fs'] lg]. reflexivity.
Qed.

Lemma set_log io key value ps fs :
  snd (set io key value ps fs)
  = snd (save io {| data := <[key := value]> (data ps);
                    _encryption_key := _encryption_key ps |} fs).
Proof.
  unfold set. destruct (save io _ fs) as [[r fs'] lg]. reflexivity.
Qed.

(** A [_get_or_create_key] leaves the state file alone. *)
Lemma get_or_create_key_state_file crypto fresh kr kw fs :
  state_file (snd (_get_or_create_key crypto fresh kr kw fs)) = state_file fs.
Proof.
  unfold _get_or_create_key.
  destruct crypto, (key_file fs), kr, kw; reflexivity.
Qed.

End PersistentStateFacts.

(** C5. Round trip of the store: after [set(k, v)] whose write completes, a
    fresh [PersistentState] built over the resulting files (its load reads
    the file without an I/O error) returns [v] for [k], and for every other
    key what the writing process held in memory. *)
Theorem set_then_restart_round_trip {V : Type}
    (io : SaveFaults) (key : string) (value : V)
    (ps : PersistentState V) (fs : FileSystem V)
    (crypto : bool) (fresh : string) (key_read_raises key_write_raises : bool) :
  write_succeeds io fs →
  let after := set io key value ps fs in
  let reborn :=
    fst (fst (PersistentState_init crypto fresh false key_read_raises key_write_raises
                (snd (fst after)))) in
  (∀ d, get reborn key d = value)
  ∧ (∀ k d, k ≠ key → get reborn k d = get ps k d)
  ∧ data reborn = data (snd (fst (fst after))).
Proof.
  intros Hw after reborn.
  assert (Hdata : data reborn = <[key := value]> (data ps)).
  { subst reborn after. rewrite init_data, set_file_system.
    erewrite load_pickled_dict; [reflexivity|].
    rewrite save_written by exact Hw. reflexivity. }
  repeat split.
  - intros d. unfold get. rewrite Hdata, lookup_insert_eq. reflexivity.
  - intros k d Hne. unfold get. rewrite Hdata, lookup_insert_ne by congruence.
    reflexivity.
  - subst after. rewrite set_data. exact Hdata.
Qed.


(** C7, as the code has it. [set] returns [None] whatever happens inside
    [save]; when the write step is reached and fails, the only trace of the
    failure is one error record in the log. *)
Theorem set_reports_failure_only_in_log {V : Type}
    (io : SaveFaults) (key : string) (value : V)
    (ps : PersistentState V) (fs : FileSystem V) :
  fst (fst (fst (set io key value ps fs))) = ReturnsNone
  ∧ ((state_file fs = None ∨ rename_raises io = false) →
     write_result io ≠ WriteOk →
     snd (set io key value ps fs) = [LogSaveError]).
Proof.
  split.
  - rewrite set_result. apply save_returns_none.
  - intros Hren Hw. rewrite set_log. unfold save.
    destruct (state_file fs) eqn:Es.
    + destruct Hren as [Hren|Hren]; [discriminate|]. rewrite Hren.
      destruct (write_result io); [congruence | reflexivity | reflexivity].
    + destruct (write_result io); [congruence | reflexivity | reflexivity].
Qed.

(** C8, as the code has it. Whatever the key held by the store, a completed
    write leaves the plain pickle of the mapping in the store file, and
    [save] as a whole does not depend on the key. *)
Theorem save_writes_plain_pickle {V : Type}
    (io : SaveFaults) (ps : PersistentState V) (fs : FileSystem V) :
  (write_succeeds io fs →
   state_file (snd (fst (save io ps fs))) = Some (PickledDict (data ps)))
  ∧ ∀ k, save io {| data := data ps; _encryption_key := k |} fs = save io ps fs.
Proof.
  split; [apply save_written | intros k; apply save_ignores_key].
Qed.

Import Watchdog Fixtures.
Local Open Scope wd_scope.

Lemma set_then_restart_round_trip_witness :
  get (fst (fst (PersistentState_init true "KEY" false false false
                   (snd (fst (set no_faults "k" 1 old_ps old_fs))))))
      "k" 0 = 1.
Proof.
  refine (proj1 (set_then_restart_round_trip no_faults "k" 1 old_ps old_fs
                   true "KEY" false false _) 0).
  split; [right; reflexivity | reflexivity].
Defined.



Lemma set_reports_failure_only_in_log_witness :
  snd (set dump_fails "k" 1 old_ps old_fs) = [LogSaveError].
Proof.
  refine (proj2 (set_reports_failure_only_in_log dump_fails "k" 1 old_ps old_fs) _ _).
  - right; reflexivity.
  - discriminate.
Defined.

(** C7 as stated fails: a [set] whose dump raises gives its caller the same
    result as a [set] that wrote the file, although the store file is left
    unreadable. *)
Lemma set_write_failure_returns_as_success :
  fst (fst (fst (set dump_fails "k" 1 old_ps old_fs)))
  = fst (fst (fst (set no_faults "k" 1 old_ps old_fs)))
  ∧ state_file (snd (fst (set dump_fails "k" 1 old_ps old_fs))) = Some Unreadable
  ∧ state_file (snd (fst (set no_faults "k" 1 old_ps old_fs)))
    = Some (PickledDict (<[ "k" := 1 ]> {[ "old" := 5 ]})).
Proof. repeat split. Qed.

Lemma save_writes_plain_pickle_witness :
  state_file (snd (fst (save no_faults old_ps old_fs)))
  = Some (PickledDict {[ "old" := 5 ]}).
Proof.
  refine (proj1 (save_writes_plain_pickle no_faults old_ps old_fs) _).
  split; [right; reflexivity | reflexivity].
Defined.

(** C8 as stated fails: with the cryptographic capability available, the
    key generated and stored next to the data file, a [set] that completes
    leaves the plain pickle of the mapping in the store file, not a token
    made with the key. *)
Lemma save_with_key_writes_plaintext :
  let init := PersistentState_init true "KEY" false false false empty_fs in
  let ps := fst (fst init) in
  let fs := snd (fst init) in
  let written := state_file (snd (fst (set no_faults "k" 1 ps fs))) in
  _encryption_key ps = Some "KEY"
  ∧ key_file fs = Some "KEY"
  ∧ written = Some (PickledDict {[ "k" := 1 ]})
  ∧ ∀ key m, written ≠ Some (FernetToken key m).
Proof.
  repeat split. intros key m H. discriminate H.
Qed.

(** ** The watchdog *)

Section WatchdogFacts.

Variable cfg : Config.
Variable env : Env.

Lemma restart_calls_app xs ys :
  restart_calls (xs ++ ys) = (restart_calls xs + restart_calls ys)%nat.
Proof. unfold restart_calls. by rewrite List.filter_app, List.length_app. Qed.

Lemma executed_app xs ys : executed (xs ++ ys) = (executed xs ++ executed ys)%list.
Proof. unfold executed. apply omap_app. Qed.

Lemma unlock_lock w :
  lock_held w = false → with_lock_held false (with_lock_held true w) = w.
Proof. destruct w; simpl; intros ->; reflexivity. Qed.

Lemma gate_sudo args : safe_subprocess_gate ("sudo" :: args) = None.
Proof. unfold safe_subprocess_gate. by rewrite validate_command_sudo. Qed.

(** The forced stop is refused before anything is run. *)
Lemma force_stop_refused s :
  safe_subprocess env ["sudo"; "pkill"; "-f"; "FactoryServer"] s
  = Ret None {| wd := wd s; limiter := limiter s; reads := reads s; execs := execs s;
                trace := (trace s ++ [EvRejected ["sudo"; "pkill"; "-f"; "FactoryServer"]])%list |}.
Proof. unfold safe_subprocess. rewrite gate_sudo. reflexivity. Qed.

(** [save_state] on a free lock: one write to the store, nothing else. *)
Lemma save_state_free s :
  lock_held (wd s) = false →
  save_state s
  = Ret tt {| wd := wd s; limiter := limiter s; reads := reads s; execs := execs s;
              trace := (trace s ++ [EvPersist (snapshot_of (wd s))])%list |}.
Proof.
  intros Hfree. unfold save_state, with_lock, acquire, release, bind, modify_wd,
    get_wd, emit, ret, set_wd. rewrite Hfree. simpl.
  rewrite unlock_lock by exact Hfree.
  destruct s as [w l r e t]; destruct w; reflexivity.
Qed.

Lemma save_state_taken s : lock_held (wd s) = true → save_state s = Hang s.
Proof.
  intros Htaken. unfold save_state, with_lock, acquire, bind. by rewrite Htaken.
Qed.

Ltac count_calls :=
  simpl; unfold restart_calls in *; simpl; rewrite ?List.filter_app, ?List.length_app; simpl; lia.

Ltac run_monad :=
  unfold start_and_record, safe_systemctl, log_admin, sleep, release, now,
    bind, modify_wd, get_wd, emit, ret, when, set_wd in *; simpl in *.

(** Once the lock is held, [start_and_record] either gives up at the start
    command, leaving the watchdog object as it was, or blocks in
    [save_state]. *)
Lemma start_and_record_outcome r s :
  lock_held (wd s) = true →
  match start_and_record cfg env r s with
  | Ret b s' =>
      b = false ∧ wd s' = with_lock_held false (wd s) ∧ limiter s' = limiter s
      ∧ reads s' = reads s ∧ restart_calls (trace s') = restart_calls (trace s)
  | Hang s' =>
      limiter s' = limiter s ∧ reads s' = S (reads s)
      ∧ restart_calls (trace s') = restart_calls (trace s)
  end.
Proof.
  intros Hheld. unfold start_and_record, safe_systemctl, safe_subprocess.
  destruct (safe_subprocess_gate _) as [c|]; run_monad.
  - destruct (failed (run env (execs s) c)); simpl.
    + repeat split; count_calls.
    + rewrite save_state_taken by (simpl; exact Hheld). simpl.
      repeat split; count_calls.
  - repeat split; count_calls.
Qed.

Lemma restart_server_outcome r s :
  match restart_server cfg env r s with
  | Ret b s' =>
      b = false ∧ lock_held (wd s) = false ∧ wd s' = wd s ∧ limiter s' = limiter s
      ∧ reads s' = reads s
      ∧ restart_calls (trace s') = S (restart_calls (trace s))
  | Hang s' =>
      limiter s' = limiter s ∧ (reads s ≤ reads s' ≤ S (reads s))%nat
      ∧ restart_calls (trace s') = S (restart_calls (trace s))
  end.
Proof.
  unfold restart_server, acquire, safe_systemctl.
  unfold bind at 1. unfold emit at 1. unfold bind at 1.
  cbn [wd]. destruct (lock_held (wd s)) eqn:Hlock.
  - simpl. repeat split; try count_calls.
  - assert (Hsar : ∀ s1 : State,
               lock_held (wd s1) = true →
               with_lock_held false (wd s1) = wd s →
               limiter s1 = limiter s → reads s1 = reads s →
               restart_calls (trace s1) = S (restart_calls (trace s)) →
               match start_and_record cfg env r s1 with
               | Ret b s' =>
                   b = false ∧ false = false ∧ wd s' = wd s ∧ limiter s' = limiter s
                   ∧ reads s' = reads s
                   ∧ restart_calls (trace s') = S (restart_calls (trace s))
               | Hang s' =>
                   limiter s' = limiter s ∧ (reads s ≤ reads s' ≤ S (reads s))%nat
                   ∧ restart_calls (trace s') = S (restart_calls (trace s))
               end).
    { intros s1 Hheld Hwd Hlim Hreads Hcalls.
      pose proof (start_and_record_outcome r s1 Hheld) as H.
      destruct (start_and_record cfg env r s1) as [b s'|s'].
      - destruct H as (Ha & Hb & Hc & Hd & He). repeat split; congruence.
      - destruct H as (Ha & Hb & Hc). repeat split; try congruence; lia. }
    assert (Hunlock : with_lock_held false (with_lock_held true (wd s)) = wd s)
      by (apply unlock_lock; exact Hlock).
    unfold safe_subprocess at 1.
    destruct (safe_subprocess_gate ["systemctl"; "stop"; SATISFACTORY_SERVICE cfg])
      as [c|].
    + unfold log_admin, release, bind, modify_wd, emit, ret, set_wd. cbn -[start_and_record safe_subprocess].
      destruct (failed (run env (execs s) c)).
      * rewrite force_stop_refused. cbn -[start_and_record].
        repeat split; try assumption; try reflexivity; count_calls.
      * apply Hsar; try reflexivity; try assumption. count_calls.
    + unfold log_admin, release, bind, modify_wd, emit, ret, set_wd. cbn -[start_and_record safe_subprocess].
      rewrite force_stop_refused. cbn -[start_and_record].
      repeat split; try assumption; try reflexivity; count_calls.
Qed.

(** The path of [restart_server] past the start command never returns: it
    awaits [save_state] while it holds the lock [save_state] asks for. *)
Lemma restart_server_never_returns_true r s s' :
  restart_server cfg env r s ≠ Ret true s'.
Proof.
  intros Hret. pose proof (restart_server_outcome r s) as Hout.
  rewrite Hret in Hout. destruct Hout as [Hb _]. discriminate Hb.
Qed.

Lemma executed_snoc_other tr e :
  match e with EvExec _ => False | _ => True end →
  executed (tr ++ [e]) = executed tr.
Proof.
  intros He. rewrite executed_app. destruct e; try contradiction; simpl;
    by rewrite app_nil_r.
Qed.

Lemma handle_high_cpu_deferral cpu players s :
  lock_held (wd s) = false →
  Qle_bool (Qmake 95 1) cpu = true →
  CONTINUOUS_HIGH_CPU cfg ≤ high_cpu_counter (wd s) + 1 →
  0 < players →
  ∃ s', handle_high_cpu cfg env cpu players s = Ret ["cpu_restart_delayed_players"] s'
        ∧ high_cpu_counter (wd s') = Z.max (CONTINUOUS_HIGH_CPU cfg - 2) 0
        ∧ restart_calls (trace s') = restart_calls (trace s)
        ∧ executed (trace s') = executed (trace s).
Proof.
  intros Hfree Hcpu Htrip Hplayers.
  assert (Hge : (high_cpu_counter (wd s) + 1 >=? CONTINUOUS_HIGH_CPU cfg) = true)
    by (apply Z.geb_le; lia).
  assert (Hpl : (players >? 0) = true) by (apply Z.gtb_lt; lia).
  unfold handle_high_cpu. rewrite Hcpu.
  unfold bind at 1. unfold modify_wd at 1. unfold bind at 1.
  rewrite save_state_free by (simpl; exact Hfree).
  unfold should_send_alert, bind, get_wd, when, log_admin, set_alert_cooldown,
    now, modify_wd, emit, ret, set_wd.
  cbn -[save_state restart_server Z.max].
  destruct (alert_cooldowns (wd s) !! "high_cpu") as [last|];
    cbn -[save_state restart_server Z.max].
  1: destruct (clock env (reads s) >? _); cbn -[save_state restart_server Z.max].
  all: rewrite Hge, Hpl.
  all: rewrite save_state_free by (simpl; exact Hfree).
  all: eexists; (split; [reflexivity|]); cbn -[Z.max].
  all: (split; [reflexivity|]); (split; [count_calls|]).
  all: rewrite ?executed_snoc_other by exact I; reflexivity.
Qed.

(** *** Runs that ask the budget before they restart *)

Lemma within_budget_iff t w : can_restart_at t w = true ↔ within_budget t w.
Proof. unfold can_restart_at, within_budget. apply Z.ltb_lt. Qed.

Lemma within_budget_same t w w' :
  restart_history w' = restart_history w →
  max_restarts_per_hour w' = max_restarts_per_hour w →
  within_budget t w' → within_budget t w.
Proof. unfold within_budget. intros -> ->. auto. Qed.

Lemma br_quiet {A} s (o : outcome A) :
  (reads s ≤ reads (final_state o))%nat →
  restart_calls (trace (final_state o)) = restart_calls (trace s) →
  restart_history (wd (final_state o)) = restart_history (wd s) →
  max_restarts_per_hour (wd (final_state o)) = max_restarts_per_hour (wd s) →
  budget_respected env s o.
Proof.
  intros Hr Hc Hh Hm. unfold budget_respected. cbv zeta.
  repeat split; try assumption; try lia.
Qed.

Lemma br_bind {A B} (m : M A) (f : A → M B) s :
  budget_respected env s (m s) →
  (∀ a s1, m s = Ret a s1 → budget_respected env s1 (f a s1)) →
  budget_respected env s (bind m f s).
Proof.
  intros Hm Hf. unfold bind. destruct (m s) as [a s1|s1] eqn:Em; [|exact Hm].
  specialize (Hf a s1 eq_refl).
  destruct Hm as (Hr1 & Hc1 & Hret1 & Hb1). simpl in *.
  destruct (Hret1 I) as [Hh1 Hm1].
  destruct Hf as (Hr2 & Hc2 & Hret2 & Hb2).
  unfold budget_respected. cbv zeta. repeat split.
  - lia.
  - lia.
  - destruct (Hret2 H) as [Hh2 _]. congruence.
  - destruct (Hret2 H) as [_ Hm2]. congruence.
  - intros Hlt.
    destruct (Nat.eq_dec (restart_calls (trace s)) (restart_calls (trace s1))) as [E|E].
    + destruct Hb2 as (n & Hn & Hbud); [lia|].
      exists n. split; [lia|]. eapply within_budget_same; eassumption.
    + destruct Hb1 as (n & Hn & Hbud); [lia|].
      exists n. split; [lia | exact Hbud].
Qed.

Lemma br_ret {A} (a : A) s : budget_respected env s (ret a s).
Proof. apply br_quiet; reflexivity. Qed.

Lemma br_get_wd s : budget_respected env s (get_wd s).
Proof. apply br_quiet; reflexivity. Qed.

Lemma br_modify_wd f s :
  (∀ w, restart_history (f w) = restart_history w
        ∧ max_restarts_per_hour (f w) = max_restarts_per_hour w) →
  budget_respected env s (modify_wd f s).
Proof. intros Hf. apply br_quiet; simpl; try reflexivity; apply Hf. Qed.

Lemma br_emit e s : is_restart_call e = false → budget_respected env s (emit e s).
Proof.
  intros He. apply br_quiet; simpl; try reflexivity.
  rewrite restart_calls_app. unfold restart_calls at 2. simpl. rewrite He. simpl. lia.
Qed.

Lemma br_log_admin a p s : budget_respected env s (log_admin a p s).
Proof. apply br_emit. reflexivity. Qed.

Lemma br_save_state s : budget_respected env s (save_state s).
Proof.
  destruct (lock_held (wd s)) eqn:Hl.
  - rewrite save_state_taken by exact Hl. apply br_quiet; reflexivity.
  - rewrite save_state_free by exact Hl. apply br_quiet; simpl; try reflexivity.
    rewrite restart_calls_app. unfold restart_calls at 2. simpl. lia.
Qed.

Lemma br_should_send_alert ty s : budget_respected env s (should_send_alert env ty s).
Proof.
  unfold should_send_alert, bind, get_wd.
  destruct (alert_cooldowns (wd s) !! ty); apply br_quiet; simpl; try reflexivity; lia.
Qed.

Lemma br_set_alert_cooldown ty s : budget_respected env s (set_alert_cooldown env ty s).
Proof. apply br_quiet; simpl; try reflexivity; lia. Qed.

Lemma br_when b m s :
  (∀ s1, budget_respected env s1 (m s1)) → budget_respected env s (when b m s).
Proof. intros Hm. destruct b; [apply Hm | apply br_ret]. Qed.

(** The guarded call shared by the three handlers. *)
Lemma br_checked_restart {A} r (f : bool → M A) (refused : M A) s :
  (∀ s1, budget_respected env s1 (f false s1)) →
  (∀ s1, budget_respected env s1 (refused s1)) →
  budget_respected env s
    ((let* ok := can_restart env in
      if ok then bind (restart_server cfg env r) f else refused) s).
Proof.
  intros Hf Hrefused.
  unfold can_restart, bind at 1 2 3, now, get_wd, ret. cbn [wd reads].
  destruct (can_restart_at (clock env (reads s)) (wd s)) eqn:Hcan.
  - apply within_budget_iff in Hcan.
    set (s1 := {| wd := wd s; limiter := limiter s; reads := S (reads s);
                  execs := execs s; trace := trace s |}).
    pose proof (restart_server_outcome r s1) as Hout.
    unfold bind. destruct (restart_server cfg env r s1) as [b s2|s2].
    + destruct Hout as (-> & _ & Hwd & _ & Hreads & Hcalls).
      destruct (Hf s2) as (Hr & Hc & Hret & _).
      subst s1. simpl in *.
      unfold budget_respected. cbv zeta. repeat split.
      * lia.
      * lia.
      * destruct (Hret H) as [Hh _]. congruence.
      * destruct (Hret H) as [_ Hm]. congruence.
      * intros _. exists (reads s). split; [lia | exact Hcan].
    + destruct Hout as (_ & Hreads & Hcalls). subst s1. simpl in *.
      unfold budget_respected. cbv zeta. simpl. repeat split.
      * lia.
      * lia.
      * contradiction.
      * contradiction.
      * intros _. exists (reads s). split; [lia | exact Hcan].
  - set (s1 := {| wd := wd s; limiter := limiter s; reads := S (reads s);
                  execs := execs s; trace := trace s |}).
    destruct (Hrefused s1) as (Hr & Hc & Hret & Hb). subst s1. simpl in *.
    unfold budget_respected. cbv zeta. repeat split.
    + lia.
    + lia.
    + destruct (Hret H) as [Hh _]. congruence.
    + destruct (Hret H) as [_ Hm]. congruence.
    + intros Hlt. destruct (Hb Hlt) as (n & Hn & Hbud).
      exists n. split; [lia | exact Hbud].
Qed.

Ltac br_step :=
  first
    [ apply br_ret | apply br_get_wd | apply br_save_state | apply br_log_admin
    | apply br_should_send_alert | apply br_set_alert_cooldown
    | apply br_modify_wd; intros ?; split; reflexivity
    | apply br_when; intros ?
    | apply br_checked_restart; intros ?
    | apply br_bind; [|intros ? ? _] ].

Ltac br_auto :=
  repeat first
    [ br_step
    | match goal with
      | |- budget_respected _ _ ((if ?b then _ else _) _) => destruct b
      end ].

Lemma handle_server_down_respects_budget s :
  budget_respected env s (handle_server_down cfg env s).
Proof. unfold handle_server_down. br_auto. Qed.

Lemma handle_high_memory_respects_budget memory_mb s :
  budget_respected env s (handle_high_memory cfg env memory_mb s).
Proof. unfold handle_high_memory. br_auto. Qed.

Lemma handle_high_cpu_respects_budget cpu players s :
  budget_respected env s (handle_high_cpu cfg env cpu players s).
Proof. unfold handle_high_cpu. br_auto. Qed.

Lemma patrol_respects_budget status s :
  budget_respected env s (patrol cfg env status s).
Proof.
  unfold patrol.
  destruct (status_error status); [apply br_ret|].
  destruct (_ || _); [apply handle_server_down_respects_budget|].
  apply br_bind; [apply br_get_wd | intros w s1 _].
  apply br_bind; [br_auto | intros [] s2 _].
  destruct (pid_truthy _); [|apply br_ret].
  apply br_bind; [apply handle_high_memory_respects_budget | intros ma s3 _].
  apply br_bind; [apply handle_high_cpu_respects_budget | intros ca s4 _].
  apply br_ret.
Qed.

(** *** A stop that fails *)

Lemma restart_server_stop_failure r s :
  lock_held (wd s) = false →
  stop_fails_at cfg env (execs s) →
  ∃ s', restart_server cfg env r s = Ret false s'
        ∧ wd s' = wd s ∧ limiter s' = limiter s ∧ reads s' = reads s
        ∧ (execs s ≤ execs s' ≤ S (execs s))%nat
        ∧ trace s'
          = (trace s ++ [EvRestartServer r; EvAlert (AlertRestartTriggered r) false;
                         stop_event cfg; EvAlert AlertStopFailed false;
                         EvRejected ["sudo"; "pkill"; "-f"; "FactoryServer"];
                         EvAlert AlertForceStopFailed true])%list.
Proof.
  intros Hfree Hstop.
  assert (Hunlock : with_lock_held false (with_lock_held true (wd s)) = wd s)
    by (apply unlock_lock; exact Hfree).
  unfold restart_server, acquire, safe_systemctl, stop_event.
  unfold bind at 1. unfold emit at 1. unfold bind at 1. cbn [wd]. rewrite Hfree.
  unfold safe_subprocess at 1. unfold stop_fails_at in Hstop.
  destruct (safe_subprocess_gate ["systemctl"; "stop"; SATISFACTORY_SERVICE cfg])
    as [c|].
  - unfold log_admin, release, bind, modify_wd, emit, ret, set_wd.
    cbn -[start_and_record safe_subprocess].
    rewrite (Hstop c eq_refl). rewrite force_stop_refused.
    cbn -[start_and_record]. eexists. split; [reflexivity|]. simpl.
    repeat split; try assumption; try lia.
    by rewrite <- !app_assoc.
  - unfold log_admin, release, bind, modify_wd, emit, ret, set_wd.
    cbn -[start_and_record safe_subprocess].
    rewrite force_stop_refused.
    cbn -[start_and_record]. eexists. split; [reflexivity|]. simpl.
    repeat split; try assumption; try lia.
    by rewrite <- !app_assoc.
Qed.

Lemma can_restart_at_same t w w' :
  restart_history w' = restart_history w →
  max_restarts_per_hour w' = max_restarts_per_hour w →
  can_restart_at t w' = can_restart_at t w.
Proof. unfold can_restart_at. intros -> ->. reflexivity. Qed.

(** One cycle that finds the server down, trips, is allowed a restart and
    sees the stop fail: the restart was called, and nothing that
    [can_restart] reads has changed. *)
Lemma handle_server_down_failed_restart s :
  (∀ i c, failed (run env i c) = true) →
  lock_held (wd s) = false →
  SERVER_DOWN_THRESHOLD cfg ≤ down_counter (wd s) + 1 →
  (∀ t, within_budget t (wd s)) →
  ∃ s', handle_server_down cfg env s = Ret ["restart_failed"] s'
        ∧ lock_held (wd s') = false
        ∧ down_counter (wd s') = down_counter (wd s) + 1
        ∧ restart_history (wd s') = restart_history (wd s)
        ∧ max_restarts_per_hour (wd s') = max_restarts_per_hour (wd s)
        ∧ restart_count (wd s') = restart_count (wd s)
        ∧ last_restart (wd s') = last_restart (wd s)
        ∧ restart_calls (trace s') = S (restart_calls (trace s)).
Proof.
  intros Hrun Hfree Htrip Hbudget.
  assert (Hge : (down_counter (wd s) + 1 >=? SERVER_DOWN_THRESHOLD cfg) = true)
    by (apply Z.geb_le; lia).
  assert (Hcan : ∀ t w, restart_history w = restart_history (wd s) →
                        max_restarts_per_hour w = max_restarts_per_hour (wd s) →
                        can_restart_at t w = true).
  { intros t w Hh Hm. rewrite (can_restart_at_same t (wd s) w Hh Hm).
    apply within_budget_iff, Hbudget. }
  assert (Hrs : ∀ s1, lock_held (wd s1) = false →
            ∃ s', restart_server cfg env ReasonServerOffline s1 = Ret false s'
                  ∧ wd s' = wd s1
                  ∧ restart_calls (trace s') = S (restart_calls (trace s1))).
  { intros s1 Hf1.
    destruct (restart_server_stop_failure ReasonServerOffline s1 Hf1)
      as (s' & Hr & Hwd & _ & _ & _ & Htr).
    - intros c _. apply Hrun.
    - exists s'. repeat split; try assumption. rewrite Htr.
      rewrite restart_calls_app. unfold restart_calls at 2. simpl.
      destruct (stop_event cfg) eqn:Ese; simpl; try lia.
      unfold stop_event in Ese. destruct (safe_subprocess_gate _); discriminate. }
  unfold handle_server_down.
  unfold bind at 1. unfold modify_wd at 1. unfold bind at 1.
  rewrite save_state_free by (simpl; exact Hfree).
  unfold should_send_alert, can_restart, bind, get_wd, when, log_admin,
    set_alert_cooldown, now, modify_wd, emit, ret, set_wd.
  cbn -[save_state restart_server can_restart_at].
  destruct (alert_cooldowns (wd s) !! "server_down") as [last|];
    cbn -[save_state restart_server can_restart_at].
  1: destruct (clock env (reads s) >? _);
    cbn -[save_state restart_server can_restart_at].
  all: rewrite ?Hge; cbn -[save_state restart_server can_restart_at].
  all: rewrite Hcan by reflexivity.
  all: match goal with
       | |- context [restart_server cfg env ReasonServerOffline ?s1] =>
           destruct (Hrs s1 Hfree) as (s' & -> & Hwd & Hcalls)
       end.
  all: exists s'; rewrite Hwd; simpl; repeat split; try assumption; try reflexivity.
  all: rewrite Hcalls; count_calls.
Qed.

Lemma down_cycles_retry_every_cycle n : ∀ s,
  (∀ i c, failed (run env i c) = true) →
  lock_held (wd s) = false →
  SERVER_DOWN_THRESHOLD cfg ≤ down_counter (wd s) + 1 →
  (∀ t, within_budget t (wd s)) →
  ∃ s', down_cycles cfg env n s = Ret tt s'
        ∧ restart_calls (trace s') = (restart_calls (trace s) + n)%nat
        ∧ restart_history (wd s') = restart_history (wd s)
        ∧ restart_count (wd s') = restart_count (wd s).
Proof.
  induction n as [|n IH]; intros s Hrun Hfree Htrip Hbudget.
  - exists s. simpl. repeat split; lia.
  - destruct (handle_server_down_failed_restart s Hrun Hfree Htrip Hbudget)
      as (s1 & Hcycle & Hfree1 & Hdown1 & Hh1 & Hm1 & Hc1 & _ & Hcalls1).
    destruct (IH s1 Hrun Hfree1) as (s' & Hrest & Hcalls & Hh & Hc).
    + lia.
    + intros t. unfold within_budget. rewrite Hh1, Hm1. apply Hbudget.
    + exists s'. simpl. unfold bind. rewrite Hcycle. repeat split.
      * exact Hrest.
      * lia.
      * congruence.
      * congruence.
Qed.

End WatchdogFacts.
(** C1. With a graceful stop that fails and a pkill that would exit with 0,
    [restart_server] gives up without reaching the start step: the forced
    termination is sent through [safe_subprocess] as a sudo command, sudo
    is not in ALLOWED_COMMANDS, so the command is refused and never run,
    and the procedure returns [False] after the stop alone. *)
Theorem restart_server_forced_stop_is_never_run :
  let o := restart_server default_config env_stop_fails ReasonServerOffline
             fresh_watchdog in
  (∀ n, run env_stop_fails n ["sudo"; "pkill"; "-f"; "FactoryServer"]
        = Some (exit_code 0))
  ∧ (∀ n, run env_stop_fails n ["pkill"; "-f"; "FactoryServer"] = Some (exit_code 0))
  ∧ (∃ s', o = Ret false s')
  ∧ trace (final_state o)
    = [ EvRestartServer ReasonServerOffline;
        EvAlert (AlertRestartTriggered ReasonServerOffline) false;
        EvExec ["systemctl"; "stop"; "satisfactory.service"];
        EvAlert AlertStopFailed false;
        EvRejected ["sudo"; "pkill"; "-f"; "FactoryServer"];
        EvAlert AlertForceStopFailed true ]
  ∧ executed (trace (final_state o)) = [["systemctl"; "stop"; "satisfactory.service"]].
Proof.
  cbv zeta. split; [reflexivity|]. split; [reflexivity|].
  split; [eexists; vm_compute; reflexivity|].
  split; vm_compute; reflexivity.
Qed.

Lemma budget_respected_restarts env s {A} (o : outcome A) :
  budget_respected env s o → restarts_only_within_budget env s o.
Proof. intros (_ & _ & _ & H). exact H. Qed.

(** C2, as the code has it. In a patrol cycle, and in each of the three
    threshold handlers, [restart_server] is called only after a reading of
    the clock in that run at which strictly fewer than
    [max_restarts_per_hour] entries of the history carried a time stamp
    within the trailing hour. *)
Theorem threshold_restarts_stay_within_budget (cfg : Config) (env : Env) (s : State) :
  restarts_only_within_budget env s (handle_server_down cfg env s)
  ∧ (∀ mb, restarts_only_within_budget env s (handle_high_memory cfg env mb s))
  ∧ (∀ cpu players,
       restarts_only_within_budget env s (handle_high_cpu cfg env cpu players s))
  ∧ (∀ status, restarts_only_within_budget env s (patrol cfg env status s)).
Proof.
  split; [|split; [|split]].
  - apply budget_respected_restarts, handle_server_down_respects_budget.
  - intros mb. apply budget_respected_restarts, handle_high_memory_respects_budget.
  - intros cpu players.
    apply budget_respected_restarts, handle_high_cpu_respects_budget.
  - intros status. apply budget_respected_restarts, patrol_respects_budget.
Qed.

Lemma threshold_restarts_stay_within_budget_witness :
  ∃ n, (reads down_once ≤ n
        < reads (final_state (handle_server_down default_config env_nothing_works
                                down_once)))%nat
       ∧ Z.of_nat (List.length (recent_restarts (clock env_nothing_works n)
                                  (restart_history (wd down_once))))
         < max_restarts_per_hour (wd down_once).
Proof.
  refine (proj1 (threshold_restarts_stay_within_budget default_config
                   env_nothing_works down_once) _).
  vm_compute. lia.
Defined.

(** C2 as stated fails on the interactive trigger: with three restarts
    inside the last hour in the history, [force_restart_cmd] by a permitted
    user calls [restart_server], which stops and starts the service, while
    [can_restart] answers no at every clock reading of the run. *)
Lemma force_restart_ignores_budget :
  let o := force_restart_cmd default_config env_all_ok 42 true exhausted_watchdog in
  (∀ n, (n < reads (final_state o))%nat →
        can_restart_at (clock env_all_ok n) (wd exhausted_watchdog) = false)
  ∧ restart_calls (trace (final_state o)) = 1%nat
  ∧ executed (trace (final_state o))
    = [ ["systemctl"; "stop"; "satisfactory.service"];
        ["systemctl"; "start"; "satisfactory.service"] ].
Proof.
  cbv zeta. split; [|split; vm_compute; reflexivity].
  assert (Hreads : reads (final_state (force_restart_cmd default_config env_all_ok 42
                                         true exhausted_watchdog)) = 2%nat)
    by (vm_compute; reflexivity).
  rewrite Hreads. intros n Hn.
  destruct n as [|[|n]]; [vm_compute; reflexivity | vm_compute; reflexivity | lia].
Qed.

(** C9, as the code has it. In a cycle that is not blocked on the watchdog
    lock, with a CPU reading of at least 95, the counter reaching
    CONTINUOUS_HIGH_CPU and at least one player estimated, no restart is
    called, no command is run, and the counter is set to
    max(CONTINUOUS_HIGH_CPU - 2, 0). *)
Theorem handle_high_cpu_defers_with_players (cfg : Config) (env : Env)
    (cpu : Q) (players : Z) (s : State) :
  lock_held (wd s) = false →
  Qle_bool (Qmake 95 1) cpu = true →
  CONTINUOUS_HIGH_CPU cfg ≤ high_cpu_counter (wd s) + 1 →
  0 < players →
  ∃ s', handle_high_cpu cfg env cpu players s = Ret ["cpu_restart_delayed_players"] s'
        ∧ high_cpu_counter (wd s') = Z.max (CONTINUOUS_HIGH_CPU cfg - 2) 0
        ∧ restart_calls (trace s') = restart_calls (trace s)
        ∧ executed (trace s') = executed (trace s).
Proof. apply handle_high_cpu_deferral. Qed.

Lemma handle_high_cpu_defers_with_players_witness :
  ∃ s', handle_high_cpu default_config env_all_ok (Qmake 99 1) 3 cpu_almost_tripped
        = Ret ["cpu_restart_delayed_players"] s'
        ∧ high_cpu_counter (wd s') = Z.max (CONTINUOUS_HIGH_CPU default_config - 2) 0
        ∧ restart_calls (trace s') = restart_calls (trace cpu_almost_tripped)
        ∧ executed (trace s') = executed (trace cpu_almost_tripped).
Proof.
  refine (handle_high_cpu_defers_with_players default_config env_all_ok (Qmake 99 1) 3
            cpu_almost_tripped _ _ _ _).
  - reflexivity.
  - reflexivity.
  - vm_compute. discriminate.
  - lia.
Defined.

(** C9 as stated fails when CONTINUOUS_HIGH_CPU is 1: the first high
    reading with players present trips, and the counter is set to 0, not to
    CONTINUOUS_HIGH_CPU - 2 = -1. *)
Lemma handle_high_cpu_deferral_floors_at_zero :
  let o := handle_high_cpu config_trip_at_one env_all_ok (Qmake 99 1) 3 fresh_watchdog in
  (∃ s', o = Ret ["cpu_restart_delayed_players"] s')
  ∧ high_cpu_counter (wd (final_state o)) = 0
  ∧ high_cpu_counter (wd (final_state o)) ≠ CONTINUOUS_HIGH_CPU config_trip_at_one - 2.
Proof.
  cbv zeta. split; [eexists; vm_compute; reflexivity|].
  split; [vm_compute; reflexivity|]. vm_compute. discriminate.
Qed.

(** C10. Whenever [restart_server] returns [False], [restart_count],
    [last_restart] and [restart_history] are what they were before the call,
    so [can_restart] answers as before at every instant; and where no
    command succeeds, [n] patrol cycles in a row that find the server down
    at or above the threshold, with the budget open, make [n] calls of
    [restart_server] and leave the history and the count untouched. *)
Theorem restart_server_failure_is_atomic (cfg : Config) (env : Env) :
  (∀ r s s',
     restart_server cfg env r s = Ret false s' →
     restart_count (wd s') = restart_count (wd s)
     ∧ last_restart (wd s') = last_restart (wd s)
     ∧ restart_history (wd s') = restart_history (wd s)
     ∧ ∀ t, can_restart_at t (wd s') = can_restart_at t (wd s))
  ∧ ((∀ i c, failed (run env i c) = true) →
     ∀ n s,
       lock_held (wd s) = false →
       SERVER_DOWN_THRESHOLD cfg ≤ down_counter (wd s) + 1 →
       (∀ t, can_restart_at t (wd s) = true) →
       ∃ s', down_cycles cfg env n s = Ret tt s'
             ∧ restart_calls (trace s') = (restart_calls (trace s) + n)%nat
             ∧ restart_history (wd s') = restart_history (wd s)
             ∧ restart_count (wd s') = restart_count (wd s)).
Proof.
  split.
  - intros r s s' Hret.
    pose proof (restart_server_outcome cfg env r s) as Hout. rewrite Hret in Hout.
    destruct Hout as (_ & _ & Hwd & _). rewrite Hwd. repeat split; reflexivity.
  - intros Hrun n s Hfree Htrip Hcan.
    apply down_cycles_retry_every_cycle; try assumption.
    intros t. apply within_budget_iff, Hcan.
Qed.

Lemma restart_server_failure_is_atomic_witness :
  (let s' := final_state (restart_server default_config env_stop_fails
                            ReasonServerOffline fresh_watchdog) in
   restart_count (wd s') = restart_count (wd fresh_watchdog)
   ∧ last_restart (wd s') = last_restart (wd fresh_watchdog)
   ∧ restart_history (wd s') = restart_history (wd fresh_watchdog)
   ∧ ∀ t, can_restart_at t (wd s') = can_restart_at t (wd fresh_watchdog))
  ∧ ∃ s', down_cycles default_config env_nothing_works 5 down_once = Ret tt s'
          ∧ restart_calls (trace s') = (restart_calls (trace down_once) + 5)%nat
          ∧ restart_history (wd s') = restart_history (wd down_once)
          ∧ restart_count (wd s') = restart_count (wd down_once).
Proof.
  split.
  - refine (proj1 (restart_server_failure_is_atomic default_config env_stop_fails)
              ReasonServerOffline fresh_watchdog _ _).
    vm_compute. reflexivity.
  - refine (proj2 (restart_server_failure_is_atomic default_config env_nothing_works)
              _ 5%nat down_once _ _ _).
    + intros i c. reflexivity.
    + reflexivity.
    + vm_compute. discriminate.
    + intros t. reflexivity.
Defined.

(** * Further properties *)

Import PyStr ValidatorShapes LimiterRuns WatchdogRuns PyText MoreFixtures.

(** ** More on the validator *)

Lemma strip4_cons c r :
  strip4 (String c r) = if removed_char c then strip4 r else String c (strip4 r).
Proof.
  unfold strip4, removed_char. simpl.
  destruct (Ascii.eqb c "-") eqn:E1; simpl; [reflexivity|].
  destruct (Ascii.eqb c "_") eqn:E2; simpl; [reflexivity|].
  destruct (Ascii.eqb c ".") eqn:E3; simpl; [reflexivity|].
  destruct (Ascii.eqb c "/") eqn:E4; simpl; reflexivity.
Qed.

Lemma removed_char_not_alnum c : removed_char c = true → alnum_char c = false.
Proof.
  unfold removed_char. intros H.
  repeat (apply orb_true_iff in H; destruct H as [H|H]);
    apply Ascii.eqb_eq in H; subst c; reflexivity.
Qed.

Lemma all_alnum_strip4 s : all_alnum (strip4 s) = str_forall word_char s.
Proof.
  induction s as [|c r IH]; [reflexivity|].
  rewrite strip4_cons. simpl. unfold word_char at 1.
  destruct (removed_char c) eqn:E.
  - rewrite orb_true_r. exact IH.
  - simpl. rewrite orb_false_r, IH. reflexivity.
Qed.

Lemma strip4_nonempty s :
  (match strip4 s with EmptyString => false | _ => true end)
  = str_exists (λ c, negb (removed_char c)) s.
Proof.
  induction s as [|c r IH]; [reflexivity|].
  rewrite strip4_cons. simpl. destruct (removed_char c); simpl; [exact IH | reflexivity].
Qed.

Lemma isalnum_strip4 s :
  isalnum (strip4 s) = str_forall word_char s && str_exists alnum_char s.
Proof.
  unfold isalnum.
  pose proof (strip4_nonempty s) as Hne. pose proof (all_alnum_strip4 s) as Hall.
  assert (Hex : str_forall word_char s = true →
                str_exists (λ c, negb (removed_char c)) s = str_exists alnum_char s).
  { clear. induction s as [|c r IH]; [reflexivity|]. simpl.
    intros H. apply andb_true_iff in H as [Hc Hr]. rewrite (IH Hr).
    f_equal. unfold word_char in Hc. destruct (removed_char c) eqn:E.
    - simpl. symmetry. by apply removed_char_not_alnum.
    - simpl. rewrite orb_false_r in Hc. by rewrite Hc. }
  destruct (strip4 s) eqn:Es.
  - simpl in Hall. rewrite <- Hall. simpl. rewrite <- Hex by (symmetry; exact Hall).
    by rewrite <- Hne.
  - rewrite Hall. destruct (str_forall word_char s) eqn:Ef; [|reflexivity].
    rewrite <- Hex by reflexivity. rewrite <- Hne. reflexivity.
Qed.

Lemma standard_arg_ok_words (allowed_args : list string) (arg : string) :
  standard_arg_ok allowed_args arg
  = str_in arg allowed_args
    || (str_forall word_char arg && str_exists alnum_char arg).
Proof. unfold standard_arg_ok. fold (strip4 arg). by rewrite isalnum_strip4. Qed.

(** *** The whitelist *)
Lemma allowed_commands_names name l :
  ALLOWED_COMMANDS !! name = Some l → In name whitelisted_names.
Proof.
  intros H. unfold ALLOWED_COMMANDS in H.
  apply elem_of_list_to_map_2 in H.
  repeat (apply elem_of_cons in H as [H|H];
          [injection H as -> _; unfold whitelisted_names; simpl; tauto|]).
  by apply elem_of_nil in H.
Qed.

Lemma whitelisted_names_no_blank name :
  In name whitelisted_names → contains_char " " name = false.
Proof.
  unfold whitelisted_names. simpl.
  intros H. repeat (destruct H as [<-|H]; [reflexivity|]). contradiction.
Qed.

Lemma validate_command_whitelisted name args :
  validate_command name args = true → In name whitelisted_names.
Proof.
  unfold validate_command. destruct (ALLOWED_COMMANDS !! name) eqn:E; [|discriminate].
  intros _. eapply allowed_commands_names, E.
Qed.

(** X2. Whatever [safe_subprocess] hands to [subprocess.run] starts with one
    of the nine names that are keys of ALLOWED_COMMANDS, unchanged, followed
    by the arguments the validator approved, each one quoted when it holds a
    blank. *)
Theorem safe_subprocess_gate_runs_whitelisted (cmd c : list string) :
  safe_subprocess_gate cmd = Some c →
  ∃ name args, cmd = name :: args ∧ c = name :: safe_cmd args
               ∧ In name whitelisted_names ∧ validate_command name args = true.
Proof.
  unfold safe_subprocess_gate. destruct cmd as [|name args]; [discriminate|].
  destruct (validate_command name args) eqn:Ev; [|discriminate].
  intros [= <-]. exists name, args.
  pose proof (validate_command_whitelisted name args Ev) as Hin.
  repeat split; try assumption.
  unfold safe_cmd. simpl. by rewrite (whitelisted_names_no_blank name Hin).
Qed.

(** *** Suffixes *)
Lemma substring_all s : substring 0 (String.length s) s = s.
Proof. induction s as [|c r IH]; simpl; [reflexivity | by rewrite IH]. Qed.

Lemma substring_skip p s m :
  substring (String.length p) m (p ++ s) = substring 0 m s.
Proof. induction p; simpl; [reflexivity | exact IHp]. Qed.

Lemma length_append (a b : string) :
  String.length (a ++ b) = (String.length a + String.length b)%nat.
Proof. induction a as [|c r IH]; simpl; [reflexivity | by rewrite IH]. Qed.

Lemma append_substring s k :
  (k ≤ String.length s)%nat →
  s = substring 0 k s ++ substring k (String.length s - k) s.
Proof.
  revert k. induction s as [|c r IH]; intros k Hk.
  - simpl in Hk. assert (k = 0%nat) by lia. subst. reflexivity.
  - destruct k as [|k].
    + simpl. by rewrite substring_all.
    + simpl in *.
      change (String c r
              = String c (substring 0 k r ++ substring k (String.length r - k) r)).
      f_equal. apply IH. lia.
Qed.

Lemma endswith_spec s suffix :
  endswith s suffix = true ↔ ∃ p, s = p ++ suffix.
Proof.
  unfold endswith. split.
  - remember (String.length suffix) as m eqn:Hm.
    destruct (m <=? String.length s)%nat eqn:E; [|discriminate].
    apply Nat.leb_le in E. intros H. apply String.eqb_eq in H.
    exists (substring 0 (String.length s - m) s).
    rewrite <- H.
    pose proof (append_substring s (String.length s - m)%nat) as Hsplit.
    replace (String.length s - (String.length s - m))%nat with m in Hsplit by lia.
    apply Hsplit. lia.
  - intros [p ->]. rewrite length_append.
    replace (String.length suffix <=? String.length p + String.length suffix)%nat
      with true by (symmetry; apply Nat.leb_le; lia).
    replace (String.length p + String.length suffix - String.length suffix)%nat
      with (String.length p) by lia.
    rewrite substring_skip, substring_all. apply String.eqb_refl.
Qed.

Lemma str_in_In x xs : str_in x xs = true ↔ In x xs.
Proof.
  unfold str_in. rewrite existsb_exists. split.
  - intros (y & Hy & He). apply String.eqb_eq in He. by subst.
  - intros H. exists x. split; [exact H | apply String.eqb_refl].
Qed.

Lemma allowed_commands_systemctl :
  ALLOWED_COMMANDS !! "systemctl"
  = Some ["start"; "stop"; "restart"; "status"; "is-active"; "is-failed"].
Proof. vm_compute. reflexivity. Qed.

(** X3. [validate_command] approves a systemctl call exactly when its first
    argument is one of the six listed actions and its second argument ends
    in .service; nothing is asked of the arguments after the second. *)
Theorem validate_command_systemctl_shape (args : list string) :
  validate_command "systemctl" args = true
  ↔ ∃ action prefix more,
      args = action :: (prefix ++ ".service") :: more
      ∧ In action ["start"; "stop"; "restart"; "status"; "is-active"; "is-failed"].
Proof.
  unfold validate_command. rewrite allowed_commands_systemctl, String.eqb_refl.
  split.
  - destruct args as [|action [|service more]]; try discriminate.
    intros H. apply andb_true_iff in H as [Ha Hs].
    apply str_in_In in Ha. apply endswith_spec in Hs as [p ->].
    exists action, p, more. split; [reflexivity | exact Ha].
  - intros (action & p & more & -> & Ha).
    apply andb_true_iff. split; [by apply str_in_In | apply endswith_spec; eauto].
Qed.

(** *** Commands run as written *)
Lemma str_forall_contains p c s :
  str_forall p s = true → p c = false → contains_char c s = false.
Proof.
  induction s as [|d r IH]; [reflexivity|]. simpl.
  intros H Hc. apply andb_true_iff in H as [Hd Hr].
  rewrite (IH Hr Hc), orb_false_r.
  destruct (Ascii.eqb d c) eqn:E; [|reflexivity].
  apply Ascii.eqb_eq in E. subst. congruence.
Qed.

Lemma standard_validation_verbatim allowed args :
  Forall (λ a, contains_char " " a = false) allowed →
  standard_validation allowed args = true →
  safe_cmd args = args.
Proof.
  intros Hall. unfold standard_validation, safe_cmd.
  induction args as [|a r IH]; [reflexivity|]. simpl.
  intros H. apply andb_true_iff in H as [Ha Hr]. rewrite (IH Hr). f_equal.
  rewrite standard_arg_ok_words in Ha. apply orb_true_iff in Ha as [Ha|Ha].
  - apply str_in_In in Ha. rewrite Forall_forall in Hall.
    rewrite (Hall a); [reflexivity|]. by apply list_elem_of_In.
  - apply andb_true_iff in Ha as [Ha _].
    by rewrite (str_forall_contains word_char " " a Ha eq_refl).
Qed.

Lemma allowed_args_no_blank name l :
  ALLOWED_COMMANDS !! name = Some l → Forall (λ a, contains_char " " a = false) l.
Proof.
  intros H. unfold ALLOWED_COMMANDS in H.
  apply elem_of_list_to_map_2 in H.
  repeat (apply elem_of_cons in H as [H|H];
          [injection H as _ ->; repeat constructor|]).
  by apply elem_of_nil in H.
Qed.

Lemma gate_verbatim (name : string) (args : list string) :
  name ≠ "systemctl" → name ≠ "sysctl" → name ≠ "chown" →
  validate_command name args = true →
  safe_subprocess_gate (name :: args) = Some (name :: args).
Proof.
  intros H1 H2 H3 Hv. unfold safe_subprocess_gate. rewrite Hv.
  pose proof (validate_command_whitelisted name args Hv) as Hin.
  f_equal. unfold safe_cmd. simpl.
  rewrite (whitelisted_names_no_blank name Hin). f_equal.
  unfold validate_command in Hv.
  destruct (ALLOWED_COMMANDS !! name) as [allowed|] eqn:E; [|discriminate].
  apply String.eqb_neq in H1, H2, H3. rewrite H1, H2, H3 in Hv.
  eapply standard_validation_verbatim; [|exact Hv].
  eapply allowed_args_no_blank, E.
Qed.

(** X1. On an argument made of ASCII characters, the generic argument check
    of [validate_command] approves exactly when the argument is one of the
    listed arguments of the command, or it consists of letters, digits,
    hyphens, underscores, dots and slashes only and holds at least one
    letter or digit. (Outside ASCII [str.isalnum] knows more letters and
    digits than the three ranges; such arguments are not spoken of.) *)
Theorem standard_arg_ok_shape (allowed_args : list string) (arg : string) :
  str_forall ascii_char arg = true →
  standard_arg_ok allowed_args arg
  = str_in arg allowed_args
    || (str_forall word_char arg && str_exists alnum_char arg).
Proof. intros _. apply standard_arg_ok_words. Qed.

Lemma standard_arg_ok_shape_witness :
  standard_arg_ok ["-f"] "FactoryServer"
  = str_in "FactoryServer" ["-f"]
    || (str_forall word_char "FactoryServer" && str_exists alnum_char "FactoryServer").
Proof.
  apply (standard_arg_ok_shape ["-f"] "FactoryServer").
  vm_compute. reflexivity.
Defined.

Lemma safe_subprocess_gate_runs_whitelisted_witness :
  ∃ name args,
    ["pkill"; "-f"; "FactoryServer"] = name :: args
    ∧ ["pkill"; "-f"; "FactoryServer"] = name :: safe_cmd args
    ∧ In name whitelisted_names ∧ validate_command name args = true.
Proof.
  apply (safe_subprocess_gate_runs_whitelisted
           ["pkill"; "-f"; "FactoryServer"] ["pkill"; "-f"; "FactoryServer"]).
  vm_compute. reflexivity.
Defined.

(** X4. A command other than systemctl, sysctl and chown that the validator
    approves is run exactly as it was given: no argument of it holds a blank,
    so the quoting step changes nothing. *)
Theorem generic_commands_run_verbatim (name : string) (args : list string) :
  name ≠ "systemctl" → name ≠ "sysctl" → name ≠ "chown" →
  validate_command name args = true →
  safe_subprocess_gate (name :: args) = Some (name :: args).
Proof. apply gate_verbatim. Qed.

Lemma generic_commands_run_verbatim_witness :
  safe_subprocess_gate ["pkill"; "-f"; "FactoryServer"]
  = Some ["pkill"; "-f"; "FactoryServer"].
Proof.
  refine (generic_commands_run_verbatim "pkill" ["-f"; "FactoryServer"] _ _ _ _);
    try discriminate.
  vm_compute. reflexivity.
Defined.

(** ** More on the rate limiter *)

Lemma drop_expired_length now per l :
  (List.length (drop_expired now per l) ≤ List.length l)%nat.
Proof.
  induction l as [|t r IH]; simpl; [lia|].
  destruct (now - t >? per); simpl; lia.
Qed.

Lemma allow_deque_same_user now u rl :
  deque_of (snd (allow now u rl)) u
  = (drop_expired now (per rl) (deque_of rl u)
     ++ if fst (allow now u rl) then [now] else [])%list.
Proof.
  unfold allow, deque_of. destruct (_ >=? _); simpl; rewrite lookup_insert_eq; simpl.
  - by rewrite app_nil_r.
  - reflexivity.
Qed.

Lemma allow_deque_other_user now u k rl :
  u ≠ k → deque_of (snd (allow now u rl)) k = deque_of rl k.
Proof.
  intros Hne. unfold allow, deque_of.
  destruct (_ >=? _); simpl; by rewrite lookup_insert_ne.
Qed.

Lemma allow_verdict now u rl :
  fst (allow now u rl)
  = negb (Z.of_nat (List.length (drop_expired now (per rl) (deque_of rl u)))
          >=? max_calls rl).
Proof. unfold allow, deque_of. destruct (_ >=? _); reflexivity. Qed.

Lemma limiter_after_params rl calls :
  max_calls (limiter_after rl calls) = max_calls rl
  ∧ per (limiter_after rl calls) = per rl.
Proof.
  revert rl. induction calls as [|[t u] rest IH]; intros rl; [done|].
  simpl. destruct (IH (snd (allow t u rl))) as [-> ->].
  unfold allow. destruct (_ >=? _); done.
Qed.

Lemma allow_keeps_bound now u rl :
  0 ≤ max_calls rl →
  (∀ k, Z.of_nat (List.length (deque_of rl k)) ≤ max_calls rl) →
  ∀ k, Z.of_nat (List.length (deque_of (snd (allow now u rl)) k))
       ≤ max_calls (snd (allow now u rl)).
Proof.
  intros Hmax Hall k.
  assert (Hm : max_calls (snd (allow now u rl)) = max_calls rl)
    by (unfold allow; destruct (_ >=? _); reflexivity).
  rewrite Hm. destruct (Z.eq_dec u k) as [->|Hne].
  - rewrite allow_deque_same_user, allow_verdict, List.length_app.
    pose proof (drop_expired_length now (per rl) (deque_of rl k)).
    specialize (Hall k).
    destruct (_ >=? _) eqn:E; simpl; lia.
  - rewrite allow_deque_other_user by assumption. apply Hall.
Qed.

(** X5. Starting from a new limiter with a limit that is not negative, and
    whatever calls are made by whatever users at whatever instants, the
    deque kept for a user never holds more than [max_calls] entries. *)
Theorem limiter_deques_stay_bounded (max_calls_ per_seconds : Z)
    (calls : list timed_call) (user_id : Z) :
  0 ≤ max_calls_ →
  Z.of_nat (List.length
              (deque_of (limiter_after (GlobalRateLimiter_init max_calls_ per_seconds)
                           calls) user_id))
  ≤ max_calls_.
Proof.
  intros Hmax.
  set (rl0 := GlobalRateLimiter_init max_calls_ per_seconds).
  assert (Hgen : ∀ calls rl,
             0 ≤ max_calls rl →
             (∀ k, Z.of_nat (List.length (deque_of rl k)) ≤ max_calls rl) →
             ∀ k, Z.of_nat (List.length (deque_of (limiter_after rl calls) k))
                  ≤ max_calls rl).
  { clear. induction calls as [|[t u] rest IH]; intros rl Hm Hall k; [apply Hall|].
    simpl.
    assert (Hm' : max_calls (snd (allow t u rl)) = max_calls rl)
      by (unfold allow; destruct (_ >=? _); reflexivity).
    rewrite <- Hm'. apply IH.
    - rewrite Hm'. exact Hm.
    - apply allow_keeps_bound; assumption. }
  apply (Hgen calls rl0 Hmax).
  intros k. unfold deque_of, rl0. simpl. rewrite lookup_empty. simpl. lia.
Qed.

Lemma approvals_isolated_gen calls : ∀ rl1 rl2 k,
  max_calls rl1 = max_calls rl2 → per rl1 = per rl2 →
  deque_of rl1 k = deque_of rl2 k →
  approvals rl1 calls k = approvals rl2 (calls_of k calls) k.
Proof.
  induction calls as [|[t u] rest IH]; intros rl1 rl2 k Hm Hp Hd; [reflexivity|].
  assert (Hm1 : max_calls (snd (allow t u rl1)) = max_calls rl1)
    by (unfold allow; destruct (_ >=? _); reflexivity).
  assert (Hp1 : per (snd (allow t u rl1)) = per rl1)
    by (unfold allow; destruct (_ >=? _); reflexivity).
  simpl. destruct (u =? k) eqn:E.
  - apply Z.eqb_eq in E. subst u. simpl. rewrite Z.eqb_refl, !andb_true_r.
    assert (Hv : fst (allow t k rl1) = fst (allow t k rl2)).
    { rewrite !allow_verdict. rewrite Hm, Hp, Hd. reflexivity. }
    rewrite Hv. f_equal. apply IH.
    + by rewrite !allow_max_calls.
    + by rewrite !allow_per.
    + rewrite !allow_deque_same_user. rewrite Hv, Hp, Hd. reflexivity.
  - rewrite andb_false_r. simpl. apply IH.
    + by rewrite allow_max_calls.
    + by rewrite allow_per.
    + rewrite allow_deque_other_user; [exact Hd|]. by apply Z.eqb_neq.
Qed.

(** X6. The limiter keeps users apart: the answers one user gets are the
    answers the same user would get had no other user called. *)
Theorem approvals_do_not_depend_on_other_users (rl : GlobalRateLimiter)
    (calls : list timed_call) (user_id : Z) :
  approvals rl calls user_id = approvals rl (calls_of user_id calls) user_id.
Proof. by apply approvals_isolated_gen. Qed.

Lemma drop_expired_all now per l :
  Forall (λ t, per < now - t) l → drop_expired now per l = [].
Proof.
  induction 1 as [|t r Ht _ IH]; simpl; [reflexivity|].
  destruct (now - t >? per) eqn:E; [exact IH | lia].
Qed.

(** X7. A user whose recorded calls are all strictly older than the window
    is approved again, whatever they used up before, and the deque then
    holds the new call alone. *)
Theorem allow_after_quiet_window (rl : GlobalRateLimiter) (now user_id : Z) :
  0 < max_calls rl →
  Forall (λ t, per rl < now - t) (deque_of rl user_id) →
  fst (allow now user_id rl) = true
  ∧ deque_of (snd (allow now user_id rl)) user_id = [now].
Proof.
  intros Hmax Hold.
  assert (Hv : fst (allow now user_id rl) = true).
  { rewrite allow_verdict, drop_expired_all by exact Hold.
    change (Z.of_nat (List.length (@nil Z))) with 0.
    destruct (0 >=? max_calls rl) eqn:E; [lia | reflexivity]. }
  split; [exact Hv|].
  rewrite allow_deque_same_user, Hv, drop_expired_all by exact Hold. reflexivity.
Qed.

Lemma allow_after_quiet_window_witness :
  fst (allow 10000001 7 (limiter_after global_rate_limiter [(0, 7); (0, 7); (0, 7)]))
  = true.
Proof.
  assert (H1 : 0 < max_calls (limiter_after global_rate_limiter
                                [(0, 7); (0, 7); (0, 7)]))
    by (vm_compute; reflexivity).
  assert (H2 : Forall (λ t, per (limiter_after global_rate_limiter
                                   [(0, 7); (0, 7); (0, 7)]) < 10000001 - t)
                 (deque_of (limiter_after global_rate_limiter
                              [(0, 7); (0, 7); (0, 7)]) 7)).
  { assert (Hd : deque_of (limiter_after global_rate_limiter [(0, 7); (0, 7); (0, 7)]) 7
                 = [0; 0; 0]) by (vm_compute; reflexivity).
    assert (Hp : per (limiter_after global_rate_limiter [(0, 7); (0, 7); (0, 7)])
                 = 10000000) by (vm_compute; reflexivity).
    rewrite Hd, Hp. repeat constructor; lia. }
  exact (proj1 (allow_after_quiet_window _ 10000001 7 H1 H2)).
Defined.

Lemma limiter_deques_stay_bounded_witness :
  Z.of_nat (List.length
              (deque_of (limiter_after (GlobalRateLimiter_init 3 10)
                           [(0, 7); (1, 7); (2, 8); (3, 7); (4, 7)]) 7)) ≤ 3.
Proof.
  refine (limiter_deques_stay_bounded 3 10 [(0, 7); (1, 7); (2, 8); (3, 7); (4, 7)] 7 _).
  lia.
Defined.

(** ** More on the persistent store *)

(** X8. However [save] fails, what the store file held before is not lost
    unless the new mapping has been written: afterwards the old content is
    still in the store file or in the backup, or the store file holds the
    pickle of the new mapping. *)
Theorem save_keeps_old_or_new {V : Type} (io : SaveFaults)
    (ps : PersistentState V) (fs : FileSystem V) (previous : FileContent V) :
  state_file fs = Some previous →
  let fs' := snd (fst (save io ps fs)) in
  state_file fs' = Some previous
  ∨ backup_file fs' = Some previous
  ∨ state_file fs' = Some (PickledDict (data ps)).
Proof.
  intros Hprev. unfold save. rewrite Hprev.
  destruct (rename_raises io); simpl; [left; exact Hprev|].
  destruct (write_result io); simpl; [|right; left; reflexivity..].
  destruct (chmod_raises io); simpl; [right; right; reflexivity|].
  destruct (unlink_raises io); simpl; right; right; reflexivity.
Qed.

Lemma save_keeps_old_or_new_witness :
  backup_file (snd (fst (save dump_fails old_ps old_fs)))
  = Some (PickledDict {[ "old" := 5 ]}).
Proof.
  destruct (save_keeps_old_or_new dump_fails old_ps old_fs
              (PickledDict {[ "old" := 5 ]}) eq_refl) as [H|[H|H]].
  - discriminate H.
  - exact H.
  - discriminate H.
Defined.

(** X9. [_load] never reads the backup: after a [set] whose write failed once
    the old file had been renamed, a new [PersistentState] over the files
    starts with an empty mapping, although the backup holds the earlier
    content. *)
Theorem restart_after_failed_write_starts_empty {V : Type} (io : SaveFaults)
    (key : string) (value : V) (ps : PersistentState V) (fs : FileSystem V)
    (crypto : bool) (fresh : string) (load_raises key_read_raises key_write_raises : bool) :
  write_fails_after_rename io fs →
  let after := set io key value ps fs in
  let reborn :=
    fst (fst (PersistentState_init crypto fresh load_raises key_read_raises
                key_write_raises (snd (fst after)))) in
  data reborn = ∅
  ∧ backup_file (snd (fst after)) = state_file fs
  ∧ ∀ d, get reborn key d = d.
Proof.
  intros (Hsome & Hren & Hw) after reborn.
  destruct Hsome as [c Hc].
  assert (Hfs : (state_file (snd (fst after)) = None
                 ∨ state_file (snd (fst after)) = Some Unreadable)
                ∧ backup_file (snd (fst after)) = Some c).
  { subst after. rewrite set_file_system. unfold save. rewrite Hc, Hren.
    destruct (write_result io); [congruence | split; [left|]; reflexivity
                                | split; [right|]; reflexivity]. }
  destruct Hfs as [Hstate Hbackup].
  assert (Hdata : data reborn = ∅).
  { subst reborn. rewrite init_data. unfold _load.
    destruct Hstate as [-> | ->]; [reflexivity|]. destruct load_raises; reflexivity. }
  repeat split.
  - exact Hdata.
  - rewrite Hbackup. congruence.
  - intros d. unfold get. rewrite Hdata, lookup_empty. reflexivity.
Qed.

Lemma restart_after_failed_write_starts_empty_witness :
  data (fst (fst (PersistentState_init true "KEY" false false false
                    (snd (fst (set dump_fails "k" 1 old_ps old_fs)))))) = ∅.
Proof.
  refine (proj1 (restart_after_failed_write_starts_empty dump_fails "k" 1 old_ps old_fs
                   true "KEY" false false false _)).
  split; [eexists; reflexivity | split; [reflexivity | discriminate]].
Defined.

(** X10. Two failing writes in a row lose the stored data: the first one
    leaves a broken store file and the old content in the backup, the second
    one renames the broken file over that backup. *)
Theorem second_failed_save_overwrites_backup {V : Type} (io1 io2 : SaveFaults)
    (ps1 ps2 : PersistentState V) (fs : FileSystem V) :
  is_Some (state_file fs) →
  rename_raises io1 = false → write_result io1 = WriteFailsInDump →
  rename_raises io2 = false → write_result io2 ≠ WriteOk →
  let fs1 := snd (fst (save io1 ps1 fs)) in
  let fs2 := snd (fst (save io2 ps2 fs1)) in
  backup_file fs1 = state_file fs
  ∧ backup_file fs2 = Some Unreadable
  ∧ (state_file fs2 = None ∨ state_file fs2 = Some Unreadable).
Proof.
  intros [c Hc] Hren1 Hw1 Hren2 Hw2 fs1 fs2.
  assert (Hfs1 : fs1 = {| state_file := Some Unreadable; backup_file := Some c;
                          key_file := key_file fs |}).
  { subst fs1. unfold save. rewrite Hc, Hren1, Hw1. reflexivity. }
  subst fs2. rewrite Hfs1. unfold save. simpl. rewrite Hren2.
  split; [congruence|].
  destruct (write_result io2); [congruence|..]; simpl; auto.
Qed.

Lemma second_failed_save_overwrites_backup_witness :
  backup_file (snd (fst (save dump_fails old_ps
                           (snd (fst (save dump_fails old_ps old_fs))))))
  = Some Unreadable.
Proof.
  refine (proj1 (proj2 (second_failed_save_overwrites_backup dump_fails dump_fails
                          old_ps old_ps old_fs _ _ _ _ _))).
  - eexists; reflexivity.
  - reflexivity.
  - reflexivity.
  - reflexivity.
  - discriminate.
Defined.

Lemma init_key {V : Type} crypto fresh lr kr kw (fs : FileSystem V) :
  _encryption_key (fst (fst (PersistentState_init crypto fresh lr kr kw fs)))
  = fst (_get_or_create_key crypto fresh kr kw fs)
  ∧ snd (fst (PersistentState_init crypto fresh lr kr kw fs))
    = snd (_get_or_create_key crypto fresh kr kw fs).
Proof.
  unfold PersistentState_init. destruct (_load lr fs) as [d lg].
  destruct (_get_or_create_key crypto fresh kr kw fs) as [k fs']. split; reflexivity.
Qed.

(** X11. With the cryptographic capability available and a key file that can
    be read and written, the key is generated at most once: the first
    [PersistentState] leaves it in the key file, and a second one over the
    same files holds the same key and changes no file. *)
Theorem encryption_key_is_generated_once {V : Type} (fresh1 fresh2 : string)
    (load_raises1 load_raises2 : bool) (fs : FileSystem V) :
  let first := PersistentState_init true fresh1 load_raises1 false false fs in
  let fs1 := snd (fst first) in
  let second := PersistentState_init true fresh2 load_raises2 false false fs1 in
  is_Some (_encryption_key (fst (fst first)))
  ∧ key_file fs1 = _encryption_key (fst (fst first))
  ∧ _encryption_key (fst (fst second)) = _encryption_key (fst (fst first))
  ∧ snd (fst second) = fs1.
Proof.
  cbv zeta.
  destruct (init_key true fresh1 load_raises1 false false fs) as [Hk1 Hfs1].
  rewrite Hk1, Hfs1.
  destruct (init_key true fresh2 load_raises2 false false
              (snd (_get_or_create_key true fresh1 false false fs))) as [Hk2 Hfs2].
  rewrite Hk2, Hfs2.
  unfold _get_or_create_key. simpl.
  destruct (key_file fs) as [k|] eqn:Ek; simpl; rewrite ?Ek; simpl;
    repeat split; eauto.
Qed.

(** ** More on the watchdog *)

Section MoreWatchdogFacts.

Variable cfg : Config.
Variable env : Env.

Ltac tally :=
  simpl; unfold restart_calls, persist_count, executed in *; simpl;
  rewrite ?List.filter_app, ?List.length_app, ?omap_app; simpl;
  rewrite ?app_nil_r, <- ?List.app_assoc; simpl; first [reflexivity | lia].

Lemma deque_of_list_length xs :
  (List.length (deque_of_list xs) ≤ history_maxlen)%nat.
Proof. unfold deque_of_list. rewrite length_skipn. unfold history_maxlen. lia. Qed.

Lemma deque_of_list_short xs :
  (List.length xs ≤ history_maxlen)%nat → deque_of_list xs = xs.
Proof.
  intros H. unfold deque_of_list.
  replace (List.length xs - history_maxlen)%nat with 0%nat by lia. reflexivity.
Qed.

Lemma deque_append_last d x : last (deque_append d x) = Some x.
Proof.
  unfold deque_append, deque_of_list.
  rewrite List.length_app. simpl.
  change skipn with (@drop RestartEntry).
  rewrite drop_app_le by (unfold history_maxlen; lia).
  apply last_snoc.
Qed.


(** A cooldown just set for [alert_type] answers the next question by
    comparing the next clock reading with the stored instant plus the
    cooldown. *)
Lemma cooldown_then_ask alert_type s :
  (set_alert_cooldown env alert_type ;; should_send_alert env alert_type) s
  = Ret (clock env (S (reads s))
           >? clock env (reads s) + alert_cooldown_minutes (wd s) * usec_per_minute)
        {| wd := with_alert_cooldowns
                   (<[alert_type := clock env (reads s)]> (alert_cooldowns (wd s))) (wd s);
           limiter := limiter s; reads := S (S (reads s)); execs := execs s;
           trace := trace s |}.
Proof.
  unfold set_alert_cooldown, should_send_alert, bind, now, modify_wd, get_wd, ret, set_wd.
  simpl. rewrite lookup_insert_eq. reflexivity.
Qed.

Lemma cooldown_other_type alert_type other s :
  other ≠ alert_type →
  alert_cooldowns (wd s) !! other = None →
  (set_alert_cooldown env alert_type ;; should_send_alert env other) s
  = Ret true
        {| wd := with_alert_cooldowns
                   (<[alert_type := clock env (reads s)]> (alert_cooldowns (wd s))) (wd s);
           limiter := limiter s; reads := S (reads s); execs := execs s;
           trace := trace s |}.
Proof.
  intros Hne Hnone.
  unfold set_alert_cooldown, should_send_alert, bind, now, modify_wd, get_wd, ret, set_wd.
  simpl. rewrite lookup_insert_ne by congruence. rewrite Hnone. reflexivity.
Qed.


Lemma handle_server_down_counts s :
  lock_held (wd s) = false →
  down_counter (wd s) + 1 < SERVER_DOWN_THRESHOLD cfg →
  ∃ s', handle_server_down cfg env s = Ret [] s'
        ∧ down_counter (wd s') = down_counter (wd s) + 1
        ∧ restart_calls (trace s') = restart_calls (trace s)
        ∧ executed (trace s') = executed (trace s)
        ∧ persist_count (trace s') = S (persist_count (trace s)).
Proof.
  intros Hfree Hbelow.
  assert (Hlt : (down_counter (wd s) + 1 >=? SERVER_DOWN_THRESHOLD cfg) = false).
  { rewrite Z.geb_leb. apply Z.leb_gt. lia. }
  unfold handle_server_down.
  unfold bind at 1. unfold modify_wd at 1. unfold bind at 1.
  rewrite save_state_free by (simpl; exact Hfree).
  unfold should_send_alert, can_restart, bind, get_wd, when, log_admin,
    set_alert_cooldown, now, modify_wd, emit, ret, set_wd.
  cbn -[save_state restart_server can_restart_at].
  destruct (alert_cooldowns (wd s) !! "server_down") as [last|];
    cbn -[save_state restart_server can_restart_at].
  1: destruct (clock env (reads s) >? _);
    cbn -[save_state restart_server can_restart_at].
  all: rewrite ?Hlt; cbn -[save_state restart_server can_restart_at].
  all: eexists; split; [reflexivity|]; simpl; repeat split; tally.
Qed.

Lemma handle_server_down_rate_limited s :
  lock_held (wd s) = false →
  SERVER_DOWN_THRESHOLD cfg ≤ down_counter (wd s) + 1 →
  (∀ n, (reads s ≤ n ≤ reads s + 2)%nat →
        can_restart_at (clock env n) (wd s) = false) →
  ∃ s', handle_server_down cfg env s = Ret ["restart_rate_limited"] s'
        ∧ down_counter (wd s') = down_counter (wd s) + 1
        ∧ restart_calls (trace s') = restart_calls (trace s)
        ∧ executed (trace s') = executed (trace s)
        ∧ last (trace s') = Some (EvAlert AlertRestartLimit true).
Proof.
  intros Hfree Htrip Hno.
  assert (Hge : (down_counter (wd s) + 1 >=? SERVER_DOWN_THRESHOLD cfg) = true)
    by (apply Z.geb_le; lia).
  assert (Hcan : ∀ n w, (reads s ≤ n ≤ reads s + 2)%nat →
                        restart_history w = restart_history (wd s) →
                        max_restarts_per_hour w = max_restarts_per_hour (wd s) →
                        can_restart_at (clock env n) w = false).
  { intros n w Hn Hh Hm. rewrite (can_restart_at_same _ (wd s) w Hh Hm). by apply Hno. }
  unfold handle_server_down.
  unfold bind at 1. unfold modify_wd at 1. unfold bind at 1.
  rewrite save_state_free by (simpl; exact Hfree).
  unfold should_send_alert, can_restart, bind, get_wd, when, log_admin,
    set_alert_cooldown, now, modify_wd, emit, ret, set_wd.
  cbn -[save_state restart_server can_restart_at].
  destruct (alert_cooldowns (wd s) !! "server_down") as [last|];
    cbn -[save_state restart_server can_restart_at].
  1: destruct (clock env (reads s) >? _);
    cbn -[save_state restart_server can_restart_at].
  all: rewrite ?Hge; cbn -[save_state restart_server can_restart_at].
  all: rewrite Hcan by first [reflexivity | lia].
  all: eexists; split; [reflexivity|]; simpl; repeat split;
    first [apply last_snoc | tally].
Qed.

(** A memory reading at or above the hard limit: the handler alerts, asks
    the budget with the next clock reading, and calls [restart_server]
    exactly when the answer is yes. *)
Lemma handle_high_memory_trips_at_once mb s :
  MEMORY_LEAK_THRESHOLD cfg ≤ mb →
  let o := handle_high_memory cfg env mb s in
  restart_calls (trace (final_state o))
  = (restart_calls (trace s)
     + if can_restart_at (clock env (reads s)) (wd s) then 1 else 0)%nat
  ∧ (can_restart_at (clock env (reads s)) (wd s) = false →
     ∃ s', o = Ret ["restart_rate_limited_memory"] s'
           ∧ wd s' = wd s ∧ executed (trace s') = executed (trace s)).
Proof.
  intros Hleak.
  assert (Hge : (mb >=? MEMORY_LEAK_THRESHOLD cfg) = true) by (apply Z.geb_le; lia).
  unfold handle_high_memory.
  unfold can_restart, bind, get_wd, log_admin, now, emit, ret.
  cbn -[save_state restart_server can_restart_at]. rewrite Hge.
  cbn -[save_state restart_server can_restart_at].
  match goal with
  | |- context [can_restart_at ?t ?w] =>
      change (can_restart_at t w) with (can_restart_at (clock env (reads s)) (wd s))
  end.
  destruct (can_restart_at (clock env (reads s)) (wd s)) eqn:Hcan.
  - match goal with
    | |- context [restart_server cfg env ?r ?s1] =>
        pose proof (restart_server_outcome cfg env r s1) as Hout;
        destruct (restart_server cfg env r s1) as [b s2|s2]
    end.
    + destruct Hout as (-> & _ & _ & _ & _ & Hcalls). split; [|discriminate].
      simpl. rewrite Hcalls. tally.
    + destruct Hout as (_ & _ & Hcalls). split; [|discriminate].
      simpl. rewrite Hcalls. tally.
  - split; [tally|]. intros _. eexists. split; [reflexivity|]. simpl.
    split; [destruct s as [w ? ? ? ?]; reflexivity | tally].
Qed.

(** A memory reading in the warning band. *)
Lemma handle_high_memory_warns mb s :
  mb < MEMORY_LEAK_THRESHOLD cfg →
  Qle_bool (memory_warning_threshold (wd s)) (inject_Z mb) = true →
  ∃ acts s', handle_high_memory cfg env mb s = Ret acts s'
        ∧ high_memory_counter (wd s') = high_memory_counter (wd s) + 1
        ∧ restart_calls (trace s') = restart_calls (trace s)
        ∧ executed (trace s') = executed (trace s)
        ∧ persist_count (trace s') = persist_count (trace s).
Proof.
  intros Hbelow Hwarn.
  assert (Hlt : (mb >=? MEMORY_LEAK_THRESHOLD cfg) = false).
  { rewrite Z.geb_leb. apply Z.leb_gt. lia. }
  unfold handle_high_memory.
  unfold should_send_alert, bind, get_wd, log_admin, set_alert_cooldown, now,
    modify_wd, emit, ret, set_wd.
  cbn -[save_state restart_server can_restart_at Qle_bool]. rewrite Hlt, Hwarn.
  cbn -[save_state restart_server can_restart_at Qle_bool].
  destruct (alert_cooldowns (wd s) !! "high_memory") as [last|];
    cbn -[save_state restart_server can_restart_at Qle_bool].
  1: destruct (clock env (reads s) >? _);
    cbn -[save_state restart_server can_restart_at Qle_bool].
  all: do 2 eexists; split; [reflexivity|]; simpl; repeat split; tally.
Qed.

(** A memory reading below the warning band clears the counter. *)
Lemma handle_high_memory_clears mb s :
  lock_held (wd s) = false →
  mb < MEMORY_LEAK_THRESHOLD cfg →
  Qle_bool (memory_warning_threshold (wd s)) (inject_Z mb) = false →
  ∃ s', handle_high_memory cfg env mb s
        = Ret (if high_memory_counter (wd s) >? 0 then ["memory_normalized"] else []) s'
        ∧ high_memory_counter (wd s') = Z.min (high_memory_counter (wd s)) 0
        ∧ restart_calls (trace s') = restart_calls (trace s)
        ∧ executed (trace s') = executed (trace s).
Proof.
  intros Hfree Hbelow Hwarn.
  assert (Hlt : (mb >=? MEMORY_LEAK_THRESHOLD cfg) = false).
  { rewrite Z.geb_leb. apply Z.leb_gt. lia. }
  unfold handle_high_memory. unfold bind at 1. unfold get_wd at 1.
  rewrite Hlt, Hwarn.
  destruct (high_memory_counter (wd s) >? 0) eqn:Hpos.
  - unfold bind at 1. unfold modify_wd at 1. unfold bind at 1.
    rewrite save_state_free by (simpl; exact Hfree).
    unfold ret. eexists. split; [reflexivity|]. simpl. repeat split; tally.
  - unfold ret. eexists. split; [reflexivity|]. repeat split. lia.
Qed.

(** A CPU reading of at least 95 that leaves the counter below the trip
    point. *)
Lemma handle_high_cpu_accumulates cpu players s :
  lock_held (wd s) = false →
  Qle_bool (Qmake 95 1) cpu = true →
  high_cpu_counter (wd s) + 1 < CONTINUOUS_HIGH_CPU cfg →
  ∃ s', handle_high_cpu cfg env cpu players s = Ret [] s'
        ∧ high_cpu_counter (wd s') = high_cpu_counter (wd s) + 1
        ∧ restart_calls (trace s') = restart_calls (trace s)
        ∧ executed (trace s') = executed (trace s)
        ∧ persist_count (trace s') = S (persist_count (trace s)).
Proof.
  intros Hfree Hcpu Hbelow.
  assert (Hlt : (high_cpu_counter (wd s) + 1 >=? CONTINUOUS_HIGH_CPU cfg) = false).
  { rewrite Z.geb_leb. apply Z.leb_gt. lia. }
  unfold handle_high_cpu. rewrite Hcpu.
  unfold bind at 1. unfold modify_wd at 1. unfold bind at 1.
  rewrite save_state_free by (simpl; exact Hfree).
  unfold should_send_alert, bind, get_wd, when, log_admin, set_alert_cooldown,
    now, modify_wd, emit, ret, set_wd.
  cbn -[save_state restart_server Z.max].
  destruct (alert_cooldowns (wd s) !! "high_cpu") as [last|];
    cbn -[save_state restart_server Z.max].
  1: destruct (clock env (reads s) >? _); cbn -[save_state restart_server Z.max].
  all: rewrite Hlt.
  all: eexists; split; [reflexivity|]; simpl; repeat split; tally.
Qed.

(** A CPU reading below 95. *)
Lemma handle_high_cpu_clears cpu players s :
  lock_held (wd s) = false →
  Qle_bool (Qmake 95 1) cpu = false →
  ∃ s', handle_high_cpu cfg env cpu players s
        = Ret (if high_cpu_counter (wd s) >? 0 then ["cpu_normalized"] else []) s'
        ∧ high_cpu_counter (wd s') = Z.min (high_cpu_counter (wd s)) 0
        ∧ restart_calls (trace s') = restart_calls (trace s)
        ∧ executed (trace s') = executed (trace s)
        ∧ (high_cpu_counter (wd s) ≤ 0 → s' = s).
Proof.
  intros Hfree Hcpu.
  unfold handle_high_cpu. rewrite Hcpu. unfold bind at 1. unfold get_wd at 1.
  destruct (high_cpu_counter (wd s) >? 0) eqn:Hpos.
  - apply Z.gtb_lt in Hpos.
    unfold bind at 1. unfold modify_wd at 1. unfold bind at 1.
    rewrite save_state_free by (simpl; exact Hfree).
    unfold should_send_alert, bind, get_wd, when, log_admin, set_alert_cooldown,
      now, modify_wd, emit, ret, set_wd.
    cbn -[save_state restart_server].
    destruct (alert_cooldowns (wd s) !! "cpu_normalized") as [last|];
      cbn -[save_state restart_server].
    1: destruct (clock env (reads s) >? _); cbn -[save_state restart_server].
    all: eexists; split; [reflexivity|]; simpl; repeat split; try tally; lia.
  - rewrite Z.gtb_ltb in Hpos. apply Z.ltb_ge in Hpos.
    unfold ret. eexists. split; [reflexivity|]. repeat split. lia.
Qed.

(** While the lock is taken, a call of [restart_server] waits at the lock:
    nothing is run and the watchdog object is not touched. *)
Lemma restart_server_waits_for_lock r s :
  lock_held (wd s) = true →
  restart_server cfg env r s
  = Hang {| wd := wd s; limiter := limiter s; reads := reads s; execs := execs s;
            trace := (trace s ++ [EvRestartServer r])%list |}.
Proof.
  intros Hheld. unfold restart_server, acquire, bind, emit. simpl. by rewrite Hheld.
Qed.


(** *** The success path *)

Lemma restart_server_blocks_after_start r s c_stop c_start :
  lock_held (wd s) = false →
  safe_subprocess_gate ["systemctl"; "stop"; SATISFACTORY_SERVICE cfg] = Some c_stop →
  safe_subprocess_gate ["systemctl"; "start"; SATISFACTORY_SERVICE cfg] = Some c_start →
  failed (run env (execs s) c_stop) = false →
  failed (run env (S (execs s)) c_start) = false →
  ∃ s', restart_server cfg env r s = Hang s'
        ∧ lock_held (wd s') = true
        ∧ restart_count (wd s') = restart_count (wd s) + 1
        ∧ restart_history (wd s')
          = deque_append (restart_history (wd s))
              {| timestamp := TsIso (clock env (reads s)); reason := r;
                 restart_number := restart_count (wd s) + 1 |}
        ∧ executed (trace s') = (executed (trace s) ++ [c_stop; c_start])%list
        ∧ persist_count (trace s') = persist_count (trace s).
Proof.
  intros Hfree Hstop Hstart Hok1 Hok2.
  unfold restart_server, start_and_record, acquire, safe_systemctl, safe_subprocess.
  rewrite Hstop, Hstart.
  unfold log_admin, sleep, release, now, bind, modify_wd, get_wd, emit, ret, when, set_wd.
  cbn -[save_state]. rewrite Hfree. cbn -[save_state]. rewrite Hok1.
  cbn -[save_state]. rewrite Hok2. cbn -[save_state].
  rewrite save_state_taken by reflexivity.
  eexists. split; [reflexivity|]. simpl. repeat split; tally.
Qed.

(** *** Runs made while the lock is taken *)

Lemma idle_quiet {A} s (o : outcome A) :
  lock_held (wd (final_state o)) = true →
  executed (trace (final_state o)) = executed (trace s) →
  restart_count (wd (final_state o)) = restart_count (wd s) →
  restart_history (wd (final_state o)) = restart_history (wd s) →
  stays_idle s o.
Proof. intros. unfold stays_idle. cbv zeta. auto. Qed.

Lemma idle_bind {A B} (m : M A) (f : A → M B) s :
  stays_idle s (m s) →
  (∀ a s1, m s = Ret a s1 → lock_held (wd s1) = true → stays_idle s1 (f a s1)) →
  stays_idle s (bind m f s).
Proof.
  intros Hm Hf. unfold bind. destruct (m s) as [a s1|s1] eqn:Em; [|exact Hm].
  destruct Hm as (Hl & He & Hc & Hh). simpl in *.
  destruct (Hf a s1 eq_refl Hl) as (Hl2 & He2 & Hc2 & Hh2).
  unfold stays_idle. cbv zeta. repeat split; congruence.
Qed.

Lemma idle_ret {A} (a : A) s : lock_held (wd s) = true → stays_idle s (ret a s).
Proof. intros. by apply idle_quiet. Qed.

Lemma idle_get_wd s : lock_held (wd s) = true → stays_idle s (get_wd s).
Proof. intros. by apply idle_quiet. Qed.

Lemma idle_modify_wd f s :
  lock_held (wd s) = true →
  (∀ w, lock_held (f w) = lock_held w ∧ restart_count (f w) = restart_count w
        ∧ restart_history (f w) = restart_history w) →
  stays_idle s (modify_wd f s).
Proof.
  intros Hl Hf. destruct (Hf (wd s)) as (H1 & H2 & H3).
  apply idle_quiet; simpl; congruence.
Qed.

Lemma idle_log_admin a p s : lock_held (wd s) = true → stays_idle s (log_admin a p s).
Proof. intros. apply idle_quiet; simpl; try done. tally. Qed.

Lemma idle_save_state s : lock_held (wd s) = true → stays_idle s (save_state s).
Proof. intros Hl. rewrite save_state_taken by exact Hl. by apply idle_quiet. Qed.

Lemma idle_should_send_alert ty s :
  lock_held (wd s) = true → stays_idle s (should_send_alert env ty s).
Proof.
  intros Hl. unfold should_send_alert, bind, get_wd.
  destruct (alert_cooldowns (wd s) !! ty); by apply idle_quiet.
Qed.

Lemma idle_set_alert_cooldown ty s :
  lock_held (wd s) = true → stays_idle s (set_alert_cooldown env ty s).
Proof. intros Hl. by apply idle_quiet. Qed.

Lemma idle_can_restart s : lock_held (wd s) = true → stays_idle s (can_restart env s).
Proof. intros Hl. by apply idle_quiet. Qed.

Lemma idle_restart_server r s :
  lock_held (wd s) = true → stays_idle s (restart_server cfg env r s).
Proof.
  intros Hl. rewrite restart_server_waits_for_lock by exact Hl.
  apply idle_quiet; simpl; try done. tally.
Qed.

Lemma idle_when b m s :
  lock_held (wd s) = true →
  (∀ s1, lock_held (wd s1) = true → stays_idle s1 (m s1)) →
  stays_idle s (when b m s).
Proof. intros Hl Hm. destruct b; [by apply Hm | by apply idle_ret]. Qed.

Ltac idle_step :=
  first
    [ apply idle_ret; assumption | apply idle_get_wd; assumption
    | apply idle_save_state; assumption | apply idle_log_admin; assumption
    | apply idle_should_send_alert; assumption
    | apply idle_set_alert_cooldown; assumption
    | apply idle_can_restart; assumption
    | apply idle_restart_server; assumption
    | apply idle_modify_wd; [assumption | intros ?; repeat split; reflexivity]
    | apply idle_when; [assumption | intros ? ?]
    | apply idle_bind; [|intros ? ? _ ?] ].

Ltac idle_auto :=
  repeat first
    [ idle_step
    | match goal with
      | |- stays_idle _ ((if ?b then _ else _) _) => destruct b
      end ].

Lemma handle_server_down_idle s :
  lock_held (wd s) = true → stays_idle s (handle_server_down cfg env s).
Proof. intros Hl. unfold handle_server_down. idle_auto. Qed.

Lemma handle_high_memory_idle mb s :
  lock_held (wd s) = true → stays_idle s (handle_high_memory cfg env mb s).
Proof. intros Hl. unfold handle_high_memory. idle_auto. Qed.

Lemma handle_high_cpu_idle cpu players s :
  lock_held (wd s) = true → stays_idle s (handle_high_cpu cfg env cpu players s).
Proof. intros Hl. unfold handle_high_cpu. idle_auto. Qed.

Lemma patrol_idle status s :
  lock_held (wd s) = true → stays_idle s (patrol cfg env status s).
Proof.
  intros Hl. unfold patrol.
  destruct (status_error status); [by apply idle_ret|].
  destruct (_ || _); [by apply handle_server_down_idle|].
  apply idle_bind; [by apply idle_get_wd | intros w s1 _ Hl1].
  apply idle_bind; [idle_auto | intros [] s2 _ Hl2].
  destruct (pid_truthy _); [|by apply idle_ret].
  apply idle_bind; [by apply handle_high_memory_idle | intros ma s3 _ Hl3].
  apply idle_bind; [by apply handle_high_cpu_idle | intros ca s4 _ Hl4].
  by apply idle_ret.
Qed.

Lemma force_restart_cmd_idle user permitted s :
  lock_held (wd s) = true → stays_idle s (force_restart_cmd cfg env user permitted s).
Proof.
  intros Hl. unfold force_restart_cmd.
  apply idle_bind.
  - unfold check_global_rate, bind, now. by apply idle_quiet.
  - intros allowed s1 _ Hl1. idle_auto.
Qed.


(** *** The interactive trigger *)

Lemma force_restart_cmd_unfold user permitted s :
  let verdict := allow (clock env (reads s)) user (limiter s) in
  let s1 := {| wd := wd s; limiter := snd verdict; reads := S (reads s);
               execs := execs s; trace := trace s |} in
  force_restart_cmd cfg env user permitted s
  = if negb (fst verdict) then Ret ReplyRateLimited s1
    else if negb permitted then Ret ReplyNoPermission s1
    else match restart_server cfg env (ReasonForceRestart user)
                 {| wd := wd s; limiter := snd verdict; reads := S (reads s);
                    execs := execs s;
                    trace := (trace s ++ [EvAlert (AlertForceRestart user) false])%list |}
         with
         | Ret b s' => Ret (if b then ReplyRestartDone else ReplyRestartFailed) s'
         | Hang s' => Hang s'
         end.
Proof.
  cbv zeta. unfold force_restart_cmd, check_global_rate, bind, now, log_admin, emit, ret.
  cbn [reads limiter wd execs trace].
  destruct (fst (allow (clock env (reads s)) user (limiter s))); cbn [negb];
    [|reflexivity].
  destruct permitted; cbn [negb]; [|reflexivity].
  destruct (restart_server cfg env _ _) as [[] s'|s']; reflexivity.
Qed.

Lemma force_restart_cmd_gate user permitted s :
  let verdict := allow (clock env (reads s)) user (limiter s) in
  let o := force_restart_cmd cfg env user permitted s in
  limiter (final_state o) = snd verdict
  ∧ restart_calls (trace (final_state o))
    = (restart_calls (trace s) + if fst verdict && permitted then 1 else 0)%nat
  ∧ (fst verdict = false →
     ∃ s', o = Ret ReplyRateLimited s' ∧ wd s' = wd s ∧ trace s' = trace s)
  ∧ (fst verdict = true → permitted = false →
     ∃ s', o = Ret ReplyNoPermission s' ∧ wd s' = wd s ∧ trace s' = trace s).
Proof.
  intros verdict o. subst o. rewrite force_restart_cmd_unfold. fold verdict.
  destruct (fst verdict) eqn:Hv; cbn [negb andb].
  - destruct permitted; cbn [negb].
    + match goal with
      | |- context [restart_server cfg env ?r ?s1] =>
          pose proof (restart_server_outcome cfg env r s1) as Hout;
          destruct (restart_server cfg env r s1) as [b s2|s2]
      end.
      * destruct Hout as (-> & _ & _ & Hlim & _ & Hcalls).
        cbn [trace] in Hcalls. rewrite restart_calls_app in Hcalls.
        change (restart_calls [EvAlert (AlertForceRestart user) false])
          with 0%nat in Hcalls.
        cbn [limiter] in Hlim. cbn [final_state].
        repeat split; try discriminate; [exact Hlim | tally].
      * destruct Hout as (Hlim & _ & Hcalls).
        cbn [trace] in Hcalls. rewrite restart_calls_app in Hcalls.
        change (restart_calls [EvAlert (AlertForceRestart user) false])
          with 0%nat in Hcalls.
        cbn [limiter] in Hlim. cbn [final_state].
        repeat split; try discriminate; [exact Hlim | tally].
    + simpl. repeat split; try discriminate; try tally.
      intros _ _. eexists. repeat split.
  - simpl. repeat split; try discriminate; try tally.
    intros _. eexists. repeat split.
Qed.

End MoreWatchdogFacts.

(** X12. The restart history never outgrows its capacity of ten entries,
    neither when it is loaded from the store nor when a restart is recorded,
    and the entry just recorded is its newest one. *)
Theorem restart_history_keeps_capacity (cfg : Config) (persisted : option Snapshot)
    (t : Z) (r : Reason) (w : ServerWatchdog) :
  (List.length (restart_history (ServerWatchdog_init cfg persisted)) ≤ 10)%nat
  ∧ (List.length (restart_history (record_restart t r w)) ≤ 10)%nat
  ∧ last (restart_history (record_restart t r w))
    = Some {| timestamp := TsIso t; reason := r; restart_number := restart_count w + 1 |}.
Proof.
  repeat split.
  - apply deque_of_list_length.
  - apply deque_of_list_length.
  - apply deque_append_last.
Qed.

(** X13. What [save_state] stores is what [load_state] brings back: a
    watchdog built over the stored dictionary of a watchdog whose history
    holds at most ten entries would store the same dictionary again; the
    alert cooldowns are not part of it and start empty. *)
Theorem watchdog_state_round_trip (cfg : Config) (w : ServerWatchdog) :
  (List.length (restart_history w) ≤ 10)%nat →
  let w' := ServerWatchdog_init cfg (Some (snapshot_of w)) in
  snapshot_of w' = snapshot_of w ∧ alert_cooldowns w' = ∅.
Proof.
  intros Hlen. unfold ServerWatchdog_init, snapshot_of. simpl.
  rewrite deque_of_list_short by exact Hlen. split; reflexivity.
Qed.

Lemma watchdog_state_round_trip_witness :
  snapshot_of (ServerWatchdog_init default_config
                 (Some (snapshot_of (wd exhausted_watchdog))))
  = snapshot_of (wd exhausted_watchdog).
Proof.
  refine (proj1 (watchdog_state_round_trip default_config (wd exhausted_watchdog) _)).
  vm_compute. lia.
Defined.

(** X14. An alert type whose cooldown has just been set is suppressed while
    the next clock reading is at most [alert_cooldown_minutes] later, and
    is sent again once the reading is strictly later than that; an alert
    type that has no cooldown yet is not held back by the cooldown of
    another type. *)
Theorem alert_cooldown_suppresses_repeats (env : Env) (alert_type : string) (s : State) :
  let asked := (set_alert_cooldown env alert_type ;; should_send_alert env alert_type) s in
  let t_set := clock env (reads s) in
  let t_ask := clock env (S (reads s)) in
  let cooldown := alert_cooldown_minutes (wd s) * usec_per_minute in
  (t_ask ≤ t_set + cooldown → ∃ s', asked = Ret false s')
  ∧ (t_set + cooldown < t_ask → ∃ s', asked = Ret true s')
  ∧ ∀ other, other ≠ alert_type → alert_cooldowns (wd s) !! other = None →
      ∃ s', (set_alert_cooldown env alert_type ;; should_send_alert env other) s
            = Ret true s'.
Proof.
  cbv zeta. rewrite cooldown_then_ask. repeat split.
  - intros H. eexists. f_equal. rewrite Z.gtb_ltb. apply Z.ltb_ge. lia.
  - intros H. eexists. f_equal. apply Z.gtb_lt. lia.
  - intros other Hne Hnone. rewrite (cooldown_other_type env alert_type other s Hne Hnone).
    eexists. reflexivity.
Qed.

Lemma alert_cooldown_suppresses_repeats_witness :
  ∃ s', (set_alert_cooldown env_all_ok "server_down" ;;
         should_send_alert env_all_ok "server_down") fresh_watchdog
        = Ret false s'.
Proof.
  pose proof (alert_cooldown_suppresses_repeats env_all_ok "server_down" fresh_watchdog)
    as H.
  cbv zeta in H. destruct H as [H _]. apply H. vm_compute. discriminate.
Defined.

(** X15. A patrol that finds the server down while the counter stays below
    SERVER_DOWN_THRESHOLD only counts: the counter goes up by one and is
    written to the store once, no restart is asked for, no command is run
    and no action is reported. *)
Theorem handle_server_down_below_threshold_only_counts
    (cfg : Config) (env : Env) (s : State) :
  lock_held (wd s) = false →
  down_counter (wd s) + 1 < SERVER_DOWN_THRESHOLD cfg →
  ∃ s', handle_server_down cfg env s = Ret [] s'
        ∧ down_counter (wd s') = down_counter (wd s) + 1
        ∧ restart_calls (trace s') = restart_calls (trace s)
        ∧ executed (trace s') = executed (trace s)
        ∧ persist_count (trace s') = S (persist_count (trace s)).
Proof. apply handle_server_down_counts. Qed.

Lemma handle_server_down_below_threshold_only_counts_witness :
  ∃ s', handle_server_down default_config env_all_ok fresh_watchdog = Ret [] s'
        ∧ down_counter (wd s') = 1.
Proof.
  destruct (handle_server_down_below_threshold_only_counts default_config env_all_ok
              fresh_watchdog) as (s' & H1 & H2 & _).
  - reflexivity.
  - vm_compute. reflexivity.
  - exists s'. split; [exact H1 | rewrite H2; reflexivity].
Defined.

(** X16. At or above the threshold with the restart budget used up at every
    clock reading the handler makes, the server is left down: the handler
    asks for no restart and runs no command, reports restart_rate_limited,
    and its last message is the restart-limit alert with the owner
    pinged. *)
Theorem handle_server_down_over_budget_leaves_server_down
    (cfg : Config) (env : Env) (s : State) :
  lock_held (wd s) = false →
  SERVER_DOWN_THRESHOLD cfg ≤ down_counter (wd s) + 1 →
  (∀ n, (reads s ≤ n ≤ reads s + 2)%nat →
        can_restart_at (clock env n) (wd s) = false) →
  ∃ s', handle_server_down cfg env s = Ret ["restart_rate_limited"] s'
        ∧ down_counter (wd s') = down_counter (wd s) + 1
        ∧ restart_calls (trace s') = restart_calls (trace s)
        ∧ executed (trace s') = executed (trace s)
        ∧ last (trace s') = Some (EvAlert AlertRestartLimit true).
Proof. apply handle_server_down_rate_limited. Qed.

Lemma handle_server_down_over_budget_leaves_server_down_witness :
  ∃ s', handle_server_down default_config env_all_ok exhausted_and_down
        = Ret ["restart_rate_limited"] s'
        ∧ down_counter (wd s') = 3.
Proof.
  destruct (handle_server_down_over_budget_leaves_server_down default_config env_all_ok
              exhausted_and_down) as (s' & H1 & H2 & _).
  - reflexivity.
  - vm_compute. discriminate.
  - intros n Hn. change (reads exhausted_and_down) with 0%nat in Hn.
    assert (Hcases : n = 0%nat ∨ n = 1%nat ∨ n = 2%nat) by lia.
    destruct Hcases as [-> | [-> | ->]]; vm_compute; reflexivity.
  - exists s'. split; [exact H1 | rewrite H2; reflexivity].
Defined.

(** X17. A memory reading at or above MEMORY_LEAK_THRESHOLD is acted on at
    once, whatever the memory counter: [restart_server] is called exactly
    when the restart budget allows it at the handler's clock reading, and
    when it does not the watchdog object is left as it was and
    restart_rate_limited_memory is reported. *)
Theorem handle_high_memory_acts_on_first_reading
    (cfg : Config) (env : Env) (mb : Z) (s : State) :
  MEMORY_LEAK_THRESHOLD cfg ≤ mb →
  let o := handle_high_memory cfg env mb s in
  restart_calls (trace (final_state o))
  = (restart_calls (trace s)
     + if can_restart_at (clock env (reads s)) (wd s) then 1 else 0)%nat
  ∧ (can_restart_at (clock env (reads s)) (wd s) = false →
     ∃ s', o = Ret ["restart_rate_limited_memory"] s'
           ∧ wd s' = wd s ∧ executed (trace s') = executed (trace s)).
Proof. apply handle_high_memory_trips_at_once. Qed.

Lemma handle_high_memory_acts_on_first_reading_witness :
  ∃ s', handle_high_memory default_config env_all_ok 12000 exhausted_watchdog
        = Ret ["restart_rate_limited_memory"] s'
        ∧ wd s' = wd exhausted_watchdog.
Proof.
  pose proof (handle_high_memory_acts_on_first_reading default_config env_all_ok 12000
                exhausted_watchdog) as H.
  cbv zeta in H. destruct H as [_ H].
  - vm_compute. discriminate.
  - destruct H as (s' & H1 & H2 & _); [vm_compute; reflexivity|].
    exists s'. split; [exact H1 | exact H2].
Defined.

(** X18. A memory reading below MEMORY_LEAK_THRESHOLD never leads to a
    restart or to a command: in the warning band the counter goes up by one
    (and is not written to the store), below the band a positive counter is
    set back to 0. *)
Theorem handle_high_memory_below_limit_only_counts
    (cfg : Config) (env : Env) (mb : Z) (s : State) :
  lock_held (wd s) = false →
  mb < MEMORY_LEAK_THRESHOLD cfg →
  ∃ acts s', handle_high_memory cfg env mb s = Ret acts s'
        ∧ high_memory_counter (wd s')
          = (if Qle_bool (memory_warning_threshold (wd s)) (inject_Z mb)
             then high_memory_counter (wd s) + 1
             else Z.min (high_memory_counter (wd s)) 0)
        ∧ restart_calls (trace s') = restart_calls (trace s)
        ∧ executed (trace s') = executed (trace s)
        ∧ (Qle_bool (memory_warning_threshold (wd s)) (inject_Z mb) = true →
           persist_count (trace s') = persist_count (trace s)).
Proof.
  intros Hfree Hbelow.
  destruct (Qle_bool (memory_warning_threshold (wd s)) (inject_Z mb)) eqn:Hwarn.
  - destruct (handle_high_memory_warns cfg env mb s Hbelow Hwarn)
      as (acts & s' & H1 & H2 & H3 & H4 & H5).
    exists acts, s'. by auto.
  - destruct (handle_high_memory_clears cfg env mb s Hfree Hbelow Hwarn)
      as (s' & H1 & H2 & H3 & H4).
    eexists _, s'. repeat split; try eassumption. discriminate.
Qed.

Lemma handle_high_memory_below_limit_only_counts_witness :
  ∃ acts s', handle_high_memory default_config env_all_ok 10000 fresh_watchdog
             = Ret acts s'
             ∧ high_memory_counter (wd s') = 1.
Proof.
  destruct (handle_high_memory_below_limit_only_counts default_config env_all_ok 10000
              fresh_watchdog) as (acts & s' & H1 & H2 & _).
  - reflexivity.
  - vm_compute. reflexivity.
  - exists acts, s'. split; [exact H1 | rewrite H2; vm_compute; reflexivity].
Defined.

(** X19. A CPU reading that does not bring the counter to
    CONTINUOUS_HIGH_CPU never leads to a restart or to a command: at 95
    percent or more the counter goes up by one, below 95 percent a positive
    counter is set back to 0. *)
Theorem handle_high_cpu_below_trip_only_counts
    (cfg : Config) (env : Env) (cpu : Q) (players : Z) (s : State) :
  lock_held (wd s) = false →
  (Qle_bool (Qmake 95 1) cpu = true →
   high_cpu_counter (wd s) + 1 < CONTINUOUS_HIGH_CPU cfg) →
  ∃ acts s', handle_high_cpu cfg env cpu players s = Ret acts s'
        ∧ high_cpu_counter (wd s')
          = (if Qle_bool (Qmake 95 1) cpu
             then high_cpu_counter (wd s) + 1
             else Z.min (high_cpu_counter (wd s)) 0)
        ∧ restart_calls (trace s') = restart_calls (trace s)
        ∧ executed (trace s') = executed (trace s).
Proof.
  intros Hfree Hbelow.
  destruct (Qle_bool (Qmake 95 1) cpu) eqn:Hcpu.
  - destruct (handle_high_cpu_accumulates cfg env cpu players s Hfree Hcpu (Hbelow eq_refl))
      as (s' & H1 & H2 & H3 & H4 & _).
    eexists _, s'. by auto.
  - destruct (handle_high_cpu_clears cfg env cpu players s Hfree Hcpu)
      as (s' & H1 & H2 & H3 & H4 & _).
    eexists _, s'. by auto.
Qed.

Lemma handle_high_cpu_below_trip_only_counts_witness :
  ∃ acts s', handle_high_cpu default_config env_all_ok (Qmake 99 1) 0 fresh_watchdog
             = Ret acts s'
             ∧ high_cpu_counter (wd s') = 1.
Proof.
  destruct (handle_high_cpu_below_trip_only_counts default_config env_all_ok (Qmake 99 1) 0
              fresh_watchdog) as (acts & s' & H1 & H2 & _).
  - reflexivity.
  - intros _. vm_compute. reflexivity.
  - exists acts, s'. split; [exact H1 | rewrite H2; vm_compute; reflexivity].
Defined.

(** X20. When the stop and the start both succeed, [restart_server] never
    returns: it waits for ever at [save_state] for the lock it holds itself.
    The stop and the start have been run and the restart is counted and
    recorded in memory, but nothing of it has been written to the store and
    the lock stays taken. *)
Theorem restart_server_blocks_once_server_is_started
    (cfg : Config) (env : Env) (r : Reason) (s : State) (c_stop c_start : list string) :
  lock_held (wd s) = false →
  safe_subprocess_gate ["systemctl"; "stop"; SATISFACTORY_SERVICE cfg] = Some c_stop →
  safe_subprocess_gate ["systemctl"; "start"; SATISFACTORY_SERVICE cfg] = Some c_start →
  failed (run env (execs s) c_stop) = false →
  failed (run env (S (execs s)) c_start) = false →
  ∃ s', restart_server cfg env r s = Hang s'
        ∧ lock_held (wd s') = true
        ∧ restart_count (wd s') = restart_count (wd s) + 1
        ∧ restart_history (wd s')
          = deque_append (restart_history (wd s))
              {| timestamp := TsIso (clock env (reads s)); reason := r;
                 restart_number := restart_count (wd s) + 1 |}
        ∧ executed (trace s') = (executed (trace s) ++ [c_stop; c_start])%list
        ∧ persist_count (trace s') = persist_count (trace s).
Proof. apply restart_server_blocks_after_start. Qed.

Lemma restart_server_blocks_once_server_is_started_witness :
  ∃ s', restart_server default_config env_all_ok ReasonServerOffline fresh_watchdog
        = Hang s'
        ∧ lock_held (wd s') = true.
Proof.
  destruct (restart_server_blocks_once_server_is_started default_config env_all_ok
              ReasonServerOffline fresh_watchdog
              ["systemctl"; "stop"; "satisfactory.service"]
              ["systemctl"; "start"; "satisfactory.service"])
    as (s' & H1 & H2 & _).
  - reflexivity.
  - vm_compute. reflexivity.
  - vm_compute. reflexivity.
  - vm_compute. reflexivity.
  - vm_compute. reflexivity.
  - exists s'. split; [exact H1 | exact H2].
Defined.

(** X22. [force_restart_cmd] asks the rate limiter first and the permission
    second: the limiter records the call in every case, [restart_server] is
    called exactly when both agree, and a caller turned away by either
    leaves the watchdog and the log untouched. *)
Theorem force_restart_cmd_checks_rate_then_permission
    (cfg : Config) (env : Env) (user : Z) (permitted : bool) (s : State) :
  let verdict := allow (clock env (reads s)) user (limiter s) in
  let o := force_restart_cmd cfg env user permitted s in
  limiter (final_state o) = snd verdict
  ∧ restart_calls (trace (final_state o))
    = (restart_calls (trace s) + if fst verdict && permitted then 1 else 0)%nat
  ∧ (fst verdict = false →
     ∃ s', o = Ret ReplyRateLimited s' ∧ wd s' = wd s ∧ trace s' = trace s)
  ∧ (fst verdict = true → permitted = false →
     ∃ s', o = Ret ReplyNoPermission s' ∧ wd s' = wd s ∧ trace s' = trace s).
Proof. apply force_restart_cmd_gate. Qed.

Lemma force_restart_cmd_checks_rate_then_permission_witness :
  ∃ s', force_restart_cmd default_config env_all_ok 7 false fresh_watchdog
        = Ret ReplyNoPermission s'
        ∧ wd s' = wd fresh_watchdog ∧ trace s' = trace fresh_watchdog.
Proof.
  pose proof (force_restart_cmd_checks_rate_then_permission default_config env_all_ok
                7 false fresh_watchdog) as H.
  cbv zeta in H. destruct H as (_ & _ & _ & H).
  apply H; [vm_compute; reflexivity | reflexivity].
Defined.

(** ** The commands of the helpers, the optimizer and the manager bot *)

Lemma str_forall_app p a b :
  str_forall p (a ++ b) = str_forall p a && str_forall p b.
Proof.
  induction a as [|c r IH]; [reflexivity|].
  change (str_forall p (String c (r ++ b)) = str_forall p (String c r) && str_forall p b).
  simpl. rewrite IH. apply andb_assoc.
Qed.

Lemma uint_digits d :
  str_forall alnum_char (NilEmpty.string_of_uint d) = true.
Proof. induction d; simpl; try exact IHd; reflexivity. Qed.

Lemma uint_string_shape d :
  str_forall alnum_char (NilZero.string_of_uint d) = true
  ∧ NilZero.string_of_uint d ≠ EmptyString.
Proof.
  destruct d; simpl; try (split; [apply uint_digits | discriminate]).
  split; [reflexivity | discriminate].
Qed.

Lemma str_forall_weaken (p q : ascii → bool) s :
  (∀ c, p c = true → q c = true) → str_forall p s = true → str_forall q s = true.
Proof.
  intros Hpq. induction s as [|c r IH]; [reflexivity|]. simpl.
  intros H. apply andb_true_iff in H as [Hc Hr]. by rewrite (Hpq c Hc), IH.
Qed.

Lemma str_exists_nonempty_forall p s :
  s ≠ EmptyString → str_forall p s = true → str_exists p s = true.
Proof.
  destruct s as [|c r]; [congruence|]. simpl. intros _ H.
  apply andb_true_iff in H as [-> _]. reflexivity.
Qed.

Lemma str_of_int_word z :
  str_forall word_char (str_of_int z) = true
  ∧ str_exists alnum_char (str_of_int z) = true.
Proof.
  unfold str_of_int. destruct (Z.to_int z) as [d|d]; simpl.
  - destruct (uint_string_shape d) as [Hall Hne]. split.
    + eapply str_forall_weaken; [|exact Hall]. intros c Hc. unfold word_char. by rewrite Hc.
    + by apply str_exists_nonempty_forall.
  - destruct (uint_string_shape d) as [Hall Hne]. split.
    + eapply str_forall_weaken; [|exact Hall]. intros c Hc. unfold word_char. by rewrite Hc.
    + by apply str_exists_nonempty_forall.
Qed.

Lemma str_of_int_ok allowed z : standard_arg_ok allowed (str_of_int z) = true.
Proof.
  rewrite standard_arg_ok_words. destruct (str_of_int_word z) as [-> ->].
  apply orb_true_r.
Qed.

Lemma allowed_commands_renice : ALLOWED_COMMANDS !! "renice" = Some ["-n"; "-p"].
Proof. vm_compute. reflexivity. Qed.

Lemma allowed_commands_ionice :
  ALLOWED_COMMANDS !! "ionice"
  = Some ["-c1"; "-c2"; "-c3"; "-n0"; "-n1"; "-n2"; "-n3"; "-n4"; "-n5"; "-n6"; "-n7";
          "-p"].
Proof. vm_compute. reflexivity. Qed.

Lemma allowed_commands_taskset : ALLOWED_COMMANDS !! "taskset" = Some ["-cp"].
Proof. vm_compute. reflexivity. Qed.

Lemma gate_renice z :
  safe_subprocess_gate ["renice"; "-n"; "-5"; "-p"; str_of_int z]
  = Some ["renice"; "-n"; "-5"; "-p"; str_of_int z].
Proof.
  apply gate_verbatim; try discriminate.
  unfold validate_command. rewrite allowed_commands_renice.
  cbn -[standard_arg_ok str_of_int]. rewrite str_of_int_ok. reflexivity.
Qed.

Lemma gate_ionice z :
  safe_subprocess_gate ["ionice"; "-c2"; "-n0"; "-p"; str_of_int z]
  = Some ["ionice"; "-c2"; "-n0"; "-p"; str_of_int z].
Proof.
  apply gate_verbatim; try discriminate.
  unfold validate_command. rewrite allowed_commands_ionice.
  cbn -[standard_arg_ok str_of_int]. rewrite str_of_int_ok. reflexivity.
Qed.

Lemma cpu_list_one : Bots.cpu_list 1 = "0".
Proof. reflexivity. Qed.

Lemma concat_two_or_more sep a b r :
  String.concat sep (a :: b :: r) = a ++ sep ++ String.concat sep (b :: r).
Proof. reflexivity. Qed.

Lemma cpu_list_has_comma n :
  (2 ≤ n)%nat → str_forall word_char (Bots.cpu_list n) = false.
Proof.
  intros Hn. unfold Bots.cpu_list, join.
  destruct n as [|[|n]]; [lia | lia |].
  cbn [seq map]. rewrite concat_two_or_more, !str_forall_app.
  apply andb_false_iff. right. reflexivity.
Qed.

Lemma gate_taskset_one z :
  safe_subprocess_gate ["taskset"; "-cp"; Bots.cpu_list 1; str_of_int z]
  = Some ["taskset"; "-cp"; "0"; str_of_int z].
Proof.
  rewrite cpu_list_one.
  apply gate_verbatim; try discriminate.
  unfold validate_command. rewrite allowed_commands_taskset.
  cbn -[standard_arg_ok str_of_int]. rewrite str_of_int_ok. reflexivity.
Qed.

Lemma gate_taskset_many n z :
  (2 ≤ n)%nat →
  safe_subprocess_gate ["taskset"; "-cp"; Bots.cpu_list n; str_of_int z] = None.
Proof.
  intros Hn. unfold safe_subprocess_gate, validate_command.
  rewrite allowed_commands_taskset.
  cbn -[standard_arg_ok str_of_int Bots.cpu_list].
  assert (Hbad : standard_arg_ok ["-cp"] (Bots.cpu_list n) = false).
  { rewrite standard_arg_ok_words, (cpu_list_has_comma n Hn).
    unfold str_in. cbn [existsb andb]. rewrite !orb_false_r.
    apply String.eqb_neq. intros Heq.
    pose proof (cpu_list_has_comma n Hn) as H. rewrite Heq in H. discriminate H. }
  rewrite Hbad. reflexivity.
Qed.

Section BotsFacts.

Import Bots.
Local Open Scope bots_scope.
Variable env : Env.

Lemma ran_app xs ys : ran (xs ++ ys) = (ran xs ++ ran ys)%list.
Proof. unfold ran. apply omap_app. Qed.

Lemma safe_subprocess_ran cmd c w :
  safe_subprocess_gate cmd = Some c →
  safe_subprocess env cmd w
  = (run env (execs w) c,
     {| limiter := limiter w; reads := reads w; execs := S (execs w);
        trace := (trace w ++ [Ran c])%list |}).
Proof. intros H. unfold safe_subprocess. rewrite H. reflexivity. Qed.

Lemma safe_subprocess_refused cmd w :
  safe_subprocess_gate cmd = None →
  safe_subprocess env cmd w
  = (None, {| limiter := limiter w; reads := reads w; execs := execs w;
              trace := (trace w ++ [Refused cmd])%list |}).
Proof. intros H. unfold safe_subprocess. rewrite H. reflexivity. Qed.

Ltac ran_tally :=
  cbn [fst snd trace]; unfold ran; rewrite ?omap_app; cbn [omap list_omap];
  rewrite ?app_nil_r, <- ?List.app_assoc; first [reflexivity | lia].

Lemma apply_performance_tweaks_given p w :
  p ≠ 0 →
  let renice := ["renice"; "-n"; "-5"; "-p"; str_of_int p] in
  let ionice := ["ionice"; "-c2"; "-n0"; "-p"; str_of_int p] in
  let taskset := ["taskset"; "-cp"; "0"; str_of_int p] in
  let r := apply_performance_tweaks env (Some p) w in
  fst r = succeeded (run env (execs w) renice)
  ∧ ran (trace (snd r))
    = (ran (trace w) ++ [renice; ionice]
       ++ if (cpu_count env =? 1)%nat then [taskset] else [])%list.
Proof.
  intros Hp. cbv zeta. unfold apply_performance_tweaks, found.
  replace (p =? 0) with false by (symmetry; apply Z.eqb_neq; exact Hp).
  unfold bind, ret.
  rewrite (safe_subprocess_ran _ _ w (gate_renice p)).
  rewrite (safe_subprocess_ran _ _ _ (gate_ionice p)).
  destruct (cpu_count env) as [|[|n]] eqn:Ecpu.
  - rewrite (safe_subprocess_refused _ _ (gate_taskset_many 4 p ltac:(lia))).
    cbn [fst snd]. split; [reflexivity|]. ran_tally.
  - rewrite (safe_subprocess_ran _ _ _ (gate_taskset_one p)).
    cbn [fst snd]. split; [reflexivity|]. ran_tally.
  - rewrite (safe_subprocess_refused _ _ (gate_taskset_many (S (S n)) p ltac:(lia))).
    cbn [fst snd]. split; [reflexivity|]. ran_tally.
Qed.


Lemma apply_params_refused params done failed_so_far w :
  apply_params env params done failed_so_far w
  = ((done, (failed_so_far ++ map sysctl_assignment params)%list),
     {| limiter := limiter w; reads := reads w; execs := execs w;
        trace := (trace w
                  ++ map (fun pv => Refused ["sudo"; "sysctl"; "-w"; sysctl_assignment pv])
                         params)%list |}).
Proof.
  revert done failed_so_far w.
  induction params as [|pv rest IH]; intros done failed_so_far w.
  - cbn [apply_params map]. unfold ret. rewrite !app_nil_r. by destruct w.
  - cbn [apply_params map]. unfold bind.
    rewrite (safe_subprocess_refused _ _ (gate_sudo _)).
    cbn [succeeded]. rewrite IH. cbn [limiter reads execs trace].
    by rewrite <- !List.app_assoc.
Qed.

Lemma ran_refused (f : string * string → list string) params :
  ran (map (fun pv => Refused (f pv)) params) = [].
Proof. induction params as [|pv r IH]; [reflexivity|]. exact IH. Qed.

Lemma apply_network_optimizations_outcome w :
  let r := apply_network_optimizations env w in
  applied (fst r) = []
  ∧ failed (fst r) = map sysctl_assignment safe_sysctl_params
  ∧ net_success (fst r) = false
  ∧ ran (trace (snd r)) = ran (trace w)
  ∧ execs (snd r) = execs w.
Proof.
  cbv zeta. unfold apply_network_optimizations, bind, ret.
  rewrite apply_params_refused. cbn [fst snd applied failed net_success trace execs app].
  repeat split.
  rewrite ran_app, ran_refused. apply app_nil_r.
Qed.

(** *** Which commands a procedure can run *)

Lemma runs_only_ret ok {A} (a : A) : runs_only ok (ret a).
Proof. intros w. exists []. by rewrite app_nil_r. Qed.

Lemma runs_only_bind ok {A B} (m : P A) (f : A → P B) :
  runs_only ok m → (∀ a, runs_only ok (f a)) → runs_only ok (bind m f).
Proof.
  intros Hm Hf w. unfold bind.
  destruct (Hm w) as (e1 & H1 & Hok1).
  destruct (m w) as [a w1]. cbn [snd] in H1.
  destruct (Hf a w1) as (e2 & H2 & Hok2).
  exists (e1 ++ e2)%list. split.
  - by rewrite H2, H1, <- List.app_assoc.
  - rewrite forallb_app, Hok1, Hok2. reflexivity.
Qed.

Lemma runs_only_quiet ok {A} (m : P A) :
  (∀ w, ran (trace (snd (m w))) = ran (trace w)) → runs_only ok m.
Proof. intros H w. exists []. by rewrite H, app_nil_r. Qed.

Lemma runs_only_emit ok e :
  (∀ c, e ≠ Ran c) → runs_only ok (emit e).
Proof.
  intros He. apply runs_only_quiet. intros w. unfold emit. cbn [snd trace].
  rewrite ran_app. destruct e; try (cbn; apply app_nil_r). by destruct (He cmd).
Qed.

Lemma runs_only_safe_subprocess ok cmd :
  (∀ c, safe_subprocess_gate cmd = Some c → ok c = true) →
  runs_only ok (safe_subprocess env cmd).
Proof.
  intros H w. destruct (safe_subprocess_gate cmd) as [c|] eqn:Hg.
  - rewrite (safe_subprocess_ran _ _ _ Hg). exists [c]. cbn [snd trace forallb].
    rewrite ran_app, (H c eq_refl). split; reflexivity.
  - rewrite (safe_subprocess_refused _ _ Hg). exists []. cbn [snd trace forallb].
    rewrite ran_app. split; reflexivity.
Qed.

Lemma runs_only_sudo ok args : runs_only ok (safe_subprocess env ("sudo" :: args)).
Proof. apply runs_only_safe_subprocess. intros c. by rewrite gate_sudo. Qed.

Lemma gate_status_query service c :
  safe_subprocess_gate ["systemctl"; "is-active"; service] = Some c →
  status_query c = true.
Proof.
  unfold safe_subprocess_gate. destruct (validate_command _ _); [|discriminate].
  intros [= <-]. reflexivity.
Qed.

Lemma get_satisfactory_performance_runs_only :
  runs_only status_query (get_satisfactory_performance env).
Proof.
  unfold get_satisfactory_performance, safe_systemctl.
  apply runs_only_bind.
  - apply runs_only_safe_subprocess, gate_status_query.
  - intros a. apply runs_only_quiet. reflexivity.
Qed.

Lemma optimize_process_priority_runs_only pid :
  runs_only status_query (optimize_process_priority env pid).
Proof.
  unfold optimize_process_priority. apply runs_only_bind.
  - destruct (found pid).
    + apply runs_only_ret.
    + apply runs_only_bind; [apply get_satisfactory_performance_runs_only|].
      intros a. apply runs_only_ret.
  - intros a. destruct (found a); [|apply runs_only_ret].
    apply runs_only_bind; [apply runs_only_sudo|]. intros r1.
    apply runs_only_bind; [apply runs_only_sudo|]. intros r2.
    apply runs_only_ret.
Qed.

Lemma optimize_process_priority_outcome pid w :
  let r := fst (optimize_process_priority env pid w) in
  proc_success r = false ∧ nice_applied r = false ∧ ionice_applied r = false.
Proof.
  cbv zeta. unfold optimize_process_priority, bind.
  destruct (match found pid with
            | Some p => ret (Some p)
            | None => _
            end w) as [pid' w1].
  destruct (found pid') as [p|]; [|by cbn].
  rewrite (safe_subprocess_refused _ _ (gate_sudo _)).
  rewrite (safe_subprocess_refused _ _ (gate_sudo _)).
  by cbn.
Qed.

Lemma apply_network_optimizations_runs_only ok :
  runs_only ok (apply_network_optimizations env).
Proof.
  apply runs_only_quiet. intros w.
  by destruct (apply_network_optimizations_outcome w) as (_ & _ & _ & H & _).
Qed.

Lemma perform_full_optimization_runs_only history :
  runs_only status_query (perform_full_optimization env history).
Proof.
  unfold perform_full_optimization.
  apply runs_only_bind; [apply apply_network_optimizations_runs_only|]. intros net.
  apply runs_only_bind; [apply get_satisfactory_performance_runs_only|]. intros perf.
  apply runs_only_bind.
  - destruct (found (snd perf)); [|apply runs_only_ret].
    apply runs_only_bind; [apply optimize_process_priority_runs_only|].
    intros r. apply runs_only_ret.
  - intros ok. cbv zeta.
    apply runs_only_bind; [by apply runs_only_emit|]. intros _. apply runs_only_ret.
Qed.

Lemma perform_full_optimization_outcome history w :
  let r := fst (perform_full_optimization env history w) in
  overall_success (fst r) = false
  ∧ process_success (fst r) = false
  ∧ net_success (network_optimization (fst r)) = false
  ∧ snd r = (let h := (history ++ [fst r])%list in
             if (max_history <? List.length h)%nat then tail h else h).
Proof.
  cbv zeta. unfold perform_full_optimization, bind.
  pose proof (apply_network_optimizations_outcome w) as (_ & _ & Hnet & _).
  destruct (apply_network_optimizations env w) as [net w1]. cbn [fst] in Hnet.
  destruct (get_satisfactory_performance env w1) as [perf w2].
  destruct (found (snd perf)) as [p|].
  - pose proof (optimize_process_priority_outcome (Some p) w2) as (Hproc & _).
    destruct (optimize_process_priority env (Some p) w2) as [r w3]. cbn [fst] in Hproc.
    unfold ret, emit. cbn [fst snd overall_success process_success network_optimization].
    rewrite Hnet, Hproc. repeat split.
  - unfold ret, emit. cbn [fst snd overall_success process_success network_optimization].
    rewrite Hnet. repeat split.
Qed.

Lemma history_stays_bounded {A} (h : list A) (x : A) :
  (List.length h ≤ max_history)%nat →
  let h' := (h ++ [x])%list in
  (List.length (if (max_history <? List.length h')%nat then tail h' else h')
   ≤ max_history)%nat.
Proof.
  intros Hh. cbv zeta. destruct (Nat.ltb_spec max_history (List.length (h ++ [x]))) as [H|H].
  - rewrite List.length_app in *. cbn [List.length] in *.
    destruct h as [|y h]; cbn [app tail List.length] in *; [unfold max_history in *; lia|].
    rewrite List.length_app. cbn [List.length]. lia.
  - exact H.
Qed.

(** *** manager_bot.py *)

Lemma allowed_commands_rclone : ALLOWED_COMMANDS !! "rclone" = None.
Proof. vm_compute. reflexivity. Qed.

Lemma gate_rclone args : safe_subprocess_gate ("rclone" :: args) = None.
Proof.
  unfold safe_subprocess_gate, validate_command. by rewrite allowed_commands_rclone.
Qed.

Lemma upload_backup_outcome remote path file w :
  let r := upload_backup env remote path file w in
  fst r = false ∧ ran (trace (snd r)) = ran (trace w) ∧ execs (snd r) = execs w.
Proof.
  cbv zeta. unfold upload_backup. destruct remote as [|c remote]; [by cbn|].
  unfold bind. rewrite (safe_subprocess_refused _ _ (gate_rclone _)).
  cbn [fst snd succeeded ret trace execs]. repeat split.
  rewrite ran_app. apply app_nil_r.
Qed.

Lemma restart_cmd_permitted user w :
  fst (allow (clock env (reads w)) user (limiter w)) = true →
  snd (restart_cmd env user true w)
  = {| limiter := snd (allow (clock env (reads w)) user (limiter w));
       reads := S (reads w); execs := execs w;
       trace := (trace w ++ [Noted (NoteRestartInitiated user) false;
                             Noted NotePublicRestarting false;
                             Refused ["sudo"; "systemctl"; "stop"; SATISFACTORY_SERVICE env];
                             Answered AnswerStopFailed])%list |}.
Proof.
  intros Hallow. unfold restart_cmd, bind, check_global_rate. cbv zeta.
  rewrite Hallow. cbn [negb]. unfold emit at 1 2. cbn [limiter reads execs trace].
  rewrite (safe_subprocess_refused _ _ (gate_sudo _)).
  cbn [succeeded negb]. unfold emit. cbn [snd limiter reads execs trace].
  by rewrite <- !List.app_assoc.
Qed.

Lemma restart_cmd_turned_away user permitted w :
  fst (allow (clock env (reads w)) user (limiter w)) && permitted = false →
  ∃ a, snd (restart_cmd env user permitted w)
       = {| limiter := snd (allow (clock env (reads w)) user (limiter w));
            reads := S (reads w); execs := execs w;
            trace := (trace w ++ [Answered a])%list |}.
Proof.
  intros H. unfold restart_cmd, bind, check_global_rate. cbv zeta.
  destruct (fst (allow (clock env (reads w)) user (limiter w))).
  - cbn [andb] in H. subst permitted. cbn [negb]. by eexists.
  - cbn [negb]. by eexists.
Qed.

Lemma restart_cmd_outcome user permitted w :
  let stop := ["sudo"; "systemctl"; "stop"; SATISFACTORY_SERVICE env] in
  let w' := snd (restart_cmd env user permitted w) in
  ran (trace w') = ran (trace w)
  ∧ execs w' = execs w
  ∧ (fst (allow (clock env (reads w)) user (limiter w)) = true →
     permitted = true →
     trace w'
     = (trace w ++ [Noted (NoteRestartInitiated user) false;
                    Noted NotePublicRestarting false;
                    Refused stop;
                    Answered AnswerStopFailed])%list).
Proof.
  cbv zeta.
  destruct (fst (allow (clock env (reads w)) user (limiter w)) && permitted) eqn:Hb.
  - apply andb_true_iff in Hb as [Hallow ->].
    rewrite (restart_cmd_permitted _ _ Hallow). cbn [trace execs].
    split; [|split; [reflexivity|by intros _ _]].
    rewrite ran_app. apply app_nil_r.
  - destruct (restart_cmd_turned_away _ _ _ Hb) as [a ->]. cbn [trace execs].
    split; [|split; [reflexivity|]].
    + rewrite ran_app. apply app_nil_r.
    + intros H1 H2. rewrite H1, H2 in Hb. discriminate Hb.
Qed.

End BotsFacts.

(** *** safe_filename *)

Lemma name_char_plain c :
  name_char c = true →
  dangerous_char c = false ∧ Ascii.eqb c "/" = false ∧ Ascii.eqb c newline = false.
Proof.
  destruct c as [[] [] [] [] [] [] [] []]; vm_compute; intros H;
    first [discriminate H | repeat split].
Qed.

Lemma newline_plain : dangerous_char newline = false ∧ Ascii.eqb newline "/" = false.
Proof. split; reflexivity. Qed.

Lemma string_app_cons c (r b : string) : String c r ++ b = String c (r ++ b).
Proof. reflexivity. Qed.

Lemma matches_name_shape s :
  matches_name s = true ↔
  ∃ body, body ≠ EmptyString ∧ str_forall name_char body = true
          ∧ (s = body ∨ s = body ++ String newline EmptyString).
Proof.
  split.
  - induction s as [|c r IH]; [discriminate|].
    cbn [matches_name]. intros H. apply andb_true_iff in H as [Hc Hr].
    destruct r as [|d r'].
    + exists (String c EmptyString). cbn [str_forall]. rewrite Hc. by auto.
    + assert (Hcase : (r' = EmptyString ∧ Ascii.eqb d newline = true)
                      ∨ matches_name (String d r') = true).
      { destruct r'; [apply orb_true_iff in Hr as [Hr|Hr]|]; auto. }
      destruct Hcase as [[-> Hd]|Hm].
      * apply Ascii.eqb_eq in Hd. subst d.
        exists (String c EmptyString). cbn [str_forall]. rewrite Hc. by auto.
      * destruct (IH Hm) as (body & Hne & Hall & Hs).
        exists (String c body). cbn [str_forall]. rewrite Hc, Hall.
        split; [discriminate|]. split; [reflexivity|].
        destruct Hs as [->| ->]; auto.
  - intros (body & Hne & Hall & Hs).
    assert (Hboth : matches_name body = true
                    ∧ matches_name (body ++ String newline EmptyString) = true).
    { clear Hs. induction body as [|c b IH]; [congruence|].
      cbn [str_forall] in Hall. apply andb_true_iff in Hall as [Hc Hb].
      destruct b as [|d b'].
      - rewrite string_app_cons. cbn [matches_name append]. rewrite Hc. split; reflexivity.
      - destruct (IH ltac:(discriminate) Hb) as [H1 H2].
        rewrite !string_app_cons in *.
        split.
        + change (name_char c && match String d b' with
                                 | EmptyString => true
                                 | String e EmptyString => Ascii.eqb e newline || matches_name (String d b')
                                 | _ => matches_name (String d b')
                                 end = true).
          rewrite Hc. destruct b'; [|exact H1]. rewrite H1. apply orb_true_r.
        + change (name_char c && match String d (b' ++ String newline EmptyString) with
                                 | EmptyString => true
                                 | String e EmptyString =>
                                     Ascii.eqb e newline
                                     || matches_name (String d (b' ++ String newline EmptyString))
                                 | _ => matches_name (String d (b' ++ String newline EmptyString))
                                 end = true).
          rewrite Hc. destruct b'; exact H2. }
    destruct Hs as [-> | ->]; apply Hboth.
Qed.

Lemma contains_char_app c (a b : string) :
  contains_char c (a ++ b) = contains_char c a || contains_char c b.
Proof.
  induction a as [|d r IH]; [reflexivity|].
  rewrite string_app_cons. cbn [contains_char]. rewrite IH. apply orb_assoc.
Qed.

Lemma contains_char_forall p c s :
  (∀ d, p d = true → Ascii.eqb d c = false) →
  str_forall p s = true → contains_char c s = false.
Proof.
  intros Hp. induction s as [|d r IH]; [reflexivity|].
  cbn [str_forall contains_char]. intros H. apply andb_true_iff in H as [Hd Hr].
  by rewrite (Hp d Hd), IH.
Qed.

Lemma basename_no_slash path : contains_char "/" (basename path) = false.
Proof.
  induction path as [|c r IH]; [reflexivity|].
  cbn [basename]. destruct (contains_char "/" (String c r)) eqn:H; [exact IH | exact H].
Qed.

Lemma basename_plain path : contains_char "/" path = false → basename path = path.
Proof. destruct path as [|c r]; [reflexivity|]. cbn [basename]. by intros ->. Qed.

Lemma basename_app dir name :
  contains_char "/" name = false → basename (dir ++ "/" ++ name) = name.
Proof.
  intros Hname. induction dir as [|c d IH].
  - change (basename (String "/" name) = name). cbn [basename contains_char].
    rewrite Ascii.eqb_refl. cbn [orb]. by apply basename_plain.
  - rewrite string_app_cons. cbn [basename].
    replace (contains_char "/" (String c (d ++ "/" ++ name))) with true; [exact IH|].
    symmetry. cbn [contains_char]. rewrite contains_char_app.
    change (contains_char "/" ("/" ++ name)) with true.
    rewrite !orb_true_r. reflexivity.
Qed.

Lemma remove_chars_plain drop s :
  str_forall (fun c => negb (drop c)) s = true → remove_chars drop s = s.
Proof.
  induction s as [|c r IH]; [reflexivity|].
  cbn [str_forall remove_chars]. intros H. apply andb_true_iff in H as [Hc Hr].
  apply negb_true_iff in Hc. by rewrite Hc, IH.
Qed.

Lemma remove_chars_no_slash drop s :
  contains_char "/" s = false → contains_char "/" (remove_chars drop s) = false.
Proof.
  induction s as [|c r IH]; [reflexivity|].
  cbn [contains_char remove_chars]. intros H. apply orb_false_iff in H as [Hc Hr].
  destruct (drop c); [by apply IH|]. cbn [contains_char]. by rewrite Hc, IH.
Qed.

(** A name the pattern accepts holds no slash and no character the
    clean-up removes. *)
Lemma accepted_name_plain s :
  matches_name s = true →
  contains_char "/" s = false
  ∧ str_forall (fun c => negb (dangerous_char c)) s = true
  ∧ s ≠ EmptyString.
Proof.
  intros H. apply matches_name_shape in H as (body & Hne & Hall & Hs).
  assert (Hslash : contains_char "/" body = false).
  { eapply contains_char_forall; [|exact Hall]. intros d Hd. by apply name_char_plain. }
  assert (Hsafe : str_forall (fun c => negb (dangerous_char c)) body = true).
  { eapply str_forall_weaken; [|exact Hall]. intros d Hd.
    apply negb_true_iff. by apply name_char_plain. }
  destruct Hs as [-> | ->].
  - by auto.
  - rewrite contains_char_app, str_forall_app, Hslash, Hsafe. repeat split.
    by destruct body.
Qed.

Lemma safe_filename_some filename s :
  safe_filename filename = Some s →
  filename ≠ EmptyString
  ∧ s = remove_chars dangerous_char (basename filename)
  ∧ matches_name s = true
  ∧ (String.length s ≤ 100)%nat.
Proof.
  unfold safe_filename. destruct filename as [|c r]; [discriminate|].
  cbv zeta. destruct (matches_name _) eqn:Hm; [|discriminate]. cbn [negb].
  destruct (Nat.ltb_spec 100 (String.length (remove_chars dangerous_char (basename (String c r)))))
    as [Hl|Hl]; [discriminate|].
  intros [= <-]. by auto.
Qed.

Lemma safe_filename_accepts s :
  matches_name s = true → (String.length s ≤ 100)%nat → safe_filename s = Some s.
Proof.
  intros Hm Hl. destruct (accepted_name_plain s Hm) as (Hslash & Hsafe & Hne).
  unfold safe_filename. destruct s as [|c r]; [congruence|]. cbv zeta.
  rewrite (basename_plain _ Hslash), (remove_chars_plain _ _ Hsafe), Hm. cbn [negb].
  by replace (100 <? String.length (String c r))%nat with false
    by (symmetry; apply Nat.ltb_ge; exact Hl).
Qed.

(** ** A patrol as a whole *)

Import WatchdogPatrol.

Section PatrolFacts.

Variable cfg : Config.
Variable env : Env.

Lemma read_clock_outcome n s :
  read_clock env n s
  = Ret tt {| wd := wd s; limiter := limiter s; reads := (n + reads s)%nat;
              execs := execs s; trace := trace s |}.
Proof.
  revert s. induction n as [|k IH]; intros s.
  - by destruct s.
  - cbn [read_clock]. unfold bind, now. rewrite IH. cbn [wd limiter reads execs trace].
    by replace (k + S (reads s))%nat with (S k + reads s)%nat by lia.
Qed.

(** The sampling always returns; it may run the status query, twice at
    most, notes whether the process was found, and touches nothing else of
    the watchdog object, the lock least of all. *)
Lemma check_server_status_outcome scan s :
  ∃ status s1 queries,
    check_server_status cfg env scan s = Ret status s1
    ∧ performance status = sample scan
    ∧ lock_held (wd s1) = lock_held (wd s)
    ∧ restart_count (wd s1) = restart_count (wd s)
    ∧ restart_history (wd s1) = restart_history (wd s)
    ∧ server_was_running (wd s1) = pid_truthy (sample scan)
    ∧ executed (trace s1) = (executed (trace s) ++ queries)%list
    ∧ forallb Bots.status_query queries = true
    ∧ (List.length queries ≤ 2)%nat.
Proof.
  unfold check_server_status, get_satisfactory_performance, safe_systemctl,
    safe_subprocess.
  destruct (safe_subprocess_gate ["systemctl"; "is-active"; SATISFACTORY_SERVICE cfg])
    as [c|] eqn:Hg.
  - pose proof (gate_status_query _ _ Hg) as Hq.
    unfold bind, now, when, modify_wd, get_wd, ret, set_wd, emit.
    cbn [wd limiter reads execs trace]. rewrite read_clock_outcome.
    cbn [wd limiter reads execs trace].
    destruct (pid_truthy (sample scan)) eqn:Hpid;
      cbn [wd limiter reads execs trace];
      (exists {| status_error := false;
                 service_active :=
                   match run env (execs s) c with
                   | Some r => String.eqb (strip (stdout r)) "active"
                   | None => false
                   end;
                 performance := sample scan |});
      eexists; exists [c; c]; (split; [reflexivity|]);
      cbn [forallb]; rewrite Hq;
      repeat split;
      first [ reflexivity | cbn; lia
            | cbn [trace]; rewrite !executed_app, <- ?List.app_assoc; cbn;
              by rewrite ?app_nil_r ].
  - unfold bind, now, when, modify_wd, get_wd, ret, set_wd, emit.
    cbn [wd limiter reads execs trace]. rewrite read_clock_outcome.
    cbn [wd limiter reads execs trace].
    destruct (pid_truthy (sample scan)) eqn:Hpid;
      cbn [wd limiter reads execs trace];
      (exists {| status_error := false; service_active := false;
                 performance := sample scan |});
      eexists; exists []; (split; [reflexivity|]);
      repeat split;
      first [ reflexivity | cbn; lia
            | cbn [trace]; rewrite !executed_app, <- ?List.app_assoc; cbn;
              by rewrite ?app_nil_r ].
Qed.

End PatrolFacts.

(** X21. While the lock is taken, a patrol does nothing to the server beyond
    its sampling and a forced restart does nothing at all. The only commands
    a patrol runs are the status queries of [check_server_status], two at
    most; neither of the two runs a stop or a start, the restart count and
    the restart history stay as they are, and the lock is still taken
    afterwards. *)
Theorem locked_watchdog_stays_idle
    (cfg : Config) (env : Env) (scan : Scan) (user : Z) (permitted : bool)
    (s : State) :
  lock_held (wd s) = true →
  let s' := final_state (patrol_task cfg env scan s) in
  (lock_held (wd s') = true
   ∧ restart_count (wd s') = restart_count (wd s)
   ∧ restart_history (wd s') = restart_history (wd s)
   ∧ ∃ queries, executed (trace s') = (executed (trace s) ++ queries)%list
                ∧ forallb Bots.status_query queries = true
                ∧ (List.length queries ≤ 2)%nat)
  ∧ stays_idle s (force_restart_cmd cfg env user permitted s).
Proof.
  intros Hl. cbv zeta. split; [|by apply force_restart_cmd_idle].
  unfold patrol_task, bind.
  destruct (check_server_status_outcome cfg env scan s)
    as (status & s1 & queries & -> & _ & Hl1 & Hc & Hh & _ & He & Hq & Hn).
  destruct (patrol_idle cfg env status s1) as (Hl2 & He2 & Hc2 & Hh2);
    [congruence|].
  repeat split; try congruence.
  exists queries. rewrite He2, He. by auto.
Qed.

Lemma locked_watchdog_stays_idle_witness :
  executed (trace (final_state
                     (patrol_task default_config env_all_ok scan_found stuck_watchdog)))
  = (executed (trace stuck_watchdog)
     ++ [["systemctl"; "is-active"; "satisfactory.service"];
         ["systemctl"; "is-active"; "satisfactory.service"]])%list.
Proof.
  pose proof (locked_watchdog_stays_idle default_config env_all_ok scan_found 7 true
                stuck_watchdog) as H.
  cbv zeta in H. destruct H as [(_ & _ & _ & queries & He & _) _].
  - vm_compute. reflexivity.
  - vm_compute. reflexivity.
Defined.


Import Bots.

(** X23. For a process id that is given, [apply_performance_tweaks] runs
    renice and ionice on it; the taskset call is run only on a machine with
    one CPU, since with more the comma-separated CPU list is refused by
    [validate_command] (four CPUs are assumed when the count is unknown).
    The answer is the success of renice alone. *)
Theorem apply_performance_tweaks_commands (env : Env) (p : Z) (w : World) :
  p ≠ 0 →
  let renice := ["renice"; "-n"; "-5"; "-p"; str_of_int p] in
  let ionice := ["ionice"; "-c2"; "-n0"; "-p"; str_of_int p] in
  let taskset := ["taskset"; "-cp"; "0"; str_of_int p] in
  let r := apply_performance_tweaks env (Some p) w in
  fst r = succeeded (run env (execs w) renice)
  ∧ ran (trace (snd r))
    = (ran (trace w) ++ [renice; ionice]
       ++ if (cpu_count env =? 1)%nat then [taskset] else [])%list.
Proof. apply apply_performance_tweaks_given. Qed.

Lemma apply_performance_tweaks_commands_witness :
  ran (trace (snd (apply_performance_tweaks bots_env (Some 4242) bots_world)))
  = [ ["renice"; "-n"; "-5"; "-p"; "4242"];
      ["ionice"; "-c2"; "-n0"; "-p"; "4242"];
      ["taskset"; "-cp"; "0"; "4242"] ].
Proof.
  pose proof (apply_performance_tweaks_commands bots_env 4242 bots_world) as H.
  cbv zeta in H. destruct H as [_ H]; [discriminate|].
  rewrite H. vm_compute. reflexivity.
Defined.

(** X24. The optimizer changes nothing: every sysctl assignment of
    [apply_network_optimizations] and both priority commands of
    [optimize_process_priority] are built with a leading sudo, which the
    whitelist does not hold. All eleven assignments end in the failed list,
    neither priority is reported as applied, both results report failure,
    and the only command that can be run is the status query of
    [get_satisfactory_performance]. *)
Theorem optimizer_applies_nothing (env : Env) (pid : option Z) (w : World) :
  let net := apply_network_optimizations env w in
  let proc := optimize_process_priority env pid w in
  (applied (fst net) = []
   ∧ failed (fst net) = map sysctl_assignment safe_sysctl_params
   ∧ net_success (fst net) = false
   ∧ ran (trace (snd net)) = ran (trace w))
  ∧ (proc_success (fst proc) = false
     ∧ nice_applied (fst proc) = false
     ∧ ionice_applied (fst proc) = false
     ∧ ∃ extra, ran (trace (snd proc)) = (ran (trace w) ++ extra)%list
                ∧ forallb status_query extra = true).
Proof.
  cbv zeta. split.
  - destruct (apply_network_optimizations_outcome env w) as (H1 & H2 & H3 & H4 & _).
    by auto.
  - destruct (optimize_process_priority_outcome env pid w) as (H1 & H2 & H3).
    repeat split; try assumption. apply optimize_process_priority_runs_only.
Qed.

(** X25. [perform_full_optimization] never reports success: both parts fail,
    so overall_success is false in every record it appends; besides status
    queries it runs no command; and it keeps the history within its fifty
    entries. *)
Theorem perform_full_optimization_never_succeeds
    (env : Env) (history : list Optimization) (w : World) :
  let r := perform_full_optimization env history w in
  overall_success (fst (fst r)) = false
  ∧ last (snd (fst r)) = Some (fst (fst r))
  ∧ (∃ extra, ran (trace (snd r)) = (ran (trace w) ++ extra)%list
              ∧ forallb status_query extra = true)
  ∧ ((List.length history ≤ max_history)%nat →
     (List.length (snd (fst r)) ≤ max_history)%nat).
Proof.
  cbv zeta.
  destruct (perform_full_optimization_outcome env history w) as (H1 & _ & _ & H4).
  split; [exact H1|]. split; [|split].
  - rewrite H4. cbv zeta.
    destruct (max_history <? List.length (history ++ [_]))%nat eqn:E.
    + destruct history as [|x h].
      * apply Nat.ltb_lt in E. cbn in E. unfold max_history in E. lia.
      * cbn [app tail]. apply last_snoc.
    + apply last_snoc.
  - apply perform_full_optimization_runs_only.
  - intros Hlen. rewrite H4. by apply history_stays_bounded.
Qed.

Lemma perform_full_optimization_never_succeeds_witness :
  (List.length (snd (fst (perform_full_optimization bots_env [] bots_world)))
   ≤ max_history)%nat.
Proof.
  pose proof (perform_full_optimization_never_succeeds bots_env [] bots_world) as H.
  cbv zeta in H. destruct H as (_ & _ & _ & H). apply H.
  vm_compute. lia.
Defined.

(** X26. The restart command of the manager bot never stops or starts the
    server: its stop command begins with sudo and is refused before
    anything is run, so no command is run on any path, and a permitted
    caller the limiter lets through is told that the stop failed, after the
    restart has been announced on both channels. *)
Theorem manager_restart_cmd_never_stops_server
    (env : Env) (user : Z) (permitted : bool) (w : World) :
  let stop := ["sudo"; "systemctl"; "stop"; SATISFACTORY_SERVICE env] in
  let w' := snd (restart_cmd env user permitted w) in
  ran (trace w') = ran (trace w)
  ∧ execs w' = execs w
  ∧ (fst (allow (clock env (reads w)) user (limiter w)) = true →
     permitted = true →
     trace w'
     = (trace w ++ [Noted (NoteRestartInitiated user) false;
                    Noted NotePublicRestarting false;
                    Refused stop;
                    Answered AnswerStopFailed])%list).
Proof. apply restart_cmd_outcome. Qed.

Lemma manager_restart_cmd_never_stops_server_witness :
  trace (snd (restart_cmd bots_env 7 true bots_world))
  = [ Noted (NoteRestartInitiated 7) false;
      Noted NotePublicRestarting false;
      Refused ["sudo"; "systemctl"; "stop"; "satisfactory.service"];
      Answered AnswerStopFailed ].
Proof.
  pose proof (manager_restart_cmd_never_stops_server bots_env 7 true bots_world) as H.
  cbv zeta in H. destruct H as (_ & _ & H).
  apply H; [vm_compute; reflexivity | reflexivity].
Defined.

(** X27. [upload_backup] never uploads: rclone is not a key of
    ALLOWED_COMMANDS, so the copy is refused before anything is run and the
    function answers with a false value whether or not a remote is
    configured. *)
Theorem upload_backup_never_uploads
    (env : Env) (rclone_remote rclone_path backup_file : string) (w : World) :
  let r := upload_backup env rclone_remote rclone_path backup_file w in
  fst r = false ∧ ran (trace (snd r)) = ran (trace w) ∧ execs (snd r) = execs w.
Proof. apply upload_backup_outcome. Qed.

(** X28. [safe_filename] returns a name exactly when the file name is not
    empty and what is left of its last path component, once the characters
    of the first pattern are taken out, is at most 100 characters long and
    consists of one or more letters, digits, dots, underscores and hyphens,
    possibly followed by one newline; the name returned is that rest. *)
Theorem safe_filename_accepts_exactly (filename s : string) :
  safe_filename filename = Some s ↔
  filename ≠ EmptyString
  ∧ s = remove_chars dangerous_char (basename filename)
  ∧ (String.length s ≤ 100)%nat
  ∧ ∃ body, body ≠ EmptyString ∧ str_forall name_char body = true
            ∧ (s = body ∨ s = body ++ String newline EmptyString).
Proof.
  split.
  - intros H. apply safe_filename_some in H as (Hne & Hs & Hm & Hl).
    repeat split; try assumption. by apply matches_name_shape.
  - intros (Hne & Hs & Hl & Hshape).
    assert (Hm : matches_name s = true) by (by apply matches_name_shape).
    subst s. unfold safe_filename. destruct filename as [|c r]; [congruence|].
    cbv zeta. rewrite Hm. cbn [negb].
    by replace (100 <? String.length
                        (remove_chars dangerous_char (basename (String c r))))%nat
      with false by (symmetry; apply Nat.ltb_ge; exact Hl).
Qed.

(** X29. A name [safe_filename] returns holds no slash and none of the
    characters of the first pattern, and [safe_filename] returns it
    unchanged when it is given again. *)
Theorem safe_filename_result_is_plain_and_stable (filename s : string) :
  safe_filename filename = Some s →
  contains_char "/" s = false
  ∧ str_forall (fun c => negb (dangerous_char c)) s = true
  ∧ safe_filename s = Some s.
Proof.
  intros H. apply safe_filename_some in H as (_ & _ & Hm & Hl).
  destruct (accepted_name_plain s Hm) as (H1 & H2 & _).
  repeat split; try assumption. by apply safe_filename_accepts.
Qed.

Lemma safe_filename_result_is_plain_and_stable_witness :
  safe_filename "passwd" = Some "passwd".
Proof.
  refine (proj2 (proj2 (safe_filename_result_is_plain_and_stable
                          "../../etc/passwd" "passwd" _))).
  vm_compute. reflexivity.
Defined.

(** X30. Directories are cut off before anything is checked: for a last
    component without a slash, the answer for a path is the answer for its
    last component alone, whatever stands before the last slash. *)
Theorem safe_filename_ignores_directories (dir name : string) :
  contains_char "/" name = false →
  safe_filename (dir ++ "/" ++ name) = safe_filename name.
Proof.
  intros Hname. unfold safe_filename.
  rewrite (basename_app dir name Hname).
  destruct (dir ++ "/" ++ name) as [|c r] eqn:E.
  { destruct dir; discriminate E. }
  destruct name as [|d n]; [reflexivity|].
  by rewrite (basename_plain _ Hname).
Qed.

Lemma safe_filename_ignores_directories_witness :
  safe_filename ("../../etc" ++ "/" ++ "passwd") = safe_filename "passwd".
Proof.
  apply (safe_filename_ignores_directories "../../etc" "passwd").
  vm_compute. reflexivity.
Defined.

